(** * The contact book of the assistant bot: model and properties

    A shallow embedding of the classes [Field], [Name], [Phone], [Birthday],
    [Record] and [AddressBook] of [task1.py] (the same classes open
    [task2.py]), together with the part of the Python runtime they rest on:
    [str] as a sequence of Unicode code points, [str.isdigit],
    [datetime.strptime] / [strftime] for the format [%d.%m.%Y], and the
    proleptic Gregorian arithmetic of [datetime] and [timedelta].

    Exceptions are values: a call returns [Ok v] or [Raise e].  Methods that
    mutate [self] are functions [record -> result A * record]: the state they
    leave behind is part of the outcome also when they raise.  The wall clock
    read by [datetime.today()] is an explicit argument [today]. *)

From Stdlib Require Import ZArith NArith List String Ascii Bool Lia.
Import ListNotations.
Open Scope Z_scope.

(** ** Python strings *)

Module Py.

(** A [str] is a sequence of code points; [len] counts them. *)
Definition str : Type := list N.

Definition lit (s : string) : str :=
  map N_of_ascii (list_ascii_of_string s).

Definition len (s : str) : Z := Z.of_nat (List.length s).

Fixpoint str_eqb (a b : str) : bool :=
  match a, b with
  | [], [] => true
  | x :: a', y :: b' => N.eqb x y && str_eqb a' b'
  | _, _ => false
  end.

Definition in_ranges (table : list (N * N)) (c : N) : bool :=
  existsb (fun r => N.leb (fst r) c && N.leb c (snd r)) table.

(** Code points with [Numeric_Type=Digit] or [Numeric_Type=Decimal]
    (Unicode 14, the table of CPython 3.11): what [str.isdigit] accepts. *)
Definition digit_ranges : list (N * N) :=
  [(48, 57); (178, 179); (185, 185); (1632, 1641); (1776, 1785);
   (1984, 1993); (2406, 2415); (2534, 2543); (2662, 2671); (2790, 2799);
   (2918, 2927); (3046, 3055); (3174, 3183); (3302, 3311); (3430, 3439);
   (3558, 3567); (3664, 3673); (3792, 3801); (3872, 3881); (4160, 4169);
   (4240, 4249); (4969, 4977); (6112, 6121); (6160, 6169); (6470, 6479);
   (6608, 6618); (6784, 6793); (6800, 6809); (6992, 7001); (7088, 7097);
   (7232, 7241); (7248, 7257); (8304, 8304); (8308, 8313); (8320, 8329);
   (9312, 9320); (9332, 9340); (9352, 9360); (9450, 9450); (9461, 9469);
   (9471, 9471); (10102, 10110); (10112, 10120); (10122, 10130);
   (42528, 42537); (43216, 43225); (43264, 43273); (43472, 43481);
   (43504, 43513); (43600, 43609); (44016, 44025); (65296, 65305);
   (66720, 66729); (68160, 68163); (68912, 68921); (69216, 69224);
   (69714, 69722); (69734, 69743); (69872, 69881); (69942, 69951);
   (70096, 70105); (70384, 70393); (70736, 70745); (70864, 70873);
   (71248, 71257); (71360, 71369); (71472, 71481); (71904, 71913);
   (72016, 72025); (72784, 72793); (73040, 73049); (73120, 73129);
   (92768, 92777); (92864, 92873); (93008, 93017); (120782, 120831);
   (123200, 123209); (123632, 123641); (125264, 125273); (127232, 127242);
   (130032, 130041)]%N.

(** Code points of category [Nd] ([Numeric_Type=Decimal]): what
    [str.isdecimal], the regular expression [\d] and [int] accept.  Every run
    starts at a digit zero and its length is a multiple of ten. *)
Definition decimal_ranges : list (N * N) :=
  [(48, 57); (1632, 1641); (1776, 1785); (1984, 1993); (2406, 2415);
   (2534, 2543); (2662, 2671); (2790, 2799); (2918, 2927); (3046, 3055);
   (3174, 3183); (3302, 3311); (3430, 3439); (3558, 3567); (3664, 3673);
   (3792, 3801); (3872, 3881); (4160, 4169); (4240, 4249); (6112, 6121);
   (6160, 6169); (6470, 6479); (6608, 6617); (6784, 6793); (6800, 6809);
   (6992, 7001); (7088, 7097); (7232, 7241); (7248, 7257); (42528, 42537);
   (43216, 43225); (43264, 43273); (43472, 43481); (43504, 43513);
   (43600, 43609); (44016, 44025); (65296, 65305); (66720, 66729);
   (68912, 68921); (69734, 69743); (69872, 69881); (69942, 69951);
   (70096, 70105); (70384, 70393); (70736, 70745); (70864, 70873);
   (71248, 71257); (71360, 71369); (71472, 71481); (71904, 71913);
   (72016, 72025); (72784, 72793); (73040, 73049); (73120, 73129);
   (92768, 92777); (92864, 92873); (93008, 93017); (120782, 120831);
   (123200, 123209); (123632, 123641); (125264, 125273); (130032, 130041)]%N.

Definition char_isdigit (c : N) : bool := in_ranges digit_ranges c.

Definition char_isdecimal (c : N) : bool := in_ranges decimal_ranges c.

(** The ten characters [0] .. [9] of ASCII. *)
Definition char_is_ascii_digit (c : N) : bool :=
  (N.leb 48 c && N.leb c 57)%N.

(** [s.isdigit()]: every character is a digit and there is at least one. *)
Definition isdigit (s : str) : bool :=
  match s with
  | [] => false
  | _ => forallb char_isdigit s
  end.

(** The value [int] gives a decimal character. *)
Definition decimal_value (c : N) : option Z :=
  match find (fun r => N.leb (fst r) c && N.leb c (snd r))%N decimal_ranges with
  | Some r => Some (Z.of_N ((c - fst r) mod 10)%N)
  | None => None
  end.

(** Exceptions, by class; the message is kept where the program supplies
    it and is [None] where the interpreter words it. *)
Inductive exn : Type :=
| ValueError (msg : option string)
| OverflowError.

Inductive result (A : Type) : Type :=
| Ok (a : A)
| Raise (e : exn).

Arguments Ok {A} a.
Arguments Raise {A} e.

Definition bind {A B : Type} (m : result A) (k : A -> result B) : result B :=
  match m with
  | Ok a => k a
  | Raise e => Raise e
  end.

Definition raises {A : Type} (m : result A) : bool :=
  match m with
  | Ok _ => false
  | Raise _ => true
  end.

End Py.

Export Py.

Declare Scope py_scope.
Delimit Scope py_scope with py.
Notation "x <- m ;; k" := (bind m (fun x => k))
  (at level 61, m at next level, right associativity) : py_scope.
Notation "' pat <- m ;; k" := (bind m (fun x => match x with pat => k end))
  (at level 61, pat pattern, m at next level, right associativity) : py_scope.

Local Open Scope py_scope.

(** ** The [datetime] module *)

Module Datetime.

(** A naive [datetime]: the fields the class stores. *)
Record datetime : Type := mk_datetime {
  year : Z;
  month : Z;
  day : Z;
  hour : Z;
  minute : Z;
  second : Z;
  microsecond : Z
}.

Record timedelta : Type := mk_timedelta {
  days : Z;
  seconds : Z;
  microseconds : Z
}.

Definition MINYEAR : Z := 1.
Definition MAXYEAR : Z := 9999.
Definition MAXORDINAL : Z := 3652059.

Definition DAYS_IN_MONTH : list Z :=
  [-1; 31; 28; 31; 30; 31; 30; 31; 31; 30; 31; 30; 31].

Definition DAYS_BEFORE_MONTH : list Z :=
  [-1; 0; 31; 59; 90; 120; 151; 181; 212; 243; 273; 304; 334].

(** Table lookup; the callers only index with a month in 1..12. *)
Definition item (table : list Z) (i : Z) : Z := nth (Z.to_nat i) table 0.

Definition is_leap (y : Z) : bool :=
  (y mod 4 =? 0) && (negb (y mod 100 =? 0) || (y mod 400 =? 0)).

Definition days_before_year (y : Z) : Z :=
  let y := y - 1 in
  y * 365 + y / 4 - y / 100 + y / 400.

Definition days_in_month (y m : Z) : Z :=
  if (m =? 2) && is_leap y then 29 else item DAYS_IN_MONTH m.

Definition days_before_month (y m : Z) : Z :=
  item DAYS_BEFORE_MONTH m + Z.b2z ((2 <? m) && is_leap y).

Definition ymd2ord (y m d : Z) : Z :=
  days_before_year y + days_before_month y m + d.

Definition DI400Y : Z := 146097.
Definition DI100Y : Z := 36524.
Definition DI4Y : Z := 1461.

Definition ord2ymd (n : Z) : Z * Z * Z :=
  let n := n - 1 in
  let n400 := n / DI400Y in
  let n := n mod DI400Y in
  let y := n400 * 400 + 1 in
  let n100 := n / DI100Y in
  let n := n mod DI100Y in
  let n4 := n / DI4Y in
  let n := n mod DI4Y in
  let n1 := n / 365 in
  let n := n mod 365 in
  let y := y + (n100 * 100 + n4 * 4 + n1) in
  if (n1 =? 4) || (n100 =? 4) then (y - 1, 12, 31)
  else
    let leapyear := (n1 =? 3) && (negb (n4 =? 24) || (n100 =? 3)) in
    let m := Z.shiftr (n + 50) 5 in
    let preceding := item DAYS_BEFORE_MONTH m + Z.b2z ((2 <? m) && leapyear) in
    let '(m, preceding) :=
      if n <? preceding
      then (m - 1,
            preceding - (item DAYS_IN_MONTH (m - 1)
                         + Z.b2z ((m - 1 =? 2) && leapyear)))
      else (m, preceding) in
    (y, m, n - preceding + 1).

Definition check_date_fields (y m d : Z) : result unit :=
  if negb ((MINYEAR <=? y) && (y <=? MAXYEAR)) then Raise (ValueError None)
  else if negb ((1 <=? m) && (m <=? 12)) then Raise (ValueError None)
  else if negb ((1 <=? d) && (d <=? days_in_month y m))
       then Raise (ValueError None)
  else Ok tt.

Definition check_time_fields (h mi s us : Z) : result unit :=
  if negb ((0 <=? h) && (h <=? 23)) then Raise (ValueError None)
  else if negb ((0 <=? mi) && (mi <=? 59)) then Raise (ValueError None)
  else if negb ((0 <=? s) && (s <=? 59)) then Raise (ValueError None)
  else if negb ((0 <=? us) && (us <=? 999999)) then Raise (ValueError None)
  else Ok tt.

(** [datetime(year, month, day, hour, minute, second, microsecond)] *)
Definition new (y m d h mi s us : Z) : result datetime :=
  _ <- check_date_fields y m d ;;
  _ <- check_time_fields h mi s us ;;
  Ok (mk_datetime y m d h mi s us).

(** [self.replace(year=y)] builds a new object through the constructor. *)
Definition replace_year (self : datetime) (y : Z) : result datetime :=
  new y (month self) (day self)
      (hour self) (minute self) (second self) (microsecond self).

Definition toordinal (self : datetime) : Z :=
  ymd2ord (year self) (month self) (day self).

(** Comparison of naive datetimes: the field tuples, lexicographically. *)
Fixpoint cmp (a b : list Z) : comparison :=
  match a, b with
  | x :: a', y :: b' =>
      match x ?= y with
      | Eq => cmp a' b'
      | c => c
      end
  | [], [] => Eq
  | [], _ :: _ => Lt
  | _ :: _, [] => Gt
  end.

Definition getstate (self : datetime) : list Z :=
  [year self; month self; day self;
   hour self; minute self; second self; microsecond self].

Definition compare (a b : datetime) : comparison :=
  cmp (getstate a) (getstate b).

Definition lt (a b : datetime) : bool :=
  match compare a b with Lt => true | _ => false end.

Definition le (a b : datetime) : bool :=
  match compare a b with Gt => false | _ => true end.

Definition eqb (a b : datetime) : bool :=
  match compare a b with Eq => true | _ => false end.

(** [timedelta(days, seconds, microseconds)] on integers: the arguments are
    carried into the normal form [0 <= seconds < 86400],
    [0 <= microseconds < 1000000]; the day count is bounded. *)
Definition timedelta_new (d s us : Z) : result timedelta :=
  let s := s + us / 1000000 in
  let us := us mod 1000000 in
  let d := d + s / 86400 in
  let s := s mod 86400 in
  if 999999999 <? Z.abs d then Raise OverflowError
  else Ok (mk_timedelta d s us).

(** [datetime.__add__(self, other)] for a [timedelta]. *)
Definition add (self : datetime) (other : timedelta) : result datetime :=
  delta <- timedelta_new (toordinal self)
             (hour self * 3600 + minute self * 60 + second self)
             (microsecond self) ;;
  delta <- timedelta_new (days delta + days other)
             (seconds delta + seconds other)
             (microseconds delta + microseconds other) ;;
  let h := seconds delta / 3600 in
  let rem := seconds delta mod 3600 in
  let mi := rem / 60 in
  let s := rem mod 60 in
  if (0 <? days delta) && (days delta <=? MAXORDINAL) then
    let '(y, m, d) := ord2ymd (days delta) in
    Ok (mk_datetime y m d h mi s (microseconds delta))
  else Raise OverflowError.

(** [datetime.__sub__(self, other)] for a naive [datetime]. *)
Definition sub (self other : datetime) : result timedelta :=
  let days1 := toordinal self in
  let days2 := toordinal other in
  let secs1 := second self + minute self * 60 + hour self * 3600 in
  let secs2 := second other + minute other * 60 + hour other * 3600 in
  timedelta_new (days1 - days2) (secs1 - secs2)
                (microsecond self - microsecond other).

End Datetime.

Import Datetime.

(** ** [strptime] and [strftime] for the format [%d.%m.%Y] *)

Module Strptime.

(** A pattern maps the text to its matches, each with the text left over,
    in the order the backtracking matcher of [re] tries them. *)
Definition pattern (A : Type) : Type := str -> list (A * str).

Definition in_class (lo hi c : N) : bool := (N.leb lo c && N.leb c hi)%N.

Definition digit_of (c : N) : Z := Z.of_N (c - 48).

Definition one_char (lo hi : N) : pattern Z := fun s =>
  match s with
  | c :: rest => if in_class lo hi c then [(digit_of c, rest)] else []
  | [] => []
  end.

(** [\d]: any character of category [Nd]. *)
Definition decimal_char : pattern Z := fun s =>
  match s with
  | c :: rest =>
      match decimal_value c with
      | Some v => [(v, rest)]
      | None => []
      end
  | [] => []
  end.

Definition literal (c : N) : pattern unit := fun s =>
  match s with
  | x :: rest => if N.eqb x c then [(tt, rest)] else []
  | [] => []
  end.

Definition seq {A B C : Type} (f : A -> B -> C)
  (p : pattern A) (q : pattern B) : pattern C := fun s =>
  flat_map (fun '(a, s1) => map (fun '(b, s2) => (f a b, s2)) (q s1)) (p s).

Definition alt {A : Type} (ps : list (pattern A)) : pattern A := fun s =>
  flat_map (fun p => p s) ps.

Definition two_digits (p : pattern Z) (q : pattern Z) : pattern Z :=
  seq (fun a b => 10 * a + b) p q.

(** [(?P<d>3[0-1]|[1-2]\d|0[1-9]|[1-9]| [1-9])] with the value [int]
    gives the matched text. *)
Definition group_d : pattern Z :=
  alt [ two_digits (one_char 51 51) (one_char 48 49);
        two_digits (one_char 49 50) decimal_char;
        two_digits (one_char 48 48) (one_char 49 57);
        one_char 49 57;
        seq (fun _ b => b) (literal 32) (one_char 49 57) ].

(** [(?P<m>1[0-2]|0[1-9]|[1-9])] *)
Definition group_m : pattern Z :=
  alt [ two_digits (one_char 49 49) (one_char 48 50);
        two_digits (one_char 48 48) (one_char 49 57);
        one_char 49 57 ].

(** [(?P<Y>\d\d\d\d)] *)
Definition group_Y : pattern Z :=
  two_digits (two_digits (two_digits decimal_char decimal_char) decimal_char)
             decimal_char.

(** The compiled format: [group_d \. group_m \. group_Y]. *)
Definition format_regex : pattern (Z * Z * Z) :=
  seq (fun d my => (d, fst my, snd my)) group_d
    (seq (fun _ my => my) (literal 46)
       (seq (fun m y => (m, y)) group_m
          (seq (fun _ y => y) (literal 46) group_Y))).

(** [datetime.strptime(data_string, "%d.%m.%Y")]: the first match of the
    regular expression at the start of the text, which has to end where the
    text ends; then the constructor checks the date. *)
Definition strptime (data_string : str) : result datetime :=
  match format_regex data_string with
  | [] => Raise (ValueError None)
  | (d, m, y, rest) :: _ =>
      match rest with
      | _ :: _ => Raise (ValueError None)
      | [] => Datetime.new y m d 0 0 0 0
      end
  end.

Definition ascii_digit (k : Z) : N := (48 + Z.to_N k)%N.

Definition pad2 (n : Z) : str :=
  [ascii_digit (n / 10 mod 10); ascii_digit (n mod 10)].

Definition pad4 (n : Z) : str :=
  [ascii_digit (n / 1000 mod 10); ascii_digit (n / 100 mod 10);
   ascii_digit (n / 10 mod 10); ascii_digit (n mod 10)].

(** The decimal numeral of a year in 1..9999 without leading zeros. *)
Fixpoint strip_zeros (s : str) : str :=
  match s with
  | c :: (_ :: _) as rest => if N.eqb c 48 then strip_zeros rest else s
  | _ => s
  end.

(** [%Y] is printed by the C library: some pad the year to four digits
    ([0999]), glibc prints the bare number ([999]). *)
Definition directive_Y (libc_pads_year : bool) (y : Z) : str :=
  if libc_pads_year then pad4 y else strip_zeros (pad4 y).

(** [self.strftime("%d.%m.%Y")] *)
Definition strftime (libc_pads_year : bool) (self : datetime) : str :=
  pad2 (day self) ++ [46%N] ++ pad2 (month self) ++ [46%N]
  ++ directive_Y libc_pads_year (year self).

End Strptime.

(** ** The fields *)

Module Name.

Record t : Type := mk { value : str }.

Definition init (value : str) : result t :=
  match value with
  | [] => Raise (ValueError (Some "Name cannot be empty."%string))
  | _ => Ok (mk value)
  end.

End Name.

Module Phone.

Record t : Type := mk { value : str }.

Definition validate_phone (value : str) : bool :=
  isdigit value && (len value =? 10).

Definition init (value : str) : result t :=
  if negb (validate_phone value)
  then Raise (ValueError
                (Some "Phone number must contain exactly 10 digits."%string))
  else Ok (mk value).

Definition eqb (a b : t) : bool := str_eqb (value a) (value b).

End Phone.

Module Birthday.

Record t : Type := mk { value : datetime }.

Definition init (value : str) : result t :=
  match Strptime.strptime value with
  | Ok d => Ok (mk d)
  | Raise (ValueError _) =>
      Raise (ValueError (Some "Invalid date format. Use DD.MM.YYYY"%string))
  | Raise e => Raise e
  end.

End Birthday.

(** ** Records *)

Module Record.

Record t : Type := mk {
  name : Name.t;
  phones : list Phone.t;
  birthday : option Birthday.t
}.

(** A method runs on [self] and leaves it in a state, whether it returns
    or raises. *)
Definition method (A : Type) : Type := t -> result A * t.

Definition ret {A : Type} (a : A) : method A := fun self => (Ok a, self).

Definition mbind {A B : Type} (m : method A) (k : A -> method B) : method B :=
  fun self =>
    match m self with
    | (Ok a, self') => k a self'
    | (Raise e, self') => (Raise e, self')
    end.

Definition lift {A : Type} (r : result A) : method A := fun self => (r, self).

Definition gets {A : Type} (f : t -> A) : method A :=
  fun self => (Ok (f self), self).

Definition set_phones (l : list Phone.t) : method unit :=
  fun self => (Ok tt, mk (name self) l (birthday self)).

Definition set_birthday (b : Birthday.t) : method unit :=
  fun self => (Ok tt, mk (name self) (phones self) (Some b)).

Declare Scope method_scope.
Delimit Scope method_scope with method.
Notation "x <- m ;; k" := (mbind m (fun x => k))
  (at level 61, m at next level, right associativity) : method_scope.

(** [Record(name)] *)
Definition init (name : str) : result t :=
  n <- Name.init name ;;
  Ok (mk n [] None).

(** [list.remove(x)]: drops the first item equal to [x], raises
    [ValueError] when there is none.  A [Phone] is compared by identity;
    the phone handed over is always the first one of the list with its
    value, so dropping the first item with that value drops that object. *)
Fixpoint list_remove (x : Phone.t) (l : list Phone.t)
  : result (list Phone.t) :=
  match l with
  | [] => Raise (ValueError None)
  | p :: rest =>
      if Phone.eqb p x then Ok rest
      else (rest' <- list_remove x rest ;; Ok (p :: rest'))
  end.

Definition find_phone (phone : str) (self : t) : option Phone.t :=
  List.find (fun p => str_eqb (Phone.value p) phone) (phones self).

Local Open Scope method_scope.

Definition add_phone (phone : str) : method unit :=
  p <- lift (Phone.init phone) ;;
  l <- gets phones ;;
  set_phones (l ++ [p]).

Definition remove_phone (phone : str) : method unit :=
  phone_to_remove <- gets (find_phone phone) ;;
  match phone_to_remove with
  | Some p =>
      l <- gets phones ;;
      l' <- lift (list_remove p l) ;;
      set_phones l'
  | None => ret tt
  end.

Definition edit_phone (old_phone new_phone : str) : method unit :=
  phone_to_edit <- gets (find_phone old_phone) ;;
  match phone_to_edit with
  | Some p =>
      l <- gets phones ;;
      l' <- lift (list_remove p l) ;;
      _ <- set_phones l' ;;
      add_phone new_phone
  | None => ret tt
  end.

Definition add_birthday (birthday : str) : method unit :=
  b <- lift (Birthday.init birthday) ;;
  set_birthday b.

Local Close Scope method_scope.

(** [days_to_birthday]; [today] is what [datetime.today()] returns during
    the call.  The method does not assign to [self]. *)
Definition days_to_birthday (today : datetime) (self : t)
  : result (option Z) :=
  match birthday self with
  | Some b =>
      next_birthday <- replace_year (Birthday.value b) (year today) ;;
      next_birthday <-
        (if Datetime.lt next_birthday today
         then replace_year (Birthday.value b) (year today + 1)
         else Ok next_birthday) ;;
      delta <- Datetime.sub next_birthday today ;;
      Ok (Some (days delta))
  | None => Ok None
  end.

Fixpoint join (sep : str) (items : list str) : str :=
  match items with
  | [] => []
  | [x] => x
  | x :: rest => x ++ sep ++ join sep rest
  end.

(** [__str__] *)
Definition to_str (libc_pads_year : bool) (self : t) : str :=
  let phones_str := join (lit "; ") (map Phone.value (phones self)) in
  let birthday_str :=
    match birthday self with
    | Some b => Strptime.strftime libc_pads_year (Birthday.value b)
    | None => lit "No birthday"
    end in
  lit "Contact name: " ++ Name.value (name self)
  ++ lit ", phones: " ++ phones_str
  ++ lit ", birthday: " ++ birthday_str.

End Record.

(** ** The address book *)

Module AddressBook.

(** [self.data]: a [dict] from names to records, in insertion order, each
    key once. *)
Definition t : Type := list (str * Record.t).

Definition empty : t := [].

Definition contains (key : str) (data : t) : bool :=
  existsb (fun kv => str_eqb (fst kv) key) data.

(** [data[key] = record]: an existing key keeps its place. *)
Fixpoint setitem (key : str) (record : Record.t) (data : t) : t :=
  match data with
  | [] => [(key, record)]
  | (k, v) :: rest =>
      if str_eqb k key then (k, record) :: rest
      else (k, v) :: setitem key record rest
  end.

(** [del data[key]] for a key that is present. *)
Fixpoint delitem (key : str) (data : t) : t :=
  match data with
  | [] => []
  | (k, v) :: rest =>
      if str_eqb k key then rest else (k, v) :: delitem key rest
  end.

Definition values (data : t) : list Record.t := map snd data.

Definition add_record (record : Record.t) (data : t) : t :=
  setitem (Name.value (Record.name record)) record data.

Definition find (name : str) (data : t) : option Record.t :=
  match List.find (fun kv => str_eqb (fst kv) name) data with
  | Some kv => Some (snd kv)
  | None => None
  end.

Definition delete (name : str) (data : t) : t :=
  if contains name data then delitem name data else data.

Definition between (today next_birthday end_date : datetime) : bool :=
  Datetime.le today next_birthday && Datetime.le next_birthday end_date.

(** The loop of [get_upcoming_birthdays] over the records still to visit. *)
Fixpoint upcoming_loop (today end_date : datetime)
  (records upcoming_birthdays : list Record.t) : result (list Record.t) :=
  match records with
  | [] => Ok upcoming_birthdays
  | record :: rest =>
      match Record.birthday record with
      | Some b =>
          next_birthday <- replace_year (Birthday.value b) (year today) ;;
          if between today next_birthday end_date
          then upcoming_loop today end_date rest
                 (upcoming_birthdays ++ [record])
          else if Datetime.lt next_birthday today
          then
            next_birthday <-
              replace_year (Birthday.value b) (year today + 1) ;;
            if between today next_birthday end_date
            then upcoming_loop today end_date rest
                   (upcoming_birthdays ++ [record])
            else upcoming_loop today end_date rest upcoming_birthdays
          else upcoming_loop today end_date rest upcoming_birthdays
      | None => upcoming_loop today end_date rest upcoming_birthdays
      end
  end.

(** [get_upcoming_birthdays(days)]; [today] is what [datetime.today()]
    returns during the call. *)
Definition get_upcoming_birthdays (today : datetime) (days : Z) (data : t)
  : result (list Record.t) :=
  delta <- timedelta_new days 0 0 ;;
  end_date <- Datetime.add today delta ;;
  upcoming_loop today end_date (values data) [].

End AddressBook.

(** ** Clients: sequences of calls *)

(** The calls a client can make on a record it holds. *)
Inductive call : Type :=
| AddPhone (phone : str)
| RemovePhone (phone : str)
| EditPhone (old_phone new_phone : str)
| AddBirthday (birthday : str).

Definition run_call (c : call) : Record.method unit :=
  match c with
  | AddPhone phone => Record.add_phone phone
  | RemovePhone phone => Record.remove_phone phone
  | EditPhone old_phone new_phone => Record.edit_phone old_phone new_phone
  | AddBirthday birthday => Record.add_birthday birthday
  end.

(** The record after a sequence of calls, each of which may have raised
    (the client catches and goes on, as the bot's [input_error] does). *)
Fixpoint run_calls (cs : list call) (self : Record.t) : Record.t :=
  match cs with
  | [] => self
  | c :: rest => run_calls rest (snd (run_call c self))
  end.

(** The records a program can hold: built by [Record(name)], then used. *)
Definition constructed (r : Record.t) : Prop :=
  exists (name : str) (r0 : Record.t) (cs : list call),
    Record.init name = Ok r0 /\ r = run_calls cs r0.

(** The books a program can hold.  A record found in the book is the
    object stored there, so a call on it changes the stored record. *)
Inductive reachable : AddressBook.t -> Prop :=
| reach_empty : reachable AddressBook.empty
| reach_add_record : forall book r,
    reachable book -> constructed r ->
    reachable (AddressBook.add_record r book)
| reach_delete : forall book name,
    reachable book -> reachable (AddressBook.delete name book)
| reach_call : forall book name r c,
    reachable book -> AddressBook.find name book = Some r ->
    reachable (AddressBook.setitem name (snd (run_call c r)) book).

(** Every key is non-empty and is the name of its record. *)
Definition keyed_by_name (book : AddressBook.t) : Prop :=
  forall key r, In (key, r) book ->
    key <> [] /\ Name.value (Record.name r) = key.

Definition valid_phone (p : Phone.t) : Prop :=
  List.length (Phone.value p) = 10%nat
  /\ Forall (fun c => char_isdigit c = true) (Phone.value p).

Definition occurrences (phone : str) (l : list Phone.t) : nat :=
  List.length (filter (fun p => str_eqb (Phone.value p) phone) l).

(** The test of [find_phone]. *)
Definition has_phone_value (phone : str) (p : Phone.t) : bool :=
  str_eqb (Phone.value p) phone.

Definition phone_error : exn :=
  ValueError (Some "Phone number must contain exactly 10 digits."%string).


(** ** Sample data *)

Module Sample.

(** Ten times SUPERSCRIPT TWO (U+00B2). *)
Definition superscript_twos : str := repeat 178%N 10.

Definition phone_a : str := lit "1234567890".
Definition phone_b : str := lit "1112223333".

(** [Record("John")] *)
Definition john : Record.t := Record.mk (Name.mk (lit "John")) [] None.

(** John after [add_phone("1234567890")]. *)
Definition john_one_phone : Record.t :=
  Record.mk (Name.mk (lit "John")) [Phone.mk phone_a] None.

(** John after [add_phone("1234567890")] twice. *)
Definition john_same_phone_twice : Record.t :=
  Record.mk (Name.mk (lit "John")) [Phone.mk phone_a; Phone.mk phone_a] None.

(** John after [add_birthday("10.02.1990")]. *)
Definition john_born_10_feb : Record.t :=
  Record.mk (Name.mk (lit "John")) []
            (Some (Birthday.mk (mk_datetime 1990 2 10 0 0 0 0))).

(** John after [add_birthday("29.02.2000")]. *)
Definition john_born_29_feb : Record.t :=
  Record.mk (Name.mk (lit "John")) []
            (Some (Birthday.mk (mk_datetime 2000 2 29 0 0 0 0))).

(** The book after [add_record] of John born on 10.02.1990. *)
Definition book_of_john : AddressBook.t :=
  AddressBook.add_record john_born_10_feb AddressBook.empty.

(** Clock readings on 10.02.2024: at 00:00:00 and at 12:00:00. *)
Definition midnight_10_feb_2024 : datetime := mk_datetime 2024 2 10 0 0 0 0.
Definition noon_10_feb_2024 : datetime := mk_datetime 2024 2 10 12 0 0 0.

End Sample.

(** ** Finite checks *)

(** The integers [lo], [lo + 1], ..., [lo + n - 1]. *)
Definition zrange (lo : Z) (n : nat) : list Z :=
  map (fun i => lo + Z.of_nat i) (List.seq 0 n).

(** The month and day [ord2ymd] reads off a day-of-year offset [n]. *)
Definition month_and_day (leapyear : bool) (n : Z) : Z * Z :=
  let m := Z.shiftr (n + 50) 5 in
  let preceding := item DAYS_BEFORE_MONTH m + Z.b2z ((2 <? m) && leapyear) in
  let '(m, preceding) :=
    if n <? preceding
    then (m - 1,
          preceding - (item DAYS_IN_MONTH (m - 1)
                       + Z.b2z ((m - 1 =? 2) && leapyear)))
    else (m, preceding) in
  (m, n - preceding + 1).

(** Day-of-year offset of a day of a month. *)
Definition day_offset (leapyear : bool) (m d : Z) : Z :=
  item DAYS_BEFORE_MONTH m + Z.b2z ((2 <? m) && leapyear) + d - 1.

Definition month_length (leapyear : bool) (m : Z) : Z :=
  if (m =? 2) && leapyear then 29 else item DAYS_IN_MONTH m.

Definition month_table_ok (leapyear : bool) (m d : Z) : bool :=
  implb (d <=? month_length leapyear m)
    (let n := day_offset leapyear m d in
     (0 <=? n) && (n <? 365 + Z.b2z leapyear)
     && ((n =? 365) || (let '(m', d') := month_and_day leapyear n in
                        (m' =? m) && (d' =? d)))
     && implb (n =? 365) ((m =? 12) && (d =? 31))).

(** ** Clock readings and calendar dates *)

(** A [datetime] object as the constructor makes them. *)
Definition valid (dt : datetime) : Prop :=
  Datetime.new (year dt) (month dt) (day dt)
               (hour dt) (minute dt) (second dt) (microsecond dt) = Ok dt.

Definition midnight (dt : datetime) : bool :=
  (hour dt =? 0) && (minute dt =? 0) && (second dt =? 0)
  && (microsecond dt =? 0).

(** The day of a clock reading, as the [datetime] of its first instant. *)
Definition date_of (dt : datetime) : datetime :=
  mk_datetime (year dt) (month dt) (day dt) 0 0 0 0.

Definition same_date (a b : datetime) : Prop := date_of a = date_of b.

(** The date [ymd] with the time of day of [dt]. *)
Definition at_time_of (dt : datetime) (ymd : Z * Z * Z) : datetime :=
  let '(y, m, d) := ymd in
  mk_datetime y m d (hour dt) (minute dt) (second dt) (microsecond dt).

(** ** The birthday window as the specification words it *)

Module Spec.

(** The year-projected birthday: the birthday with the year of [today];
    if that is before [today], the birthday with the next year. *)
Definition candidate (today birthday : datetime) : result datetime :=
  c <- replace_year birthday (year today) ;;
  if Datetime.lt c today then replace_year birthday (year today + 1)
  else Ok c.

(** The projection can be computed for the record (a record without a
    birthday needs none). *)
Definition projectable (today : datetime) (record : Record.t) : bool :=
  match Record.birthday record with
  | Some b => negb (raises (candidate today (Birthday.value b)))
  | None => true
  end.

(** The record has a birthday and its projection lies in the closed
    interval from [today] to [end_date]. *)
Definition included (today end_date : datetime) (record : Record.t) : bool :=
  match Record.birthday record with
  | Some b =>
      match candidate today (Birthday.value b) with
      | Ok c => Datetime.le today c && Datetime.le c end_date
      | Raise _ => false
      end
  | None => false
  end.

(** The record has a birthday and its projection equals [today]. *)
Definition falls_on (today : datetime) (record : Record.t) : bool :=
  match Record.birthday record with
  | Some b =>
      match candidate today (Birthday.value b) with
      | Ok c => Datetime.eqb c today
      | Raise _ => false
      end
  | None => false
  end.

(** [today + days] *)
Definition end_of_window (today : datetime) (days : Z) : result datetime :=
  delta <- timedelta_new days 0 0 ;;
  Datetime.add today delta.

(** The records of the window, in the order of the book. *)
Definition upcoming (today end_date : datetime) (data : AddressBook.t)
  : list Record.t :=
  filter (included today end_date) (AddressBook.values data).

End Spec.

(** The birthday of a record, when set, is a date at 00:00:00. *)
Definition birthday_at_midnight (r : Record.t) : Prop :=
  forall b, Record.birthday r = Some b ->
    valid (Birthday.value b) /\ midnight (Birthday.value b) = true.

(** The date fields, as compared before the time of day. *)
Definition date_fields (dt : datetime) : list Z :=
  [year dt; month dt; day dt].

Definition time_fields_nonneg (dt : datetime) : Prop :=
  0 <= hour dt /\ 0 <= minute dt /\ 0 <= second dt /\ 0 <= microsecond dt.

(** The table checks behind the calendar lemmas: reading a day-of-year
    offset gives a day of a month with that offset, and the offsets grow
    with the month. *)
Definition offset_table_ok (leapyear : bool) (n : Z) : bool :=
  let '(m, d) := month_and_day leapyear n in
  (1 <=? m) && (m <=? 12) && (1 <=? d) && (d <=? month_length leapyear m)
  && (day_offset leapyear m d =? n).

Definition month_order_ok (leapyear : bool) (m1 m2 : Z) : bool :=
  implb (m1 <? m2)
    (day_offset leapyear m1 (month_length leapyear m1)
     <? day_offset leapyear m2 1).

(** The check behind the rendering lemma: a year printed without leading
    zeros is not a text the year group matches. *)
Definition short_year_unmatched (y : Z) : bool :=
  match Strptime.group_Y (Strptime.strip_zeros (Strptime.pad4 y)) with
  | [] => true
  | _ :: _ => false
  end.

(** ** Tactics *)

(** Case analysis on an integer known to lie in a short range starting
    at [lo]. *)
Ltac z_enum d lo :=
  let H := fresh in
  destruct (Z.eq_dec d lo) as [H|H];
  [ subst d
  | first [ exfalso; lia
          | let lo' := eval compute in (lo + 1) in z_enum d lo' ] ].


(** ** More of the runtime: whitespace, splitting and [int] *)

Module Text.

(** The characters [str.isspace], [str.strip] and [str.split] treat as
    whitespace (Unicode 14). *)
Definition space_chars : list N :=
  [9; 10; 11; 12; 13; 28; 29; 30; 31; 32; 133; 160; 5760; 8192; 8193; 8194;
   8195; 8196; 8197; 8198; 8199; 8200; 8201; 8202; 8232; 8233; 8239; 8287;
   12288]%N.

Definition char_isspace (c : N) : bool := existsb (N.eqb c) space_chars.

Fixpoint lstrip_by (space : N -> bool) (s : str) : str :=
  match s with
  | c :: rest => if space c then lstrip_by space rest else s
  | [] => []
  end.

Definition strip_by (space : N -> bool) (s : str) : str :=
  rev (lstrip_by space (rev (lstrip_by space s))).

(** [s.strip()] *)
Definition strip (s : str) : str := strip_by char_isspace s.

(** [s.split()]: the maximal runs of non-whitespace; [word] is the run
    being read. *)
Fixpoint split_runs (s : str) (word : str) : list str :=
  match s with
  | [] => match word with [] => [] | _ => [word] end
  | c :: rest =>
      if char_isspace c
      then match word with
           | [] => split_runs rest []
           | _ => word :: split_runs rest []
           end
      else split_runs rest (word ++ [c])
  end.

Definition split (s : str) : list str := split_runs s [].

(** [s.split(sep, 1)] for a one-character separator: cut at the first
    separator, if there is one. *)
Fixpoint split_once_from (sep : N) (s : str) (before : str) : list str :=
  match s with
  | [] => [before]
  | c :: rest =>
      if N.eqb c sep then [before; rest]
      else split_once_from sep rest (before ++ [c])
  end.

Definition split_once (sep : N) (s : str) : list str :=
  split_once_from sep s [].

(** The whitespace [int] strips: that of [str.isspace] without the four
    separators U+001C..U+001F. *)
Definition int_space (c : N) : bool :=
  char_isspace c && negb (N.leb 28 c && N.leb c 31).

(** Decimal digits, single underscores between them allowed; the value
    read so far, the number of digits, and whether the last character was
    a digit. *)
Fixpoint int_digits (s : str) (value count : Z) (after_digit : bool)
  : option (Z * Z) :=
  match s with
  | [] => if after_digit then Some (value, count) else None
  | c :: rest =>
      if N.eqb c 95
      then (if after_digit then int_digits rest value count false else None)
      else match decimal_value c with
           | Some v => int_digits rest (10 * value + v) (count + 1) true
           | None => None
           end
  end.

Definition int_max_str_digits : Z := 4300.

(** [int(s)] for a string [s]. *)
Definition int (s : str) : result Z :=
  let s := strip_by int_space s in
  let '(negative, body) :=
    match s with
    | c :: rest =>
        if N.eqb c 45 then (true, rest)
        else if N.eqb c 43 then (false, rest)
        else (false, s)
    | [] => (false, s)
    end in
  match int_digits body 0 0 false with
  | Some (value, count) =>
      if int_max_str_digits <? count then Raise (ValueError None)
      else Ok (if negative then - value else value)
  | None => Raise (ValueError None)
  end.

End Text.

(** ** The command handlers *)

Module Shell.

(** What a handler can raise: the exceptions of the classes above, and
    the lookup errors [input_error] also names. *)
Inductive error : Type :=
| Core (e : exn)
| IndexError
| KeyError.

Inductive outcome (A : Type) : Type :=
| Returned (a : A)
| Uncaught (e : error).

Arguments Returned {A} a.
Arguments Uncaught {A} e.

(** A handler works on the book it is given and leaves it in a state,
    whether it returns or raises. *)
Definition handler (A : Type) : Type :=
  AddressBook.t -> outcome A * AddressBook.t.

Definition ret {A : Type} (a : A) : handler A :=
  fun book => (Returned a, book).

Definition raise {A : Type} (e : error) : handler A :=
  fun book => (Uncaught e, book).

Definition hbind {A B : Type} (m : handler A) (k : A -> handler B)
  : handler B :=
  fun book =>
    match m book with
    | (Returned a, book') => k a book'
    | (Uncaught e, book') => (Uncaught e, book')
    end.

Definition lift {A : Type} (r : result A) : handler A :=
  fun book =>
    match r with
    | Ok a => (Returned a, book)
    | Raise e => (Uncaught (Core e), book)
    end.

Definition gets {A : Type} (f : AddressBook.t -> A) : handler A :=
  fun book => (Returned (f book), book).

Definition modify (f : AddressBook.t -> AddressBook.t) : handler unit :=
  fun book => (Returned tt, f book).

(** A method call on the record object that the book holds under [key]:
    the stored record changes, also when the method raises. *)
Definition call_stored {A : Type} (key : str) (record : Record.t)
  (m : Record.method A) : handler A :=
  fun book =>
    let '(r, record') := m record in
    match r with
    | Ok a => (Returned a, AddressBook.setitem key record' book)
    | Raise e => (Uncaught (Core e), AddressBook.setitem key record' book)
    end.

Declare Scope handler_scope.
Delimit Scope handler_scope with handler.
Notation "x <- m ;; k" := (hbind m (fun x => k))
  (at level 61, m at next level, right associativity) : handler_scope.
Notation "' pat <- m ;; k" :=
  (hbind m (fun x => match x with pat => k end))
  (at level 61, pat pattern, m at next level, right associativity)
  : handler_scope.

(** What a handler answers: a text, or the message of an exception that
    the interpreter words. *)
Inductive reply : Type :=
| Text (s : str)
| MessageOf (e : exn).

(** The decorator [input_error]; the two variants differ in the texts
    for [KeyError] and [IndexError]. *)
Definition input_error (key_text index_text : string)
  (func : handler str) : handler reply :=
  fun book =>
    match func book with
    | (Returned s, book') => (Returned (Text s), book')
    | (Uncaught KeyError, book') => (Returned (Text (lit key_text)), book')
    | (Uncaught (Core (ValueError (Some msg))), book') =>
        (Returned (Text (lit msg)), book')
    | (Uncaught (Core (ValueError None)), book') =>
        (Returned (MessageOf (ValueError None)), book')
    | (Uncaught IndexError, book') =>
        (Returned (Text (lit index_text)), book')
    | (Uncaught e, book') => (Uncaught e, book')
    end.

Definition small_number (n : nat) : string :=
  String (ascii_of_nat (48 + n)) EmptyString.

(** The [ValueError] of unpacking [n] values into [k] names and a
    starred rest. *)
Definition not_enough_at_least (k n : nat) : exn :=
  ValueError (Some ("not enough values to unpack (expected at least "
                    ++ small_number k ++ ", got " ++ small_number n
                    ++ ")")%string).

(** The [ValueError]s of unpacking into exactly two names. *)
Definition not_enough_for_two (n : nat) : exn :=
  ValueError (Some ("not enough values to unpack (expected 2, got "
                    ++ small_number n ++ ")")%string).

Definition too_many_for_two : exn :=
  ValueError (Some "too many values to unpack (expected 2)"%string).

(** [a, *_ = args] *)
Definition unpack1 (args : list str) : handler str :=
  match args with
  | a :: _ => ret a
  | [] => raise (Core (not_enough_at_least 1 0))
  end.

(** [a, b, *_ = args] *)
Definition unpack2 (args : list str) : handler (str * str) :=
  match args with
  | a :: b :: _ => ret (a, b)
  | _ => raise (Core (not_enough_at_least 2 (List.length args)))
  end.

(** [a, b, c, *_ = args] *)
Definition unpack3 (args : list str) : handler (str * str * str) :=
  match args with
  | a :: b :: c :: _ => ret (a, b, c)
  | _ => raise (Core (not_enough_at_least 3 (List.length args)))
  end.

(** [a, b = args] *)
Definition unpack_pair (args : list str) : handler (str * str) :=
  match args with
  | [a; b] => ret (a, b)
  | _ :: _ :: _ :: _ => raise (Core too_many_for_two)
  | _ => raise (Core (not_enough_for_two (List.length args)))
  end.

(** [args[0]] *)
Definition first_arg (args : list str) : handler str :=
  match args with
  | a :: _ => ret a
  | [] => raise IndexError
  end.

(** The line of a record in the answer to a birthday query. *)
Definition upcoming_line (libc_pads_year : bool) (record : Record.t) : str :=
  lit "Upcoming birthday: " ++ Name.value (Record.name record)
  ++ lit " on "
  ++ match Record.birthday record with
     | Some b => Strptime.strftime libc_pads_year (Birthday.value b)
     | None => []
     end.

End Shell.

Import Shell.

(** The functions of the second variant, which take the book as an
    argument. *)
Module Task2.

Local Open Scope handler_scope.

Definition decorate : handler str -> handler reply :=
  input_error "Contact not found." "Insufficient arguments provided.".

Definition add_contact_body (args : list str) : handler str :=
  '(name, phone) <- unpack2 args ;;
  found <- gets (AddressBook.find name) ;;
  '(record, message) <-
    match found with
    | Some record => ret (record, lit "Contact updated.")
    | None =>
        record <- lift (Record.init name) ;;
        _ <- modify (AddressBook.add_record record) ;;
        ret (record, lit "Contact added.")
    end ;;
  _ <- match phone with
       | [] => ret tt
       | _ => call_stored name record (Record.add_phone phone)
       end ;;
  ret message.

Definition add_contact (args : list str) : handler reply :=
  decorate (add_contact_body args).

Definition change_contact_body (args : list str) : handler str :=
  '(name, old_phone, new_phone) <- unpack3 args ;;
  found <- gets (AddressBook.find name) ;;
  match found with
  | None => ret (lit "Contact not found.")
  | Some record =>
      _ <- call_stored name record (Record.edit_phone old_phone new_phone) ;;
      ret (lit "Phone number updated.")
  end.

Definition change_contact (args : list str) : handler reply :=
  decorate (change_contact_body args).

Definition show_phone_body (args : list str) : handler str :=
  name <- unpack1 args ;;
  found <- gets (AddressBook.find name) ;;
  match found with
  | None => ret (lit "Contact not found.")
  | Some record =>
      ret (lit "Phones for " ++ name ++ lit ": "
           ++ Record.join (lit ", ")
                (map Phone.value (Record.phones record)))
  end.

Definition show_phone (args : list str) : handler reply :=
  decorate (show_phone_body args).

Definition show_all_contacts_body (libc_pads_year : bool)
  (args : list str) : handler str :=
  values <- gets AddressBook.values ;;
  ret (Record.join [10%N] (map (Record.to_str libc_pads_year) values)).

Definition show_all_contacts (libc_pads_year : bool) (args : list str)
  : handler reply :=
  decorate (show_all_contacts_body libc_pads_year args).

Definition add_birthday_body (args : list str) : handler str :=
  '(name, birthday) <- unpack2 args ;;
  found <- gets (AddressBook.find name) ;;
  match found with
  | None => ret (lit "Contact not found.")
  | Some record =>
      _ <- call_stored name record (Record.add_birthday birthday) ;;
      ret (lit "Birthday added.")
  end.

Definition add_birthday (args : list str) : handler reply :=
  decorate (add_birthday_body args).

Definition show_birthday_body (libc_pads_year : bool) (args : list str)
  : handler str :=
  name <- unpack1 args ;;
  found <- gets (AddressBook.find name) ;;
  match found with
  | None => ret (lit "Contact not found.")
  | Some record =>
      match Record.birthday record with
      | None => ret (lit "No birthday set.")
      | Some b =>
          ret (lit "Birthday for " ++ name ++ lit ": "
               ++ Strptime.strftime libc_pads_year (Birthday.value b))
      end
  end.

Definition show_birthday (libc_pads_year : bool) (args : list str)
  : handler reply :=
  decorate (show_birthday_body libc_pads_year args).

Definition birthdays_body (today : datetime) (libc_pads_year : bool)
  (args : list str) : handler str :=
  text <- first_arg args ;;
  days <- lift (Text.int text) ;;
  book <- gets (fun book => book) ;;
  upcoming_birthdays <-
    lift (AddressBook.get_upcoming_birthdays today days book) ;;
  ret (Record.join [10%N]
         (map (upcoming_line libc_pads_year) upcoming_birthdays)).

Definition birthdays (today : datetime) (libc_pads_year : bool)
  (args : list str) : handler reply :=
  decorate (birthdays_body today libc_pads_year args).

Definition parse_input (user_input : str) : list str :=
  Text.split_once 32 (Text.strip user_input).

(** One turn of the loop of [main] on the line read: what is printed and
    whether the loop goes on.  The line has to unpack into a command and
    the rest. *)
Definition main_turn (today : datetime) (libc_pads_year : bool)
  (user_input : str) : handler (reply * bool) :=
  '(command, args_str) <- unpack_pair (parse_input user_input) ;;
  let args := match args_str with [] => [] | _ => Text.split args_str end in
  let print (h : handler reply) : handler (reply * bool) :=
    r <- h ;; ret (r, true) in
  if str_eqb command (lit "close") || str_eqb command (lit "exit")
  then ret (Text (lit "Good bye!"), false)
  else if str_eqb command (lit "hello")
  then ret (Text (lit "How can I help you?"), true)
  else if str_eqb command (lit "add") then print (add_contact args)
  else if str_eqb command (lit "change") then print (change_contact args)
  else if str_eqb command (lit "phone") then print (show_phone args)
  else if str_eqb command (lit "all")
  then print (show_all_contacts libc_pads_year args)
  else if str_eqb command (lit "add-birthday") then print (add_birthday args)
  else if str_eqb command (lit "show-birthday")
  then print (show_birthday libc_pads_year args)
  else if str_eqb command (lit "birthdays")
  then print (birthdays today libc_pads_year args)
  else ret (Text (lit "Invalid command."), true).

End Task2.

(** The methods of [Bot] in the first variant; the book is [self.book]. *)
Module Bot.

Local Open Scope handler_scope.

Definition decorate : handler str -> handler reply :=
  input_error "Enter user name." "Give me name and phone please.".

Definition add_body (args : list str) : handler str :=
  '(name, phone) <- unpack_pair args ;;
  present <- gets (AddressBook.contains name) ;;
  _ <- (if present
        then
          found <- gets (AddressBook.find name) ;;
          match found with
          | Some record => call_stored name record (Record.add_phone phone)
          | None => ret tt
          end
        else
          record <- lift (Record.init name) ;;
          '(r, record') <- ret (Record.add_phone phone record) ;;
          _ <- lift r ;;
          modify (AddressBook.add_record record')) ;;
  ret (lit "Contact added.").

Definition add (args : list str) : handler reply :=
  decorate (add_body args).

Definition add_birthday_body (args : list str) : handler str :=
  '(name, birthday) <- unpack_pair args ;;
  found <- gets (AddressBook.find name) ;;
  match found with
  | None => ret (lit "Contact not found.")
  | Some record =>
      _ <- call_stored name record (Record.add_birthday birthday) ;;
      ret (lit "Birthday added.")
  end.

Definition add_birthday (args : list str) : handler reply :=
  decorate (add_birthday_body args).

Definition phone_body (args : list str) : handler str :=
  name <- first_arg args ;;
  found <- gets (AddressBook.find name) ;;
  match found with
  | None => ret (lit "Contact not found.")
  | Some record =>
      ret (lit "Phones for " ++ name ++ lit ": "
           ++ Record.join (lit ", ")
                (map Phone.value (Record.phones record)))
  end.

Definition phone (args : list str) : handler reply :=
  decorate (phone_body args).

Definition show_all_body (libc_pads_year : bool) (args : list str)
  : handler str :=
  values <- gets AddressBook.values ;;
  ret (Record.join [10%N] (map (Record.to_str libc_pads_year) values)).

Definition show_all (libc_pads_year : bool) (args : list str)
  : handler reply :=
  decorate (show_all_body libc_pads_year args).

Definition birthday_body (libc_pads_year : bool) (args : list str)
  : handler str :=
  name <- first_arg args ;;
  found <- gets (AddressBook.find name) ;;
  match found with
  | None => ret (lit "Contact not found.")
  | Some record =>
      match Record.birthday record with
      | None => ret (lit "No birthday set.")
      | Some b =>
          ret (lit "Birthday for " ++ name ++ lit ": "
               ++ Strptime.strftime libc_pads_year (Birthday.value b))
      end
  end.

Definition birthday (libc_pads_year : bool) (args : list str)
  : handler reply :=
  decorate (birthday_body libc_pads_year args).

Definition upcoming_birthdays_body (today : datetime)
  (libc_pads_year : bool) (args : list str) : handler str :=
  text <- first_arg args ;;
  days <- lift (Text.int text) ;;
  book <- gets (fun book => book) ;;
  upcoming <- lift (AddressBook.get_upcoming_birthdays today days book) ;;
  ret (Record.join [10%N] (map (upcoming_line libc_pads_year) upcoming)).

Definition upcoming_birthdays (today : datetime) (libc_pads_year : bool)
  (args : list str) : handler reply :=
  decorate (upcoming_birthdays_body today libc_pads_year args).

(** [exit] is not decorated. *)
Definition exit (args : list str) : handler str := ret (lit "Goodbye!").

End Bot.

(** ** Further notions used in the statements *)

(** No name is the key of two entries. *)
Definition unique_keys (book : AddressBook.t) : Prop :=
  NoDup (map fst book).

(** The records of the book that have a birthday. *)
Definition has_birthday (r : Record.t) : bool :=
  match Record.birthday r with
  | Some _ => true
  | None => false
  end.

(** A word that [split] can return: not empty, no whitespace in it. *)
Definition is_word (w : str) : Prop :=
  w <> [] /\ forallb (fun c => negb (Text.char_isspace c)) w = true.
(** ** Strings and phones *)

Lemma str_eqb_eq (a b : str) : str_eqb a b = true <-> a = b.
Proof.
  revert b; induction a as [|x a IH]; intros [|y b]; simpl;
    try (split; congruence).
  rewrite andb_true_iff, N.eqb_eq, IH. split.
  - intros [-> ->]; reflexivity.
  - intros E; injection E; auto.
Qed.

Lemma str_eqb_refl (a : str) : str_eqb a a = true.
Proof. apply str_eqb_eq; reflexivity. Qed.

Lemma str_eqb_neq (a b : str) : str_eqb a b = false <-> a <> b.
Proof.
  rewrite <- str_eqb_eq. destruct (str_eqb a b); split; congruence.
Qed.

Lemma validate_phone_iff (s : str) :
  Phone.validate_phone s = true
  <-> List.length s = 10%nat /\ Forall (fun c => char_isdigit c = true) s.
Proof.
  unfold Phone.validate_phone, isdigit, len.
  rewrite andb_true_iff, Z.eqb_eq. split.
  - intros [D L]. split; [lia|].
    destruct s; [discriminate|]. apply Forall_forall, forallb_forall, D.
  - intros [L F]. split; [|lia].
    destruct s; [discriminate|]. apply forallb_forall, Forall_forall, F.
Qed.

Lemma Phone_init_ok (s : str) :
  Phone.validate_phone s = true -> Phone.init s = Ok (Phone.mk s).
Proof. unfold Phone.init; intros ->; reflexivity. Qed.

Lemma Phone_init_raise (s : str) :
  Phone.validate_phone s = false -> Phone.init s = Raise phone_error.
Proof. unfold Phone.init; intros ->; reflexivity. Qed.

(** Below 128 the digits of [str.isdigit] are the ten ASCII digits. *)
Lemma char_isdigit_ascii (c : N) :
  (c < 128)%N -> char_isdigit c = char_is_ascii_digit c.
Proof.
  intros H. unfold char_isdigit, char_is_ascii_digit, in_ranges, digit_ranges.
  cbn [existsb fst snd].
  destruct (N.leb 48 c) eqn:A, (N.leb c 57) eqn:B; cbn [andb orb];
    try reflexivity;
    repeat match goal with
           | |- context [N.leb ?a c] =>
               replace (N.leb a c) with false by (symmetry; apply N.leb_gt; lia)
           end;
    cbn [andb orb]; try reflexivity.
  all: apply N.leb_gt in A || apply N.leb_gt in B;
       apply N.leb_le in A || apply N.leb_le in B; lia.
Qed.

(** ** Phone lists *)

Section PhoneLists.

Variable phone : str.

Lemma find_has_value (l : list Phone.t) (p : Phone.t) :
  List.find (has_phone_value phone) l = Some p ->
  Phone.value p = phone /\ In p l.
Proof.
  intros H. apply find_some in H. destruct H as [I V].
  apply str_eqb_eq in V. auto.
Qed.

Lemma find_none_occurrences (l : list Phone.t) :
  List.find (has_phone_value phone) l = None
  <-> occurrences phone l = 0%nat.
Proof.
  unfold occurrences. fold (has_phone_value phone).
  induction l as [|q l IH]; simpl; [tauto|].
  destruct (has_phone_value phone q); simpl;
    [split; discriminate | exact IH].
Qed.

(** Removing the phone that [find] returned drops one item, the first
    with that value. *)
Lemma list_remove_found (l : list Phone.t) (p : Phone.t) :
  List.find (has_phone_value phone) l = Some p ->
  exists l', Record.list_remove p l = Ok l'
    /\ S (List.length l') = List.length l
    /\ S (occurrences phone l') = occurrences phone l
    /\ (forall q, In q l' -> In q l).
Proof.
  unfold occurrences. fold (has_phone_value phone). revert p.
  induction l as [|q l IH]; intros p; simpl; [discriminate|].
  unfold Phone.eqb.
  destruct (has_phone_value phone q) eqn:E.
  - intros [= <-]. rewrite str_eqb_refl. exists l. simpl. auto.
  - intros F. pose proof (find_has_value _ _ F) as [V _].
    rewrite V. fold (has_phone_value phone q). rewrite E.
    destruct (IH _ F) as (l' & R & L & O & I).
    exists (q :: l'). rewrite R. simpl. rewrite E.
    repeat split; auto. intros x [->|Hx]; auto.
Qed.

End PhoneLists.

Lemma find_app_last (f : Phone.t -> bool) (l : list Phone.t) (p : Phone.t) :
  f p = true -> exists q, List.find f (l ++ [p]) = Some q /\ f q = true.
Proof.
  intros H. induction l as [|x l IH]; simpl.
  - rewrite H. eauto.
  - destruct (f x) eqn:E; eauto.
Qed.

Lemma occurrences_app (phone : str) (l1 l2 : list Phone.t) :
  occurrences phone (l1 ++ l2)
  = (occurrences phone l1 + occurrences phone l2)%nat.
Proof. unfold occurrences. rewrite filter_app, length_app. reflexivity. Qed.

(** ** What the record methods do *)

Lemma add_phone_ok (phone : str) (self : Record.t) :
  Phone.validate_phone phone = true ->
  Record.add_phone phone self
  = (Ok tt, Record.mk (Record.name self)
                      (Record.phones self ++ [Phone.mk phone])
                      (Record.birthday self)).
Proof.
  intros V. unfold Record.add_phone, Record.mbind, Record.lift.
  rewrite (Phone_init_ok _ V). reflexivity.
Qed.

Lemma add_phone_raise (phone : str) (self : Record.t) :
  Phone.validate_phone phone = false ->
  Record.add_phone phone self = (Raise phone_error, self).
Proof.
  intros V. unfold Record.add_phone, Record.mbind, Record.lift.
  rewrite (Phone_init_raise _ V). reflexivity.
Qed.

Lemma edit_phone_absent (old_phone new_phone : str) (self : Record.t) :
  Record.find_phone old_phone self = None ->
  Record.edit_phone old_phone new_phone self = (Ok tt, self).
Proof.
  intros F. unfold Record.edit_phone, Record.mbind, Record.gets.
  rewrite F. reflexivity.
Qed.

(** With the old phone present, [edit_phone] first stores the list
    without it and only then validates the new one. *)
Lemma edit_phone_present (old_phone new_phone : str) (self : Record.t)
  (p : Phone.t) :
  Record.find_phone old_phone self = Some p ->
  exists l',
    Record.list_remove p (Record.phones self) = Ok l'
    /\ Record.edit_phone old_phone new_phone self
       = Record.add_phone new_phone
           (Record.mk (Record.name self) l' (Record.birthday self)).
Proof.
  intros F. destruct (list_remove_found _ _ _ F) as (l' & R & _).
  exists l'. split; [exact R|].
  unfold Record.edit_phone, Record.mbind at 1, Record.gets at 1.
  rewrite F. unfold Record.mbind at 1, Record.gets at 1.
  unfold Record.mbind at 1, Record.lift at 1. rewrite R.
  reflexivity.
Qed.

Lemma remove_phone_cases (phone : str) (self : Record.t) :
  exists l',
    Record.remove_phone phone self
    = (Ok tt, Record.mk (Record.name self) l' (Record.birthday self))
    /\ (forall q, In q l' -> In q (Record.phones self)).
Proof.
  unfold Record.remove_phone, Record.mbind at 1, Record.gets at 1.
  destruct (Record.find_phone phone self) as [p|] eqn:F.
  - destruct (list_remove_found _ _ _ F) as (l' & R & _ & _ & I).
    exists l'. split; [|exact I].
    unfold Record.mbind, Record.gets, Record.lift. rewrite R. reflexivity.
  - exists (Record.phones self). split; [|auto].
    destruct self; reflexivity.
Qed.

Lemma add_birthday_cases (birthday : str) (self : Record.t) :
  (exists e, Record.add_birthday birthday self = (Raise e, self))
  \/ (exists d, Strptime.strptime birthday = Ok d
        /\ Record.add_birthday birthday self
           = (Ok tt, Record.mk (Record.name self) (Record.phones self)
                               (Some (Birthday.mk d)))).
Proof.
  unfold Record.add_birthday, Record.mbind, Record.lift, Birthday.init.
  destruct (Strptime.strptime birthday) as [d|[m|]]; eauto.
Qed.

(** Whatever the call and whether it raises, the record keeps its name,
    every phone then in the list was there before or is a validated new
    one, and the birthday is the old one or a freshly parsed one. *)
Lemma run_call_frame (c : call) (self : Record.t) :
  exists l' b',
    snd (run_call c self) = Record.mk (Record.name self) l' b'
    /\ (forall q, In q l' ->
          In q (Record.phones self)
          \/ Phone.validate_phone (Phone.value q) = true)
    /\ (b' = Record.birthday self
        \/ exists s d, Strptime.strptime s = Ok d /\ b' = Some (Birthday.mk d)).
Proof.
  destruct c as [phone|phone|old_phone new_phone|birthday]; simpl.
  - destruct (Phone.validate_phone phone) eqn:V.
    + rewrite (add_phone_ok _ _ V). simpl. do 2 eexists.
      split; [reflexivity|]. split; [|auto].
      intros q I. apply in_app_or in I.
      destruct I as [I|[<-|[]]]; [left|right]; assumption.
    + rewrite (add_phone_raise _ _ V). simpl.
      exists (Record.phones self), (Record.birthday self).
      destruct self; simpl; auto.
  - destruct (remove_phone_cases phone self) as (l' & E & I).
    rewrite E. simpl. exists l', (Record.birthday self).
    split; [reflexivity|]. split; [intros q Hq; left; auto | auto].
  - destruct (Record.find_phone old_phone self) as [p|] eqn:F.
    + destruct (edit_phone_present _ new_phone _ _ F) as (l' & R & E).
      destruct (list_remove_found _ _ _ F) as (l2 & R2 & _ & _ & I).
      rewrite R in R2. injection R2 as <-. rewrite E.
      destruct (Phone.validate_phone new_phone) eqn:V.
      * rewrite (add_phone_ok _ _ V). simpl. do 2 eexists.
        split; [reflexivity|]. split; [|auto].
        intros q Hq. apply in_app_or in Hq.
        destruct Hq as [Hq|[<-|[]]]; [left; auto|right; assumption].
      * rewrite (add_phone_raise _ _ V). simpl. do 2 eexists.
        split; [reflexivity|]. auto.
    + rewrite (edit_phone_absent _ _ _ F). simpl.
      exists (Record.phones self), (Record.birthday self).
      destruct self; simpl; auto.
  - destruct (add_birthday_cases birthday self) as [[e E]|(d & P & E)];
      rewrite E; simpl.
    + exists (Record.phones self), (Record.birthday self).
      destruct self; simpl; auto.
    + do 2 eexists. split; [reflexivity|]. split; [auto|]. right. eauto.
Qed.

Lemma run_call_name (c : call) (self : Record.t) :
  Record.name (snd (run_call c self)) = Record.name self.
Proof.
  destruct (run_call_frame c self) as (l' & b' & E & _). rewrite E.
  reflexivity.
Qed.

Lemma run_calls_name (cs : list call) (self : Record.t) :
  Record.name (run_calls cs self) = Record.name self.
Proof.
  revert self; induction cs as [|c cs IH]; intros self; simpl; auto.
  rewrite IH. apply run_call_name.
Qed.

Lemma run_calls_phones (cs : list call) (self : Record.t) :
  Forall (fun q => Phone.validate_phone (Phone.value q) = true)
         (Record.phones self) ->
  Forall (fun q => Phone.validate_phone (Phone.value q) = true)
         (Record.phones (run_calls cs self)).
Proof.
  revert self; induction cs as [|c cs IH]; intros self H; simpl; auto.
  apply IH. destruct (run_call_frame c self) as (l' & b' & E & I & _).
  rewrite E. simpl. apply Forall_forall. intros q Hq.
  destruct (I q Hq) as [Hin|V]; auto.
  rewrite Forall_forall in H. auto.
Qed.

Lemma Record_init_inv (name : str) (r : Record.t) :
  Record.init name = Ok r ->
  name <> [] /\ r = Record.mk (Name.mk name) [] None.
Proof.
  unfold Record.init, Name.init. destruct name; simpl; [discriminate|].
  intros [= <-]. split; [discriminate | reflexivity].
Qed.

Lemma constructed_name (r : Record.t) :
  constructed r -> Name.value (Record.name r) <> [].
Proof.
  intros (name & r0 & cs & I & ->). rewrite run_calls_name.
  apply Record_init_inv in I. destruct I as [N ->]. exact N.
Qed.

Lemma constructed_call (c : call) (r : Record.t) :
  constructed r -> constructed (snd (run_call c r)).
Proof.
  intros (name & r0 & cs & I & ->). exists name, r0, (cs ++ [c]).
  split; [exact I|]. clear I. revert r0.
  induction cs as [|x cs IH]; intros r0; simpl; auto.
Qed.

(** ** Phone validation *)

(** C4, as stated, fails: a string of ten superscript twos is accepted by
    [Phone], although none of its characters is a decimal digit (neither
    one of [0]..[9] nor a character of category [Nd]). *)
Lemma Phone_init_accepts_superscript_twos :
  Phone.init Sample.superscript_twos = Ok (Phone.mk Sample.superscript_twos)
  /\ len Sample.superscript_twos = 10
  /\ existsb char_is_ascii_digit Sample.superscript_twos = false
  /\ existsb char_isdecimal Sample.superscript_twos = false.
Proof. repeat split; vm_compute; reflexivity. Qed.

(** C4, amended: constructing a [Phone] from [s] raises the [ValueError]
    exactly when [s] is not made of ten characters that [str.isdigit]
    accepts; otherwise it succeeds and stores [s] unchanged.  For a string
    of ASCII characters that is: exactly when [s] is not made of ten of the
    digits [0]..[9]. *)
Theorem Phone_init_iff_ten_digit_characters (s : str) :
  (Phone.init s = Raise phone_error
   <-> ~ (len s = 10 /\ Forall (fun c => char_isdigit c = true) s))
  /\ (Phone.init s = Ok (Phone.mk s)
      <-> len s = 10 /\ Forall (fun c => char_isdigit c = true) s)
  /\ (Forall (fun c => (c < 128)%N) s ->
      (Phone.init s = Raise phone_error
       <-> ~ (len s = 10
              /\ Forall (fun c => char_is_ascii_digit c = true) s))).
Proof.
  assert (L : len s = 10 <-> List.length s = 10%nat) by (unfold len; lia).
  assert (A : Forall (fun c => (c < 128)%N) s ->
              (Forall (fun c => char_is_ascii_digit c = true) s
               <-> Forall (fun c => char_isdigit c = true) s)).
  { intros B. rewrite !Forall_forall in *. split; intros H c Hc.
    - rewrite char_isdigit_ascii; auto.
    - rewrite <- char_isdigit_ascii; auto. }
  rewrite L, <- validate_phone_iff.
  destruct (Phone.validate_phone s) eqn:V.
  - rewrite (Phone_init_ok _ V). split; [|split].
    + split; [discriminate | intros N; exfalso; auto].
    + tauto.
    + intros B. rewrite (A B), <- validate_phone_iff, V.
      split; [discriminate | intros N; exfalso; auto].
  - rewrite (Phone_init_raise _ V). split; [|split].
    + split; [discriminate | reflexivity].
    + split; discriminate.
    + intros B. rewrite (A B), <- validate_phone_iff, V.
      split; [discriminate | reflexivity].
Qed.

Lemma Phone_init_iff_ten_digit_characters_witness :
  Forall (fun c => (c < 128)%N) (lit "12345")
  /\ Phone.init (lit "12345") = Raise phone_error.
Proof.
  assert (F : Forall (fun c => (c < 128)%N) (lit "12345"))
    by (repeat constructor).
  split; [exact F|].
  apply (proj2 (proj2 (Phone_init_iff_ten_digit_characters (lit "12345"))) F).
  intros [L _]. vm_compute in L. discriminate.
Defined.

(** ** Editing a phone *)

(** The sibling paths: a failing [add_phone] or [add_birthday] leaves the
    record as it was, and a failing [Record(name)] makes no record. *)
Lemma failing_construction_changes_nothing (text : str) (self : Record.t) :
  (raises (fst (Record.add_phone text self)) = true ->
   snd (Record.add_phone text self) = self)
  /\ (raises (fst (Record.add_birthday text self)) = true ->
      snd (Record.add_birthday text self) = self).
Proof.
  split.
  - destruct (Phone.validate_phone text) eqn:V.
    + rewrite (add_phone_ok _ _ V). discriminate.
    + rewrite (add_phone_raise _ _ V). reflexivity.
  - destruct (add_birthday_cases text self) as [[e E]|(d & _ & E)];
      rewrite E; [reflexivity | discriminate].
Qed.

(** C2: [edit_phone(old, new)] with [old] present and [new] not a valid
    phone raises, and the record it leaves behind has lost the old phone:
    the list is one item shorter.  Name and birthday are untouched. *)
Theorem edit_phone_invalid_new_loses_old
  (old_phone new_phone : str) (self : Record.t) (p : Phone.t) :
  Record.find_phone old_phone self = Some p ->
  Phone.validate_phone new_phone = false ->
  exists l',
    Record.edit_phone old_phone new_phone self
    = (Raise phone_error,
       Record.mk (Record.name self) l' (Record.birthday self))
    /\ Record.list_remove p (Record.phones self) = Ok l'
    /\ S (List.length l') = List.length (Record.phones self).
Proof.
  intros F V.
  destruct (edit_phone_present _ new_phone _ _ F) as (l' & R & E).
  destruct (list_remove_found _ _ _ F) as (l2 & R2 & L & _).
  rewrite R in R2. injection R2 as <-.
  exists l'. rewrite E, (add_phone_raise _ _ V). auto.
Qed.

Lemma edit_phone_invalid_new_loses_old_witness :
  Record.edit_phone Sample.phone_a (lit "123") Sample.john_one_phone
  = (Raise phone_error, Sample.john).
Proof.
  destruct (edit_phone_invalid_new_loses_old
              Sample.phone_a (lit "123") Sample.john_one_phone
              (Phone.mk Sample.phone_a) eq_refl eq_refl)
    as (l' & E & R & _).
  vm_compute in R. injection R as <-. exact E.
Defined.

(** C3, as stated, fails: the list may hold the old number twice;
    [edit_phone] succeeds and [find_phone(old)] still returns a phone. *)
Lemma edit_phone_keeps_second_copy_of_old :
  Record.find_phone Sample.phone_a Sample.john_same_phone_twice
  = Some (Phone.mk Sample.phone_a)
  /\ Phone.validate_phone Sample.phone_b = true
  /\ fst (Record.edit_phone Sample.phone_a Sample.phone_b
            Sample.john_same_phone_twice) = Ok tt
  /\ Record.find_phone Sample.phone_a
       (snd (Record.edit_phone Sample.phone_a Sample.phone_b
               Sample.john_same_phone_twice))
     = Some (Phone.mk Sample.phone_a).
Proof. repeat split; vm_compute; reflexivity. Qed.

(** C3, amended: when a phone with value [old] is in the list and [new] is
    valid, [edit_phone(old, new)] returns, the list keeps its length,
    [find_phone(new)] returns a phone with value [new], and
    [find_phone(old)] returns nothing exactly when [old] was in the list
    once and [new] differs from it.  When no phone has value [old], the
    record is unchanged and nothing is raised. *)
Theorem edit_phone_effect (old_phone new_phone : str) (self : Record.t) :
  (Record.find_phone old_phone self <> None ->
   Phone.validate_phone new_phone = true ->
   exists self',
     Record.edit_phone old_phone new_phone self = (Ok tt, self')
     /\ List.length (Record.phones self')
        = List.length (Record.phones self)
     /\ (exists q, Record.find_phone new_phone self' = Some q
                   /\ Phone.value q = new_phone)
     /\ (Record.find_phone old_phone self' = None
         <-> occurrences old_phone (Record.phones self) = 1%nat
             /\ old_phone <> new_phone)
     /\ Record.name self' = Record.name self
     /\ Record.birthday self' = Record.birthday self)
  /\ (Record.find_phone old_phone self = None ->
      Record.edit_phone old_phone new_phone self = (Ok tt, self)).
Proof.
  split; [|apply edit_phone_absent].
  intros F V. destruct (Record.find_phone old_phone self) as [p|] eqn:Fp;
    [clear F|congruence].
  destruct (edit_phone_present _ new_phone _ _ Fp) as (l' & R & E).
  destruct (list_remove_found _ _ _ Fp) as (l2 & R2 & L & O & _).
  rewrite R in R2. injection R2 as <-.
  rewrite E, (add_phone_ok _ _ V). eexists. split; [reflexivity|]. simpl.
  split; [rewrite length_app; simpl; lia|].
  split.
  { destruct (find_app_last (fun q => str_eqb (Phone.value q) new_phone)
                l' (Phone.mk new_phone) (str_eqb_refl _)) as (q & Fq & Vq).
    exists q. split; [exact Fq|]. apply str_eqb_eq, Vq. }
  split; [|auto].
  unfold Record.find_phone. simpl.
  change (fun p0 : Phone.t => str_eqb (Phone.value p0) old_phone)
    with (has_phone_value old_phone).
  rewrite find_none_occurrences, occurrences_app.
  unfold occurrences at 2. simpl.
  destruct (str_eqb new_phone old_phone) eqn:Q; simpl.
  - apply str_eqb_eq in Q. split; [lia|]. intros [_ N]. congruence.
  - apply str_eqb_neq in Q. split; [intros; split; [lia|congruence] | lia].
Qed.

Lemma edit_phone_effect_witness :
  exists self',
    Record.edit_phone Sample.phone_a Sample.phone_b Sample.john_one_phone
    = (Ok tt, self')
    /\ Record.find_phone Sample.phone_a self' = None.
Proof.
  destruct (proj1 (edit_phone_effect Sample.phone_a Sample.phone_b
                     Sample.john_one_phone))
    as (self' & E & _ & _ & O & _).
  - vm_compute. discriminate.
  - vm_compute. reflexivity.
  - exists self'. split; [exact E|]. apply O. split.
    + vm_compute. reflexivity.
    + vm_compute. discriminate.
Defined.

(** ** Invariants of records and books *)

(** C10, as stated, fails: after [add_phone] with ten superscript twos the
    list holds a phone none of whose characters is a decimal digit. *)
Lemma add_phone_stores_superscript_twos :
  Record.init (lit "John") = Ok Sample.john
  /\ Record.phones (run_calls [AddPhone Sample.superscript_twos] Sample.john)
     = [Phone.mk Sample.superscript_twos]
  /\ existsb char_is_ascii_digit Sample.superscript_twos = false
  /\ existsb char_isdecimal Sample.superscript_twos = false.
Proof. repeat split; vm_compute; reflexivity. Qed.

(** C10, amended: in every record reached from [Record(name)] by calls of
    [add_phone], [remove_phone], [edit_phone] (and [add_birthday]), raising
    or not, every phone of the list has a value of exactly ten characters,
    each one a digit for [str.isdigit]. *)
Theorem stored_phones_are_validated
  (name : str) (r : Record.t) (cs : list call) :
  Record.init name = Ok r ->
  Forall valid_phone (Record.phones (run_calls cs r)).
Proof.
  intros I. apply Record_init_inv in I. destruct I as [_ ->].
  assert (H : Forall (fun q => Phone.validate_phone (Phone.value q) = true)
                (Record.phones
                   (run_calls cs (Record.mk (Name.mk name) [] None)))).
  { apply run_calls_phones. constructor. }
  rewrite Forall_forall in *. intros q Hq.
  apply validate_phone_iff, H, Hq.
Qed.

Lemma stored_phones_are_validated_witness :
  Forall valid_phone
    (Record.phones
       (run_calls [AddPhone Sample.phone_a; AddPhone (lit "12");
                   EditPhone Sample.phone_a (lit "x");
                   AddPhone Sample.phone_b]
          Sample.john)).
Proof.
  apply (stored_phones_are_validated (lit "John")). reflexivity.
Defined.

Lemma setitem_in (key : str) (r : Record.t) (book : AddressBook.t)
  (k : str) (v : Record.t) :
  In (k, v) (AddressBook.setitem key r book) ->
  In (k, v) book \/ (k = key /\ v = r).
Proof.
  induction book as [|[k0 v0] book IH]; simpl.
  - intros [[= <- <-]|[]]. auto.
  - destruct (str_eqb k0 key) eqn:E; simpl.
    + apply str_eqb_eq in E. intros [[= <- <-]|H]; auto.
    + intros [H|H]; auto. destruct (IH H); auto.
Qed.

Lemma delitem_in (key : str) (book : AddressBook.t) (k : str) (v : Record.t) :
  In (k, v) (AddressBook.delitem key book) -> In (k, v) book.
Proof.
  induction book as [|[k0 v0] book IH]; simpl; auto.
  destruct (str_eqb k0 key); simpl; intuition.
Qed.

Lemma find_in (name : str) (book : AddressBook.t) (r : Record.t) :
  AddressBook.find name book = Some r -> In (name, r) book.
Proof.
  unfold AddressBook.find.
  destruct (List.find _ book) as [[k v]|] eqn:F; [|discriminate].
  intros [= <-]. apply find_some in F. destruct F as [I E].
  apply str_eqb_eq in E. simpl in *. subst. exact I.
Qed.

Lemma add_record_keyed (r : Record.t) (book : AddressBook.t) :
  keyed_by_name book -> Name.value (Record.name r) <> [] ->
  keyed_by_name (AddressBook.add_record r book).
Proof.
  intros K N k v H. apply setitem_in in H.
  destruct H as [H|[-> ->]]; auto.
Qed.

Lemma delete_keyed (name : str) (book : AddressBook.t) :
  keyed_by_name book -> keyed_by_name (AddressBook.delete name book).
Proof.
  intros K k v H. unfold AddressBook.delete in H.
  destruct (AddressBook.contains name book); auto.
  apply delitem_in in H. auto.
Qed.

(** C9: in every book reached from the empty one by [add_record] and
    [delete] (and by calls on the records stored in it), every key is a
    non-empty string and is the name of the record it maps to; [add_record]
    of a record built by [Record(name)] and [delete] preserve this. *)
Theorem book_keys_are_record_names :
  (forall book, reachable book -> keyed_by_name book)
  /\ (forall book r, keyed_by_name book -> constructed r ->
        keyed_by_name (AddressBook.add_record r book))
  /\ (forall book name, keyed_by_name book ->
        keyed_by_name (AddressBook.delete name book)).
Proof.
  split; [|split].
  - induction 1 as [|book r _ IH C|book name _ IH|book name r c _ IH F].
    + intros k v [].
    + apply add_record_keyed; [exact IH | apply constructed_name, C].
    + apply delete_keyed, IH.
    + intros k v H. apply setitem_in in H. destruct H as [H|[-> ->]]; auto.
      rewrite run_call_name. apply IH, find_in, F.
  - intros book r K C. apply add_record_keyed; [exact K|].
    apply constructed_name, C.
  - intros book name K. apply delete_keyed, K.
Qed.

Lemma constructed_john_one_phone :
  constructed (run_calls [AddPhone Sample.phone_a] Sample.john).
Proof. exists (lit "John"), Sample.john, [AddPhone Sample.phone_a]. auto. Defined.

Lemma book_keys_are_record_names_witness :
  keyed_by_name
    (AddressBook.delete (lit "Jane")
       (AddressBook.add_record
          (run_calls [AddPhone Sample.phone_a] Sample.john)
          AddressBook.empty)).
Proof.
  apply (proj1 book_keys_are_record_names).
  apply reach_delete, reach_add_record;
    [apply reach_empty | apply constructed_john_one_phone].
Defined.

(** ** Calendar arithmetic *)

Lemma divmod_eq (n k q r : Z) :
  0 <= r < k -> n = k * q + r -> n / k = q /\ n mod k = r.
Proof.
  intros B E. split; symmetry.
  - apply (Z.div_unique n k q r); [left; exact B | exact E].
  - apply (Z.mod_unique n k q r); [left; exact B | exact E].
Qed.

Lemma year_split (y o : Z) :
  1 <= y -> 0 <= o < 365 + Z.b2z (is_leap y) ->
  let n := days_before_year y + o in
  let n400 := n / DI400Y in
  let r400 := n mod DI400Y in
  let n100 := r400 / DI100Y in
  let r100 := r400 mod DI100Y in
  let n4 := r100 / DI4Y in
  let r4 := r100 mod DI4Y in
  let n1 := r4 / 365 in
  let r1 := r4 mod 365 in
  let y' := n400 * 400 + 1 + (n100 * 100 + n4 * 4 + n1) in
  (o = 365 -> ((n1 =? 4) || (n100 =? 4) = true) /\ y' - 1 = y)
  /\ (o < 365 -> ((n1 =? 4) || (n100 =? 4) = false) /\ y' = y /\ r1 = o
       /\ ((n1 =? 3) && (negb (n4 =? 24) || (n100 =? 3))) = is_leap y).
Proof.
  intros Hy Ho. unfold days_before_year, DI400Y, DI100Y, DI4Y. cbv zeta.
  unfold is_leap in *.
  remember (y - 1) as Y eqn:EY.
  assert (y = Y + 1) by lia. subst y. clear EY.
  pose proof (Z.div_mod Y 400 ltac:(lia)) as E400.
  pose proof (Z.mod_pos_bound Y 400 ltac:(lia)) as B400.
  remember (Y / 400) as a. remember (Y mod 400) as ra.
  pose proof (Z.div_mod ra 100 ltac:(lia)) as E100.
  pose proof (Z.mod_pos_bound ra 100 ltac:(lia)) as B100.
  remember (ra / 100) as b. remember (ra mod 100) as rb.
  pose proof (Z.div_mod rb 4 ltac:(lia)) as E4.
  pose proof (Z.mod_pos_bound rb 4 ltac:(lia)) as B4.
  remember (rb / 4) as c. remember (rb mod 4) as e.
  assert (Hb : 0 <= b < 4) by lia.
  assert (Hc : 0 <= c < 25) by lia.
  assert (Ha : 0 <= a) by lia.
  assert (Y4 : Y / 4 = 100 * a + 25 * b + c).
  { symmetry. apply (Z.div_unique Y 4 _ e); lia. }
  assert (Y100 : Y / 100 = 4 * a + b).
  { symmetry. apply (Z.div_unique Y 100 _ rb); lia. }
  assert (M4 : (Y + 1) mod 4 = (e + 1) mod 4).
  { replace (Y + 1) with ((e + 1) + (100 * a + 25 * b + c) * 4) by lia.
    apply Z.mod_add. lia. }
  assert (M100 : (Y + 1) mod 100 = (rb + 1) mod 100).
  { replace (Y + 1) with ((rb + 1) + (4 * a + b) * 100) by lia.
    apply Z.mod_add. lia. }
  assert (M400 : (Y + 1) mod 400 = (ra + 1) mod 400).
  { replace (Y + 1) with ((ra + 1) + a * 400) by lia.
    apply Z.mod_add. lia. }
  rewrite M4, M100, M400 in Ho. rewrite M4, M100, M400.
  rewrite Y4, Y100.
  replace (Y * 365 + (100 * a + 25 * b + c) - (4 * a + b) + a + o)
    with (146097 * a + 36524 * b + 1461 * c + 365 * e + o) by lia.
  clear Y4 Y100 M4 M100 M400.
  assert (H4 : ((e + 1) mod 4 =? 0) = (e =? 3)).
  { destruct (Z.eqb_spec e 3) as [->|N]; [reflexivity|].
    rewrite Z.mod_small by lia. apply Z.eqb_neq. lia. }
  assert (H100 : ((rb + 1) mod 100 =? 0) = (rb =? 99)).
  { destruct (Z.eqb_spec rb 99) as [->|N]; [reflexivity|].
    rewrite Z.mod_small by lia. apply Z.eqb_neq. lia. }
  assert (H400 : ((ra + 1) mod 400 =? 0) = (ra =? 399)).
  { destruct (Z.eqb_spec ra 399) as [->|N]; [reflexivity|].
    rewrite Z.mod_small by lia. apply Z.eqb_neq. lia. }
  rewrite H4, H100, H400 in *. clear H4 H100 H400.
  set (n := 146097 * a + 36524 * b + 1461 * c + 365 * e + o).
  assert (Q400 : n / 146097 = a /\ n mod 146097 = n - 146097 * a).
  { assert (n / 146097 = a).
    { symmetry. apply (Z.div_unique n 146097 a (n - 146097 * a)).
      - left. subst n. destruct (Z.eqb_spec e 3), (Z.eqb_spec rb 99),
          (Z.eqb_spec ra 399); simpl in Ho; lia.
      - lia. }
    split; [assumption|]. rewrite Z.mod_eq by lia. lia. }
  destruct Q400 as [-> ->].
  replace (n - 146097 * a) with (36524 * b + 1461 * c + 365 * e + o)
    by (subst n; lia).
  clear n Heqa Heqra Heqb Heqrb Heqc Heqe.
  assert (Ho2 : o <= 365 /\ (o = 365 -> e = 3 /\ (rb = 99 -> ra = 399))).
  { destruct (Z.eqb_spec e 3), (Z.eqb_spec rb 99), (Z.eqb_spec ra 399);
      cbn [Z.b2z andb orb negb] in Ho; lia. }
  destruct (Z.eq_dec (1461 * c + 365 * e + o) 36524) as [EQ|NE].
  - assert (c = 24 /\ e = 3 /\ o = 365 /\ b = 3) as (-> & -> & -> & ->) by lia.
    change (36524 * 3 + 1461 * 24 + 365 * 3 + 365) with 146096.
    change (146096 / 36524) with 4. change (146096 mod 36524) with 0.
    change (0 mod 1461) with 0. change (0 / 1461) with 0.
    change (0 / 365) with 0.
    split; [intros _; split; [reflexivity | lia] | lia].
  - destruct (divmod_eq (36524 * b + 1461 * c + 365 * e + o) 36524 b
                (1461 * c + 365 * e + o)) as [-> ->]; [lia | lia |].
    destruct (divmod_eq (1461 * c + 365 * e + o) 1461 c (365 * e + o))
      as [-> ->]; [lia | lia |].
    split; intros Ho'.
    + destruct (divmod_eq (365 * e + o) 365 (e + 1) 0) as [-> _];
        [lia | lia |].
      destruct Ho2 as (_ & Ho2). destruct (Ho2 Ho') as (-> & _).
      split; [reflexivity | lia].
    + destruct (divmod_eq (365 * e + o) 365 e o) as [-> ->]; [lia | lia |].
      destruct (Z.eqb_spec e 4); [lia|].
      destruct (Z.eqb_spec b 4); [lia|].
      split; [reflexivity|]. split; [lia|]. split; [reflexivity|].
      destruct (Z.eqb_spec e 3), (Z.eqb_spec c 24), (Z.eqb_spec b 3),
        (Z.eqb_spec rb 99), (Z.eqb_spec ra 399);
        cbn [andb orb negb]; try reflexivity; lia.
Qed.

Lemma zrange_forallb (P : Z -> bool) (lo : Z) (n : nat) :
  forallb P (zrange lo n) = true ->
  forall z, lo <= z < lo + Z.of_nat n -> P z = true.
Proof.
  intros H z Hz. rewrite forallb_forall in H. apply H.
  unfold zrange. apply in_map_iff. exists (Z.to_nat (z - lo)).
  split; [lia|]. apply in_seq. lia.
Qed.

Lemma month_table_checked (leapyear : bool) (m d : Z) :
  1 <= m <= 12 -> 1 <= d <= 31 -> month_table_ok leapyear m d = true.
Proof.
  intros Hm Hd.
  assert (C : forallb (fun l => forallb (fun m => forallb (month_table_ok l m)
                (zrange 1 31)) (zrange 1 12)) [true; false] = true)
    by (vm_compute; reflexivity).
  rewrite forallb_forall in C.
  assert (L : In leapyear [true; false]) by (destruct leapyear; simpl; auto).
  apply (zrange_forallb _ 1 31); [|lia].
  apply (zrange_forallb (fun m => forallb (month_table_ok leapyear m)
                                    (zrange 1 31)) 1 12); [|lia].
  apply (C leapyear L).
Qed.

Lemma month_length_le_31 (leapyear : bool) (m : Z) :
  1 <= m <= 12 -> month_length leapyear m <= 31.
Proof.
  intros Hm.
  assert (C : forallb (fun l => forallb (fun m => month_length l m <=? 31)
                (zrange 1 12)) [true; false] = true)
    by (vm_compute; reflexivity).
  rewrite forallb_forall in C.
  assert (L : In leapyear [true; false]) by (destruct leapyear; simpl; auto).
  apply Z.leb_le.
  apply (zrange_forallb (fun m => month_length leapyear m <=? 31) 1 12);
    [|lia].
  apply (C leapyear L).
Qed.

(** A day of a month, read back from its offset in the year. *)
Lemma month_split (leapyear : bool) (m d : Z) :
  1 <= m <= 12 -> 1 <= d <= month_length leapyear m ->
  let n := day_offset leapyear m d in
  0 <= n < 365 + Z.b2z leapyear
  /\ (n = 365 -> m = 12 /\ d = 31)
  /\ (n <> 365 -> month_and_day leapyear n = (m, d)).
Proof.
  intros Hm Hd. cbv zeta.
  pose proof (month_length_le_31 leapyear m Hm) as L31.
  pose proof (month_table_checked leapyear m d Hm ltac:(lia)) as C.
  unfold month_table_ok in C.
  replace (d <=? month_length leapyear m) with true in C
    by (symmetry; apply Z.leb_le; lia).
  cbn [implb] in C. cbv zeta in C.
  apply andb_prop in C. destruct C as [C C3].
  apply andb_prop in C. destruct C as [C C2].
  apply andb_prop in C. destruct C as [C0 C1].
  apply Z.leb_le in C0. apply Z.ltb_lt in C1.
  split; [lia|]. split.
  - intros E. rewrite E in C3. cbn [Z.eqb Pos.eqb implb] in C3.
    change (365 =? 365) with true in C3. cbn [implb] in C3.
    apply andb_prop in C3. destruct C3 as [A B].
    apply Z.eqb_eq in A, B. auto.
  - intros N. apply Z.eqb_neq in N. rewrite N in C2. cbn [orb] in C2.
    destruct (month_and_day leapyear (day_offset leapyear m d)) as [m' d'].
    apply andb_prop in C2. destruct C2 as [A B].
    apply Z.eqb_eq in A, B. congruence.
Qed.

Lemma ord2ymd_month_and_day (n : Z) :
  ord2ymd n =
  let n := n - 1 in
  let n400 := n / DI400Y in
  let r400 := n mod DI400Y in
  let n100 := r400 / DI100Y in
  let r100 := r400 mod DI100Y in
  let n4 := r100 / DI4Y in
  let r4 := r100 mod DI4Y in
  let n1 := r4 / 365 in
  let r1 := r4 mod 365 in
  let y := n400 * 400 + 1 + (n100 * 100 + n4 * 4 + n1) in
  if (n1 =? 4) || (n100 =? 4) then (y - 1, 12, 31)
  else
    let '(m, d) :=
      month_and_day ((n1 =? 3) && (negb (n4 =? 24) || (n100 =? 3))) r1 in
    (y, m, d).
Proof.
  unfold ord2ymd, month_and_day. cbv zeta.
  destruct (_ || _); [reflexivity|].
  match goal with |- context [if ?c then _ else _] => destruct c end;
    reflexivity.
Qed.

Lemma days_in_month_length (y m : Z) :
  days_in_month y m = month_length (is_leap y) m.
Proof. reflexivity. Qed.

(** [date.fromordinal(d.toordinal()) == d] *)
Lemma ord2ymd_ymd2ord (y m d : Z) :
  1 <= y -> 1 <= m <= 12 -> 1 <= d <= days_in_month y m ->
  ord2ymd (ymd2ord y m d) = (y, m, d).
Proof.
  intros Hy Hm Hd. rewrite days_in_month_length in Hd.
  destruct (month_split (is_leap y) m d Hm Hd) as (B & L & M).
  cbv zeta in B, L, M.
  rewrite ord2ymd_month_and_day. cbv zeta.
  replace (ymd2ord y m d - 1)
    with (days_before_year y + day_offset (is_leap y) m d)
    by (unfold ymd2ord, days_before_month, day_offset; lia).
  pose proof (year_split y (day_offset (is_leap y) m d) Hy B) as S.
  cbv zeta in S. destruct S as [S1 S2].
  destruct (Z.eq_dec (day_offset (is_leap y) m d) 365) as [E|N].
  - destruct (S1 E) as [-> Y]. destruct (L E) as [-> ->].
    f_equal. f_equal. exact Y.
  - assert (Z.b2z (is_leap y) <= 1) by (destruct (is_leap y); cbn; lia).
    destruct (S2 ltac:(lia)) as (-> & -> & -> & ->).
    rewrite (M N). reflexivity.
Qed.

Lemma days_before_year_succ (y : Z) :
  days_before_year (y + 1) = days_before_year y + 365 + Z.b2z (is_leap y).
Proof.
  unfold days_before_year, is_leap.
  replace (y + 1 - 1) with (y - 1 + 1) by lia.
  remember (y - 1) as Y. replace y with (Y + 1) by lia. clear HeqY y.
  destruct (Z.eqb_spec ((Y + 1) mod 4) 0), (Z.eqb_spec ((Y + 1) mod 100) 0),
    (Z.eqb_spec ((Y + 1) mod 400) 0); cbn [andb orb negb Z.b2z];
    Z.div_mod_to_equations; lia.
Qed.

Lemma days_before_year_mono (y1 y2 : Z) :
  y1 <= y2 -> days_before_year y1 <= days_before_year y2.
Proof.
  intros H. unfold days_before_year. Z.div_mod_to_equations. lia.
Qed.

Lemma ymd2ord_bounds (y m d : Z) :
  1 <= y <= 9999 -> 1 <= m <= 12 -> 1 <= d <= days_in_month y m ->
  1 <= ymd2ord y m d <= MAXORDINAL.
Proof.
  intros Hy Hm Hd. rewrite days_in_month_length in Hd.
  destruct (month_split (is_leap y) m d Hm Hd) as (B & _).
  cbv zeta in B. unfold day_offset in B.
  pose proof (days_before_year_succ y) as S.
  pose proof (days_before_year_mono 1 y ltac:(lia)) as M1.
  pose proof (days_before_year_mono (y + 1) 10000 ltac:(lia)) as M2.
  change (days_before_year 1) with 0 in M1.
  change (days_before_year 10000) with 3652059 in M2.
  assert (Z.b2z (is_leap y) <= 1) by (destruct (is_leap y); cbn; lia).
  unfold ymd2ord, days_before_month, MAXORDINAL. lia.
Qed.

(** ** Datetime objects *)

Lemma valid_fields (dt : datetime) :
  valid dt ->
  (1 <= year dt <= 9999 /\ 1 <= month dt <= 12
   /\ 1 <= day dt <= days_in_month (year dt) (month dt))
  /\ (0 <= hour dt <= 23 /\ 0 <= minute dt <= 59 /\ 0 <= second dt <= 59
      /\ 0 <= microsecond dt <= 999999).
Proof.
  unfold valid, Datetime.new, check_date_fields, check_time_fields,
    MINYEAR, MAXYEAR, bind.
  repeat match goal with
         | |- context [if negb (?a && ?b) then _ else _] =>
             destruct a eqn:?; destruct b eqn:?; cbn [andb negb];
             try discriminate
         end.
  intros _.
  repeat match goal with
         | H : (_ <=? _) = true |- _ => apply Z.leb_le in H
         end.
  lia.
Qed.

Lemma new_ok (y m d h mi s us : Z) :
  1 <= y <= 9999 -> 1 <= m <= 12 -> 1 <= d <= days_in_month y m ->
  0 <= h <= 23 -> 0 <= mi <= 59 -> 0 <= s <= 59 -> 0 <= us <= 999999 ->
  Datetime.new y m d h mi s us = Ok (mk_datetime y m d h mi s us).
Proof.
  intros. unfold Datetime.new, check_date_fields, check_time_fields,
    MINYEAR, MAXYEAR, bind.
  repeat match goal with
         | |- context [?a <=? ?b] =>
             replace (a <=? b) with true by (symmetry; apply Z.leb_le; lia)
         end.
  reflexivity.
Qed.

Lemma toordinal_bounds (dt : datetime) :
  valid dt -> 1 <= toordinal dt <= MAXORDINAL.
Proof.
  intros V. destruct (valid_fields dt V) as ((Y & M & D) & _).
  apply ymd2ord_bounds; assumption.
Qed.

Lemma timedelta_new_normal (d s us : Z) :
  0 <= s < 86400 -> 0 <= us < 1000000 ->
  timedelta_new d s us
  = if 999999999 <? Z.abs d then Raise OverflowError
    else Ok (mk_timedelta d s us).
Proof.
  intros Hs Hus. unfold timedelta_new.
  rewrite (Z.div_small us), (Z.mod_small us) by lia.
  rewrite Z.add_0_r.
  rewrite (Z.div_small s), (Z.mod_small s) by lia.
  rewrite Z.add_0_r. reflexivity.
Qed.

(** Adding whole days moves the date through its ordinal and keeps the
    time of day. *)
Lemma add_days (dt : datetime) (n : Z) :
  valid dt -> Z.abs n <= 999999999 ->
  Datetime.add dt (mk_timedelta n 0 0)
  = if (0 <? toordinal dt + n) && (toordinal dt + n <=? MAXORDINAL)
    then Ok (at_time_of dt (ord2ymd (toordinal dt + n)))
    else Raise OverflowError.
Proof.
  intros V Hn. pose proof (toordinal_bounds dt V) as B.
  destruct (valid_fields dt V) as (_ & H & MI & S & US).
  unfold Datetime.add. unfold MAXORDINAL in *.
  rewrite timedelta_new_normal by lia.
  replace (999999999 <? Z.abs (toordinal dt))
    with false by (symmetry; apply Z.ltb_ge; lia).
  cbn [bind days seconds microseconds]. rewrite !Z.add_0_r.
  rewrite timedelta_new_normal by lia.
  destruct (Z.ltb_spec 999999999 (Z.abs (toordinal dt + n))) as [O|O];
    cbn [bind days seconds microseconds].
  - replace ((0 <? toordinal dt + n) && (toordinal dt + n <=? 3652059))
      with false; [reflexivity|].
    symmetry. apply andb_false_iff.
    destruct (Z.ltb_spec 0 (toordinal dt + n)); [right|left; reflexivity].
    apply Z.leb_gt. lia.
  - destruct ((0 <? toordinal dt + n) && (toordinal dt + n <=? 3652059));
      [|reflexivity].
    destruct (ord2ymd (toordinal dt + n)) as [[y m] d].
    cbn [at_time_of]. f_equal.
    destruct (divmod_eq (hour dt * 3600 + minute dt * 60 + second dt) 3600
                (hour dt) (minute dt * 60 + second dt)) as [-> ->];
      [lia | lia |].
    destruct (divmod_eq (minute dt * 60 + second dt) 60
                (minute dt) (second dt)) as [-> ->]; [lia | lia |].
    reflexivity.
Qed.

Lemma at_time_of_own_date (dt : datetime) :
  at_time_of dt (year dt, month dt, day dt) = dt.
Proof. destruct dt; reflexivity. Qed.

(** [today + timedelta(days=0) == today] *)
Lemma add_zero_days (dt : datetime) :
  valid dt -> Datetime.add dt (mk_timedelta 0 0 0) = Ok dt.
Proof.
  intros V. rewrite (add_days dt 0 V) by (simpl; lia).
  pose proof (toordinal_bounds dt V) as B.
  destruct (valid_fields dt V) as ((Y & M & D) & _).
  rewrite Z.add_0_r.
  replace (0 <? toordinal dt) with true by (symmetry; apply Z.ltb_lt; lia).
  replace (toordinal dt <=? MAXORDINAL)
    with true by (symmetry; apply Z.leb_le; lia).
  cbn [andb]. unfold toordinal.
  rewrite ord2ymd_ymd2ord by lia. rewrite at_time_of_own_date. reflexivity.
Qed.

(** ** The birthday window *)

Lemma replace_year_error (b : datetime) (y : Z) :
  raises (replace_year b y) = true -> replace_year b y = Raise (ValueError None).
Proof.
  unfold replace_year, Datetime.new, check_date_fields, check_time_fields,
    bind.
  repeat match goal with
         | |- context [if ?c then _ else _] => destruct c
         end; simpl; congruence.
Qed.

Lemma candidate_error (today b : datetime) :
  raises (Spec.candidate today b) = true ->
  Spec.candidate today b = Raise (ValueError None).
Proof.
  unfold Spec.candidate.
  destruct (replace_year b (year today)) as [c|e] eqn:R; cbn [bind].
  - destruct (Datetime.lt c today).
    + apply replace_year_error.
    + discriminate.
  - intros _. rewrite <- R. apply replace_year_error. rewrite R. reflexivity.
Qed.

Lemma between_not_before (today c end_date : datetime) :
  AddressBook.between today c end_date = true -> Datetime.lt c today = false.
Proof.
  unfold AddressBook.between, Datetime.le, Datetime.lt, Datetime.compare.
  generalize (getstate today) (getstate c). intros a b.
  assert (A : forall a b, cmp b a = CompOpp (cmp a b)).
  { clear. induction a as [|x a IH]; intros [|y b]; simpl; auto.
    rewrite (Z.compare_antisym x y). destruct (x ?= y); simpl; auto. }
  rewrite (A a b). destruct (cmp a b); simpl; auto.
Qed.

(** One turn of the loop: the record is appended exactly when the
    specification includes it; the turn raises exactly when the projection
    cannot be computed. *)
Lemma upcoming_loop_step (today end_date : datetime)
  (record : Record.t) (rest acc : list Record.t) :
  AddressBook.upcoming_loop today end_date (record :: rest) acc
  = if Spec.projectable today record
    then AddressBook.upcoming_loop today end_date rest
           (if Spec.included today end_date record
            then acc ++ [record] else acc)
    else Raise (ValueError None).
Proof.
  unfold Spec.projectable, Spec.included. cbn [AddressBook.upcoming_loop].
  destruct (Record.birthday record) as [b|]; [|reflexivity].
  pose proof (candidate_error today (Birthday.value b)) as CE.
  unfold Spec.candidate in *.
  destruct (replace_year (Birthday.value b) (year today)) as [c|e] eqn:R;
    cbn [bind] in *.
  - fold (AddressBook.between today c end_date).
    destruct (AddressBook.between today c end_date) eqn:B.
    + rewrite (between_not_before _ _ _ B). cbn [raises negb].
      unfold AddressBook.between in B. rewrite B. reflexivity.
    + destruct (Datetime.lt c today) eqn:L.
      * destruct (replace_year (Birthday.value b) (year today + 1))
          as [c'|e'] eqn:R'; cbn [bind raises negb].
        -- fold (AddressBook.between today c' end_date).
           destruct (AddressBook.between today c' end_date); reflexivity.
        -- specialize (CE eq_refl). congruence.
      * cbn [raises negb]. unfold AddressBook.between in B. rewrite B.
        reflexivity.
  - cbn [raises negb]. specialize (CE eq_refl). congruence.
Qed.

Lemma upcoming_loop_spec (today end_date : datetime)
  (records acc : list Record.t) :
  AddressBook.upcoming_loop today end_date records acc
  = if forallb (Spec.projectable today) records
    then Ok (acc ++ filter (Spec.included today end_date) records)
    else Raise (ValueError None).
Proof.
  revert acc. induction records as [|record rest IH]; intros acc.
  - simpl. rewrite app_nil_r. reflexivity.
  - rewrite upcoming_loop_step. cbn [forallb filter].
    destruct (Spec.projectable today record); cbn [andb]; [|reflexivity].
    rewrite IH. destruct (forallb _ rest); [|reflexivity].
    destruct (Spec.included today end_date record); [|reflexivity].
    rewrite <- app_assoc. reflexivity.
Qed.

Lemma get_upcoming_birthdays_spec (today : datetime) (days : Z)
  (data : AddressBook.t) :
  AddressBook.get_upcoming_birthdays today days data
  = (end_date <- Spec.end_of_window today days ;;
     if forallb (Spec.projectable today) (AddressBook.values data)
     then Ok (Spec.upcoming today end_date data)
     else Raise (ValueError None)).
Proof.
  unfold AddressBook.get_upcoming_birthdays, Spec.end_of_window, Spec.upcoming.
  destruct (timedelta_new days 0 0) as [delta|e]; cbn [bind]; [|reflexivity].
  destruct (Datetime.add today delta) as [end_date|e]; cbn [bind];
    [|reflexivity].
  apply upcoming_loop_spec.
Qed.

Lemma end_of_window_in_range (today : datetime) (days : Z) :
  valid today -> 0 <= days -> toordinal today + days <= MAXORDINAL ->
  Spec.end_of_window today days
  = Ok (at_time_of today (ord2ymd (toordinal today + days))).
Proof.
  intros V D M. pose proof (toordinal_bounds today V) as B.
  unfold MAXORDINAL in *. unfold Spec.end_of_window.
  rewrite timedelta_new_normal by lia.
  replace (999999999 <? Z.abs days) with false
    by (symmetry; apply Z.ltb_ge; lia).
  cbn [bind]. rewrite add_days by (auto; lia).
  replace (0 <? toordinal today + days) with true
    by (symmetry; apply Z.ltb_lt; lia).
  replace (toordinal today + days <=? MAXORDINAL) with true
    by (symmetry; apply Z.leb_le; unfold MAXORDINAL; lia).
  reflexivity.
Qed.

Lemma end_of_window_zero (today : datetime) :
  valid today -> Spec.end_of_window today 0 = Ok today.
Proof.
  intros V. unfold Spec.end_of_window. cbn [timedelta_new bind].
  change (timedelta_new 0 0 0) with (Ok (mk_timedelta 0 0 0)).
  cbn [bind]. apply add_zero_days, V.
Qed.

(** ** Stored birthdays *)

Lemma new_inv (y m d h mi s us : Z) (dt : datetime) :
  Datetime.new y m d h mi s us = Ok dt ->
  dt = mk_datetime y m d h mi s us.
Proof.
  unfold Datetime.new, bind.
  destruct (check_date_fields y m d); [|discriminate].
  destruct (check_time_fields h mi s us); [|discriminate].
  congruence.
Qed.

Lemma new_valid (y m d h mi s us : Z) (dt : datetime) :
  Datetime.new y m d h mi s us = Ok dt -> valid dt.
Proof.
  intros H. pose proof (new_inv _ _ _ _ _ _ _ _ H) as ->.
  exact H.
Qed.

Lemma strptime_midnight (s : str) (dt : datetime) :
  Strptime.strptime s = Ok dt -> valid dt /\ midnight dt = true.
Proof.
  unfold Strptime.strptime.
  destruct (Strptime.format_regex s) as [|[[[d m] y] rest] _]; [discriminate|].
  destruct rest; [|discriminate].
  intros H. split; [exact (new_valid _ _ _ _ _ _ _ _ H)|].
  apply new_inv in H. subst dt. reflexivity.
Qed.

Lemma constructed_birthday (r : Record.t) :
  constructed r -> birthday_at_midnight r.
Proof.
  intros (name & r0 & cs & I & ->).
  apply Record_init_inv in I. destruct I as [_ ->].
  assert (H : birthday_at_midnight (Record.mk (Name.mk name) [] None))
    by (intros b; discriminate).
  revert H. generalize (Record.mk (Name.mk name) [] None).
  induction cs as [|c cs IH]; intros r H; simpl; auto.
  apply IH. destruct (run_call_frame c r) as (l' & b' & E & _ & [->|B]).
  - rewrite E. exact H.
  - destruct B as (s & d & P & ->). rewrite E.
    intros b [= <-]. apply (strptime_midnight s d P).
Qed.

Lemma reachable_constructed (book : AddressBook.t) :
  reachable book -> forall k r, In (k, r) book -> constructed r.
Proof.
  induction 1 as [|book r _ IH C|book name _ IH|book name r c _ IH F];
    intros k v H.
  - destruct H.
  - apply setitem_in in H. destruct H as [H|[_ ->]]; eauto.
  - unfold AddressBook.delete in H.
    destruct (AddressBook.contains name book); eauto.
    apply delitem_in in H. eauto.
  - apply setitem_in in H. destruct H as [H|[_ ->]]; eauto.
    apply constructed_call. apply (IH name). apply find_in, F.
Qed.

Lemma reachable_values_constructed (book : AddressBook.t) (r : Record.t) :
  reachable book -> In r (AddressBook.values book) -> constructed r.
Proof.
  intros R H. unfold AddressBook.values in H. apply in_map_iff in H.
  destruct H as ([k v] & <- & H). apply (reachable_constructed book R k v H).
Qed.

(** ** Comparing datetimes *)

Lemma cmp_antisym (a b : list Z) : cmp b a = CompOpp (cmp a b).
Proof.
  revert b. induction a as [|x a IH]; intros [|y b]; simpl; auto.
  rewrite (Z.compare_antisym x y). destruct (x ?= y); simpl; auto.
Qed.

Lemma cmp_eq (a b : list Z) : cmp a b = Eq -> a = b.
Proof.
  revert b. induction a as [|x a IH]; intros [|y b]; simpl;
    try discriminate; auto.
  destruct (x ?= y) eqn:E; try discriminate.
  apply Z.compare_eq in E. intros H. rewrite (IH _ H), E. reflexivity.
Qed.

Lemma le_le_eqb (a b : datetime) :
  Datetime.le a b && Datetime.le b a = Datetime.eqb b a.
Proof.
  unfold Datetime.le, Datetime.eqb, Datetime.compare.
  rewrite (cmp_antisym (getstate a) (getstate b)).
  destruct (cmp (getstate a) (getstate b)); reflexivity.
Qed.

Lemma eqb_eq (a b : datetime) : Datetime.eqb a b = true -> a = b.
Proof.
  unfold Datetime.eqb, Datetime.compare.
  destruct (cmp (getstate a) (getstate b)) eqn:E; try discriminate.
  intros _. apply cmp_eq in E. destruct a, b. unfold getstate in E.
  simpl in E. congruence.
Qed.

Lemma replace_year_inv (b : datetime) (y : Z) (c : datetime) :
  replace_year b y = Ok c ->
  c = mk_datetime y (month b) (day b)
        (hour b) (minute b) (second b) (microsecond b)
  /\ valid c.
Proof.
  unfold replace_year. intros H. split.
  - exact (new_inv _ _ _ _ _ _ _ _ H).
  - exact (new_valid _ _ _ _ _ _ _ _ H).
Qed.

Lemma candidate_inv (today b c : datetime) :
  Spec.candidate today b = Ok c ->
  valid c /\ midnight c = midnight b /\ month c = month b /\ day c = day b
  /\ (year c = year today \/ year c = year today + 1).
Proof.
  unfold Spec.candidate.
  destruct (replace_year b (year today)) as [c0|] eqn:R; [|discriminate].
  cbn [bind]. destruct (Datetime.lt c0 today).
  - intros R'. apply replace_year_inv in R'. destruct R' as [-> V].
    repeat split; auto.
  - intros [= <-]. apply replace_year_inv in R. destruct R as [-> V].
    repeat split; auto.
Qed.

Lemma filter_none {A : Type} (f : A -> bool) (l : list A) :
  (forall x, In x l -> f x = false) -> filter f l = [].
Proof.
  induction l as [|x l IH]; simpl; intros H; [reflexivity|].
  rewrite (H x) by auto. apply IH. auto.
Qed.

(** C5: with [days = 0] the code runs the test of the claim on the reading
    of the clock, which keeps its time of day: when every birthday can be
    projected it returns the records whose projected birthday equals
    [today] as a datetime.  Nothing cuts [datetime.today()] down to its
    date and birthdays are stored at 00:00:00, so for a book the program
    built the result is empty at every time after midnight, also when
    birthdays fall on the date of [today]. *)
Theorem get_upcoming_birthdays_zero_days
  (today : datetime) (data : AddressBook.t) :
  valid today ->
  forallb (Spec.projectable today) (AddressBook.values data) = true ->
  AddressBook.get_upcoming_birthdays today 0 data
  = Ok (filter (Spec.falls_on today) (AddressBook.values data))
  /\ (reachable data -> midnight today = false ->
      AddressBook.get_upcoming_birthdays today 0 data = Ok []).
Proof.
  intros V P.
  assert (E : AddressBook.get_upcoming_birthdays today 0 data
              = Ok (filter (Spec.falls_on today) (AddressBook.values data))).
  { rewrite get_upcoming_birthdays_spec, (end_of_window_zero _ V).
    cbn [bind]. rewrite P. unfold Spec.upcoming. f_equal.
    apply filter_ext. intros r. unfold Spec.included, Spec.falls_on.
    destruct (Record.birthday r) as [b|]; [|reflexivity].
    destruct (Spec.candidate today (Birthday.value b)); [|reflexivity].
    apply le_le_eqb. }
  split; [exact E|]. intros R M. rewrite E. f_equal.
  apply filter_none. intros r Hr. unfold Spec.falls_on.
  destruct (Record.birthday r) as [b|] eqn:B; [|reflexivity].
  destruct (Spec.candidate today (Birthday.value b)) as [c|] eqn:C;
    [|reflexivity].
  destruct (Datetime.eqb c today) eqn:Q; [|reflexivity].
  apply eqb_eq in Q. subst c.
  destruct (candidate_inv _ _ _ C) as (_ & Mc & _).
  destruct (constructed_birthday r (reachable_values_constructed _ _ R Hr)
              b B) as [_ Mb].
  congruence.
Qed.

Lemma constructed_john_born_10_feb : constructed Sample.john_born_10_feb.
Proof.
  exists (lit "John"), Sample.john, [AddBirthday (lit "10.02.1990")].
  split; reflexivity.
Defined.

(** The failing input: John, born on 10.02.1990, on 10.02.2024 at
    12:00.  His projected birthday is that date, and the code returns no
    record. *)
Lemma get_upcoming_birthdays_zero_days_witness :
  In Sample.john_born_10_feb (AddressBook.values Sample.book_of_john)
  /\ Spec.falls_on (date_of Sample.noon_10_feb_2024) Sample.john_born_10_feb
     = true
  /\ AddressBook.get_upcoming_birthdays Sample.noon_10_feb_2024 0
       Sample.book_of_john
     = Ok [].
Proof.
  split; [left; reflexivity|]. split; [vm_compute; reflexivity|].
  destruct (get_upcoming_birthdays_zero_days Sample.noon_10_feb_2024
              Sample.book_of_john) as [_ E].
  - vm_compute. reflexivity.
  - vm_compute. reflexivity.
  - apply E; [|reflexivity].
    apply reach_add_record;
      [apply reach_empty | apply constructed_john_born_10_feb].
Defined.

(** ** Days to the birthday *)

(** The whole days of [next_birthday - today] for a birthday at 00:00:00:
    one day less than the difference of the dates unless the clock reads
    exactly midnight. *)
Lemma days_after_midnight (n h mi s us : Z) :
  0 <= h <= 23 -> 0 <= mi <= 59 -> 0 <= s <= 59 -> 0 <= us <= 999999 ->
  n + (0 + 0 * 60 + 0 * 3600 - (s + mi * 60 + h * 3600)
       + (0 - us) / 1000000) / 86400
  = if (h =? 0) && (mi =? 0) && (s =? 0) && (us =? 0) then n else n - 1.
Proof.
  intros H MI S US.
  destruct (Z.eqb_spec h 0), (Z.eqb_spec mi 0), (Z.eqb_spec s 0),
    (Z.eqb_spec us 0); cbn [andb]; subst;
    Z.div_mod_to_equations; lia.
Qed.

Lemma sub_from_midnight (c today : datetime) :
  valid today -> midnight c = true ->
  Datetime.sub c today
  = timedelta_new (toordinal c - toordinal today)
      (0 + 0 * 60 + 0 * 3600
       - (second today + minute today * 60 + hour today * 3600))
      (0 - microsecond today).
Proof.
  intros V M. unfold midnight in M.
  repeat (apply andb_prop in M; destruct M as [M ?]).
  repeat match goal with H : (_ =? _) = true |- _ => apply Z.eqb_eq in H end.
  unfold Datetime.sub. congruence.
Qed.

(** The day count of [c - today] for [c] at 00:00:00. *)
Lemma sub_days_from_midnight (c today : datetime) :
  valid today -> midnight c = true ->
  (delta <- Datetime.sub c today ;; Ok (Some (days delta)))
  = let d := if midnight today then toordinal c - toordinal today
             else toordinal c - toordinal today - 1 in
    if 999999999 <? Z.abs d then Raise OverflowError else Ok (Some d).
Proof.
  intros V M. rewrite (sub_from_midnight c today V M).
  destruct (valid_fields today V) as (_ & H & MI & S & US).
  unfold timedelta_new.
  rewrite (days_after_midnight _ _ _ _ _ H MI S US).
  fold (midnight today). cbv zeta.
  destruct (_ <? _); reflexivity.
Qed.

(** C6: for a record whose birthday is 29.02.2000, on 10.02.2024 the code
    returns the 19 days of the claim only when the clock reads exactly
    00:00:00.000000.  [datetime.today()] keeps its time of day and the
    difference to the birthday at 00:00 is cut down to whole days, so at
    every later time of that day the result is 18. *)
Theorem days_to_leap_birthday (today : datetime) (r : Record.t) :
  valid today -> date_of today = mk_datetime 2024 2 10 0 0 0 0 ->
  Record.birthday r = Some (Birthday.mk (mk_datetime 2000 2 29 0 0 0 0)) ->
  Record.days_to_birthday today r
  = Ok (Some (if midnight today then 19 else 18)).
Proof.
  intros V D B. unfold Record.days_to_birthday. rewrite B.
  cbn [Birthday.value].
  injection D as Y M Dy. rewrite Y.
  change (replace_year (mk_datetime 2000 2 29 0 0 0 0) 2024)
    with (Ok (mk_datetime 2024 2 29 0 0 0 0)).
  cbn [bind].
  assert (L : Datetime.lt (mk_datetime 2024 2 29 0 0 0 0) today = false).
  { unfold Datetime.lt, Datetime.compare, getstate. cbn [year month day].
    rewrite Y, M, Dy. reflexivity. }
  rewrite L. cbn [bind].
  rewrite (sub_days_from_midnight (mk_datetime 2024 2 29 0 0 0 0) today V
             eq_refl).
  unfold toordinal. cbn [year month day]. rewrite Y, M, Dy.
  change (ymd2ord 2024 2 29 - ymd2ord 2024 2 10) with 19.
  destruct (midnight today); reflexivity.
Qed.

(** The failing input: the record after [add_birthday("29.02.2000")], on
    10.02.2024 at 12:00. *)
Lemma days_to_leap_birthday_witness :
  snd (Record.add_birthday (lit "29.02.2000") Sample.john)
  = Sample.john_born_29_feb
  /\ date_of Sample.noon_10_feb_2024 = mk_datetime 2024 2 10 0 0 0 0
  /\ Record.days_to_birthday Sample.noon_10_feb_2024 Sample.john_born_29_feb
     = Ok (Some 18).
Proof.
  split; [vm_compute; reflexivity|]. split; [reflexivity|].
  apply (days_to_leap_birthday Sample.noon_10_feb_2024).
  - vm_compute. reflexivity.
  - reflexivity.
  - reflexivity.
Defined.

(** ** What the results owe to the clock *)

Lemma midnight_fields (c : datetime) :
  midnight c = true ->
  hour c = 0 /\ minute c = 0 /\ second c = 0 /\ microsecond c = 0.
Proof.
  unfold midnight. intros M.
  repeat (apply andb_prop in M; destruct M as [M ?]).
  repeat match goal with H : (_ =? _) = true |- _ => apply Z.eqb_eq in H end.
  auto.
Qed.

(** A datetime at 00:00:00 against any other: the dates decide, and on
    the same date it is the earlier one unless the other is at 00:00:00
    too. *)
Lemma compare_midnight (c t : datetime) :
  midnight c = true -> time_fields_nonneg t ->
  Datetime.compare c t
  = match cmp (date_fields c) (date_fields t) with
    | Eq => if midnight t then Eq else Lt
    | x => x
    end.
Proof.
  intros M (H & MI & S & US).
  destruct (midnight_fields c M) as (Hc & MIc & Sc & USc).
  unfold Datetime.compare, getstate, date_fields, midnight.
  rewrite Hc, MIc, Sc, USc. cbn [cmp].
  destruct (year c ?= year t); try reflexivity.
  destruct (month c ?= month t); try reflexivity.
  destruct (day c ?= day t); try reflexivity.
  destruct (hour t) as [|p|p] eqn:Eh; cbn [cmp Z.compare Z.eqb andb];
    [|reflexivity|lia].
  destruct (minute t) as [|p|p] eqn:Em; cbn [cmp Z.compare Z.eqb andb];
    [|reflexivity|lia].
  destruct (second t) as [|p|p] eqn:Es; cbn [cmp Z.compare Z.eqb andb];
    [|reflexivity|lia].
  destruct (microsecond t) as [|p|p] eqn:Eu; cbn [cmp Z.compare Z.eqb andb];
    [reflexivity|reflexivity|lia].
Qed.

Lemma le_as_not_lt (a b : datetime) :
  Datetime.le a b = negb (Datetime.lt b a).
Proof.
  unfold Datetime.le, Datetime.lt, Datetime.compare.
  rewrite (cmp_antisym (getstate a) (getstate b)).
  destruct (cmp (getstate a) (getstate b)); reflexivity.
Qed.

Lemma valid_time_fields_nonneg (t : datetime) :
  valid t -> time_fields_nonneg t.
Proof.
  intros V. destruct (valid_fields t V) as (_ & H & MI & S & US).
  unfold time_fields_nonneg. lia.
Qed.

Section TwoReadings.

(** Two readings of the clock on the same calendar day that agree on
    whether it is exactly midnight. *)
Variables t1 t2 : datetime.
Hypothesis V1 : valid t1.
Hypothesis V2 : valid t2.
Hypothesis same_day : same_date t1 t2.
Hypothesis same_midnight : midnight t1 = midnight t2.

Lemma same_date_fields :
  year t1 = year t2 /\ month t1 = month t2 /\ day t1 = day t2.
Proof. unfold same_date, date_of in same_day. injection same_day. auto. Qed.

Lemma lt_midnight_two_readings (c : datetime) :
  midnight c = true -> Datetime.lt c t1 = Datetime.lt c t2.
Proof.
  intros M. unfold Datetime.lt.
  rewrite !compare_midnight by auto using valid_time_fields_nonneg.
  destruct same_date_fields as (Y & Mo & D).
  unfold date_fields. rewrite Y, Mo, D, same_midnight. reflexivity.
Qed.

Lemma candidate_two_readings (b : datetime) :
  midnight b = true -> Spec.candidate t1 b = Spec.candidate t2 b.
Proof.
  intros M. unfold Spec.candidate.
  destruct same_date_fields as (Y & _). rewrite Y.
  destruct (replace_year b (year t2)) as [c|e] eqn:R; [|reflexivity].
  cbn [bind]. apply replace_year_inv in R. destruct R as [E _].
  rewrite (lt_midnight_two_readings c); [reflexivity|].
  subst c. exact M.
Qed.

Lemma toordinal_two_readings : toordinal t1 = toordinal t2.
Proof.
  destruct same_date_fields as (Y & Mo & D).
  unfold toordinal. rewrite Y, Mo, D. reflexivity.
Qed.

(** The ends of the two windows are the same date, each at the time of
    day of its reading, or both additions overflow. *)
Lemma end_of_window_two_readings (days : Z) :
  (exists ymd,
      Spec.end_of_window t1 days = Ok (at_time_of t1 ymd)
      /\ Spec.end_of_window t2 days = Ok (at_time_of t2 ymd))
  \/ (Spec.end_of_window t1 days = Raise OverflowError
      /\ Spec.end_of_window t2 days = Raise OverflowError).
Proof.
  unfold Spec.end_of_window.
  rewrite timedelta_new_normal by lia.
  destruct (Z.ltb_spec 999999999 (Z.abs days)) as [O|O]; cbn [bind];
    [right; auto|].
  rewrite !add_days by auto. rewrite toordinal_two_readings.
  destruct (_ && _); [left|right; auto].
  exists (ord2ymd (toordinal t2 + days)). auto.
Qed.

Lemma le_end_two_readings (c : datetime) (ymd : Z * Z * Z) :
  midnight c = true ->
  Datetime.le c (at_time_of t1 ymd) = Datetime.le c (at_time_of t2 ymd).
Proof.
  intros M. destruct ymd as [[y m] d]. unfold Datetime.le.
  rewrite !compare_midnight; auto.
  - unfold date_fields. cbn [at_time_of year month day].
    destruct (cmp _ _); try reflexivity.
    destruct (midnight _), (midnight _); reflexivity.
  - apply valid_time_fields_nonneg in V2. exact V2.
  - apply valid_time_fields_nonneg in V1. exact V1.
Qed.

Lemma included_two_readings (ymd : Z * Z * Z) (r : Record.t) :
  birthday_at_midnight r ->
  Spec.projectable t1 r = Spec.projectable t2 r
  /\ Spec.included t1 (at_time_of t1 ymd) r
     = Spec.included t2 (at_time_of t2 ymd) r.
Proof.
  intros B. unfold Spec.projectable, Spec.included.
  destruct (Record.birthday r) as [b|] eqn:E; [|auto].
  destruct (B b E) as [_ M].
  rewrite (candidate_two_readings _ M).
  split; [reflexivity|].
  destruct (Spec.candidate t2 (Birthday.value b)) as [c|] eqn:C;
    [|reflexivity].
  destruct (candidate_inv _ _ _ C) as (_ & Mc & _). rewrite M in Mc.
  rewrite !le_as_not_lt, (lt_midnight_two_readings c Mc).
  rewrite <- !le_as_not_lt, (le_end_two_readings c ymd Mc). reflexivity.
Qed.

End TwoReadings.

Lemma days_to_birthday_candidate (today : datetime) (r : Record.t) :
  Record.days_to_birthday today r
  = match Record.birthday r with
    | Some b =>
        c <- Spec.candidate today (Birthday.value b) ;;
        delta <- Datetime.sub c today ;;
        Ok (Some (days delta))
    | None => Ok None
    end.
Proof.
  unfold Record.days_to_birthday, Spec.candidate.
  destruct (Record.birthday r) as [b|]; [|reflexivity].
  destruct (replace_year (Birthday.value b) (year today)); reflexivity.
Qed.

(** C8, as stated, fails: the same calls on the same record and the same
    book give different results at two readings of the clock. *)
Lemma results_change_with_the_clock :
  Record.days_to_birthday Sample.midnight_10_feb_2024 Sample.john_born_29_feb
  <> Record.days_to_birthday Sample.noon_10_feb_2024 Sample.john_born_29_feb
  /\ AddressBook.get_upcoming_birthdays Sample.midnight_10_feb_2024 0
       Sample.book_of_john
     <> AddressBook.get_upcoming_birthdays Sample.noon_10_feb_2024 0
          Sample.book_of_john.
Proof. split; vm_compute; discriminate. Qed.

(** C8, amended: [days_to_birthday] and [get_upcoming_birthdays] read the
    clock themselves; their result is a function of the arguments, of the
    state and of that reading, and depends on the reading only through
    its calendar date and whether it is exactly midnight: two readings of
    the same day that agree on being midnight give the same results. *)
Theorem results_depend_on_date_and_midnight (t1 t2 : datetime) :
  valid t1 -> valid t2 -> same_date t1 t2 -> midnight t1 = midnight t2 ->
  (forall r, constructed r ->
     Record.days_to_birthday t1 r = Record.days_to_birthday t2 r)
  /\ (forall days book, reachable book ->
        AddressBook.get_upcoming_birthdays t1 days book
        = AddressBook.get_upcoming_birthdays t2 days book).
Proof.
  intros V1 V2 D M. split.
  - intros r C. rewrite !days_to_birthday_candidate.
    destruct (Record.birthday r) as [b|] eqn:B; [|reflexivity].
    destruct (constructed_birthday r C b B) as [_ Mb].
    rewrite (candidate_two_readings t1 t2 V1 V2 D M _ Mb).
    destruct (Spec.candidate t2 (Birthday.value b)) as [c|] eqn:E;
      [|reflexivity].
    cbn [bind]. destruct (candidate_inv _ _ _ E) as (_ & Mc & _).
    rewrite Mb in Mc.
    rewrite !sub_days_from_midnight by auto.
    rewrite (toordinal_two_readings t1 t2 D), M. reflexivity.
  - intros days book R. rewrite !get_upcoming_birthdays_spec.
    destruct (end_of_window_two_readings t1 t2 V1 V2 D days)
      as [(ymd & -> & ->)|[-> ->]]; [|reflexivity].
    cbn [bind].
    assert (I : forall r, In r (AddressBook.values book) ->
                Spec.projectable t1 r = Spec.projectable t2 r
                /\ Spec.included t1 (at_time_of t1 ymd) r
                   = Spec.included t2 (at_time_of t2 ymd) r).
    { intros r Hr. apply included_two_readings; auto.
      apply constructed_birthday.
      apply (reachable_values_constructed book r R Hr). }
    unfold Spec.upcoming. revert I.
    generalize (AddressBook.values book). intros l I.
    assert (P : forallb (Spec.projectable t1) l
                = forallb (Spec.projectable t2) l).
    { induction l as [|r l IH]; [reflexivity|]. cbn [forallb].
      rewrite (proj1 (I r (or_introl eq_refl))), IH; [reflexivity|].
      intros x Hx. apply I. right. exact Hx. }
    rewrite P. clear P.
    destruct (forallb (Spec.projectable t2) l); [|reflexivity]. f_equal.
    induction l as [|r l IH]; [reflexivity|]. cbn [filter].
    rewrite (proj2 (I r (or_introl eq_refl))), IH; [reflexivity|].
    intros x Hx. apply I. right. exact Hx.
Qed.

Lemma reachable_book_of_john : reachable Sample.book_of_john.
Proof.
  apply reach_add_record;
    [apply reach_empty | apply constructed_john_born_10_feb].
Defined.

Lemma results_depend_on_date_and_midnight_witness :
  Record.days_to_birthday Sample.noon_10_feb_2024 Sample.john_born_10_feb
  = Record.days_to_birthday (mk_datetime 2024 2 10 23 59 59 999999)
      Sample.john_born_10_feb
  /\ AddressBook.get_upcoming_birthdays Sample.noon_10_feb_2024 7
       Sample.book_of_john
     = AddressBook.get_upcoming_birthdays
         (mk_datetime 2024 2 10 23 59 59 999999) 7 Sample.book_of_john.
Proof.
  destruct (results_depend_on_date_and_midnight
              Sample.noon_10_feb_2024
              (mk_datetime 2024 2 10 23 59 59 999999)
              ltac:(vm_compute; reflexivity)
              ltac:(vm_compute; reflexivity)
              eq_refl eq_refl) as [R B].
  split.
  - apply R, constructed_john_born_10_feb.
  - apply B, reachable_book_of_john.
Defined.

(** ** Rendering and parsing a date *)

Lemma decimal_char_ascii_digit (k : Z) (rest : str) :
  0 <= k <= 9 ->
  Strptime.decimal_char (Strptime.ascii_digit k :: rest) = [(k, rest)].
Proof.
  intros H. z_enum k 0; reflexivity.
Qed.

Lemma group_Y_pad4 (y : Z) (rest : str) :
  0 <= y <= 9999 ->
  Strptime.group_Y (Strptime.pad4 y ++ rest) = [(y, rest)].
Proof.
  intros H. unfold Strptime.group_Y, Strptime.two_digits, Strptime.seq,
    Strptime.pad4.
  cbn [app].
  rewrite decimal_char_ascii_digit by (Z.div_mod_to_equations; lia).
  cbn [flat_map map app].
  rewrite decimal_char_ascii_digit by (Z.div_mod_to_equations; lia).
  cbn [flat_map map app].
  rewrite decimal_char_ascii_digit by (Z.div_mod_to_equations; lia).
  cbn [flat_map map app].
  rewrite decimal_char_ascii_digit by (Z.div_mod_to_equations; lia).
  cbn [flat_map map app].
  do 2 f_equal. Z.div_mod_to_equations. lia.
Qed.

(** The matches of the day group on a two-digit day: the day itself
    and, from 10 on, its first digit alone. *)
Lemma group_d_pad2 (d : Z) (rest : str) :
  1 <= d <= 31 ->
  Strptime.group_d (Strptime.pad2 d ++ rest)
  = (d, rest)
    :: (if 10 <=? d
        then [(d / 10, Strptime.ascii_digit (d mod 10) :: rest)] else []).
Proof. intros H. z_enum d 1; reflexivity. Qed.

Lemma group_m_pad2 (m : Z) (rest : str) :
  1 <= m <= 12 ->
  Strptime.group_m (Strptime.pad2 m ++ rest)
  = (m, rest)
    :: (if 10 <=? m
        then [(m / 10, Strptime.ascii_digit (m mod 10) :: rest)] else []).
Proof. intros H. z_enum m 1; reflexivity. Qed.

Lemma dot_then {B : Type} (g : unit -> B -> B) (q : Strptime.pattern B)
  (rest : str) :
  Strptime.seq g (Strptime.literal 46) q (46%N :: rest)
  = map (fun '(b, s) => (g tt b, s)) (q rest).
Proof.
  unfold Strptime.seq, Strptime.literal. cbn [N.eqb Pos.eqb flat_map].
  apply app_nil_r.
Qed.

Lemma dot_not_digit {B : Type} (g : unit -> B -> B) (q : Strptime.pattern B)
  (k : Z) (rest : str) :
  Strptime.seq g (Strptime.literal 46) q (Strptime.ascii_digit k :: rest)
  = [].
Proof.
  unfold Strptime.seq, Strptime.literal, Strptime.ascii_digit.
  replace (N.eqb (48 + Z.to_N k) 46) with false
    by (symmetry; apply N.eqb_neq; lia).
  reflexivity.
Qed.

(** A two-digit field before a dot: the dot can only follow the match
    that took both digits. *)
Lemma field_then_dot {B C : Type} (f : Z -> B -> C) (g : unit -> B -> B)
  (p : Strptime.pattern Z) (q : Strptime.pattern B)
  (n : Z) (s rest : str) :
  p s = (n, 46%N :: rest)
        :: (if 10 <=? n
            then [(n / 10, Strptime.ascii_digit (n mod 10) :: 46%N :: rest)]
            else []) ->
  Strptime.seq f p (Strptime.seq g (Strptime.literal 46) q) s
  = map (fun '(b, s) => (f n (g tt b), s)) (q rest).
Proof.
  intros E. unfold Strptime.seq at 1. rewrite E. cbn [flat_map].
  rewrite dot_then, map_map.
  destruct (10 <=? n); cbn [flat_map].
  - rewrite dot_not_digit. cbn [map]. rewrite !app_nil_r.
    apply map_ext. intros [b x]. reflexivity.
  - rewrite app_nil_r. apply map_ext. intros [b x]. reflexivity.
Qed.

Lemma format_regex_rendered (d m y : Z) :
  1 <= d <= 31 -> 1 <= m <= 12 -> 0 <= y <= 9999 ->
  Strptime.format_regex
    (Strptime.pad2 d ++ [46%N] ++ Strptime.pad2 m ++ [46%N]
     ++ Strptime.pad4 y)
  = [(d, m, y, [])].
Proof.
  intros D M Y. unfold Strptime.format_regex.
  rewrite (field_then_dot _ _ _ _ d _
             (Strptime.pad2 m ++ [46%N] ++ Strptime.pad4 y)
             (group_d_pad2 d _ D)).
  rewrite (field_then_dot _ _ _ _ m _ (Strptime.pad4 y)
             (group_m_pad2 m _ M)).
  rewrite <- (app_nil_r (Strptime.pad4 y)), (group_Y_pad4 y [] Y).
  reflexivity.
Qed.

Lemma strip_zeros_from_1000 (y : Z) :
  1000 <= y <= 9999 -> Strptime.strip_zeros (Strptime.pad4 y) = Strptime.pad4 y.
Proof.
  intros H. unfold Strptime.pad4, Strptime.strip_zeros, Strptime.ascii_digit.
  replace (N.eqb (48 + Z.to_N ((y / 1000) mod 10)) 48) with false;
    [reflexivity|].
  symmetry. apply N.eqb_neq.
  assert (1 <= (y / 1000) mod 10) by (Z.div_mod_to_equations; lia). lia.
Qed.

Lemma format_regex_day_month (d m : Z) (rest : str) :
  1 <= d <= 31 -> 1 <= m <= 12 ->
  Strptime.format_regex
    (Strptime.pad2 d ++ [46%N] ++ Strptime.pad2 m ++ [46%N] ++ rest)
  = map (fun '(y, s) => (d, m, y, s)) (Strptime.group_Y rest).
Proof.
  intros D M. unfold Strptime.format_regex.
  rewrite (field_then_dot _ _ _ _ d _ (Strptime.pad2 m ++ [46%N] ++ rest)
             (group_d_pad2 d _ D)).
  rewrite (field_then_dot _ _ _ _ m _ rest (group_m_pad2 m _ M)).
  rewrite map_map. apply map_ext. intros [y x]. reflexivity.
Qed.

Lemma short_year_checked (y : Z) :
  1 <= y <= 999 -> short_year_unmatched y = true.
Proof.
  intros Hy.
  assert (C : forallb short_year_unmatched (zrange 1 999) = true)
    by (vm_compute; reflexivity).
  apply (zrange_forallb _ 1 999 C). lia.
Qed.

Lemma round_trip_with_four_digits (libc_pads_year : bool) (d : datetime) :
  valid d -> midnight d = true ->
  libc_pads_year = true \/ 1000 <= year d ->
  Birthday.init (Strptime.strftime libc_pads_year d) = Ok (Birthday.mk d).
Proof.
  intros V M P. destruct (valid_fields d V) as ((Y & Mo & D) & _).
  pose proof (month_length_le_31 (is_leap (year d)) (month d) Mo) as L.
  rewrite <- days_in_month_length in L.
  assert (E : Strptime.strftime libc_pads_year d
              = Strptime.pad2 (day d) ++ [46%N] ++ Strptime.pad2 (month d)
                ++ [46%N] ++ Strptime.pad4 (year d)).
  { unfold Strptime.strftime, Strptime.directive_Y.
    destruct libc_pads_year; [reflexivity|].
    rewrite strip_zeros_from_1000; [reflexivity|].
    destruct P as [P|P]; [discriminate | lia]. }
  unfold Birthday.init, Strptime.strptime.
  rewrite E, format_regex_rendered by lia.
  destruct (midnight_fields d M) as (H0 & M0 & S0 & U0).
  unfold valid in V. rewrite H0, M0, S0, U0 in V. rewrite V. reflexivity.
Qed.

Lemma short_year_is_rejected (d : datetime) :
  valid d -> year d < 1000 ->
  Birthday.init (Strptime.strftime false d)
  = Raise (ValueError (Some "Invalid date format. Use DD.MM.YYYY"%string)).
Proof.
  intros V Y. destruct (valid_fields d V) as ((Y1 & Mo & D) & _).
  pose proof (month_length_le_31 (is_leap (year d)) (month d) Mo) as L.
  rewrite <- days_in_month_length in L.
  assert (C : short_year_unmatched (year d) = true)
    by (apply short_year_checked; unfold MINYEAR in *; lia).
  unfold short_year_unmatched in C.
  unfold Birthday.init, Strptime.strptime, Strptime.strftime,
    Strptime.directive_Y.
  rewrite format_regex_day_month by lia.
  destruct (Strptime.group_Y _); [reflexivity | discriminate C].
Qed.

(** C7: the round trip holds for every real calendar date whose rendering
    has the pattern DD.MM.YYYY, and the rendering of the code can miss the
    pattern.  [Record.__str__] renders with [strftime("%d.%m.%Y")], whose
    [%Y] the C library prints: where it pads the year with zeros, and for
    every date from the year 1000 on, [Birthday] reads the text back and
    stores [d]; where it does not pad (glibc), the rendering of every date
    before the year 1000 has a shorter year, and [Birthday] rejects it with
    its own "Use DD.MM.YYYY". *)
Theorem birthday_round_trip (libc_pads_year : bool) (d : datetime) :
  valid d -> midnight d = true ->
  (libc_pads_year = true \/ 1000 <= year d ->
   Birthday.init (Strptime.strftime libc_pads_year d) = Ok (Birthday.mk d))
  /\ (libc_pads_year = false -> year d < 1000 ->
      Birthday.init (Strptime.strftime libc_pads_year d)
      = Raise (ValueError
                 (Some "Invalid date format. Use DD.MM.YYYY"%string))).
Proof.
  intros V M. split.
  - apply round_trip_with_four_digits; assumption.
  - intros -> Y. apply short_year_is_rejected; assumption.
Qed.

(** The failing input: the birthday 01.01.0999, which [add_birthday]
    accepts, is shown as [01.01.999], and that text is rejected. *)
Lemma birthday_round_trip_witness :
  let d := mk_datetime 999 1 1 0 0 0 0 in
  let john := Record.mk (Name.mk (lit "John")) [] (Some (Birthday.mk d)) in
  Record.add_birthday (lit "01.01.0999") Sample.john = (Ok tt, john)
  /\ Record.to_str false john
     = lit "Contact name: John, phones: , birthday: 01.01.999"
  /\ Birthday.init (lit "01.01.999")
     = Raise (ValueError (Some "Invalid date format. Use DD.MM.YYYY"%string))
  /\ Birthday.init (Strptime.strftime true d) = Ok (Birthday.mk d).
Proof.
  cbv zeta.
  destruct (birthday_round_trip false (mk_datetime 999 1 1 0 0 0 0))
    as [_ F]; [vm_compute; reflexivity | reflexivity |].
  destruct (birthday_round_trip true (mk_datetime 999 1 1 0 0 0 0))
    as [T _]; [vm_compute; reflexivity | reflexivity |].
  split; [vm_compute; reflexivity|].
  split; [vm_compute; reflexivity|].
  split.
  - change (lit "01.01.999")
      with (Strptime.strftime false (mk_datetime 999 1 1 0 0 0 0)).
    apply F; [reflexivity | vm_compute; reflexivity].
  - apply T. left. reflexivity.
Defined.

(** ** Dates and their ordinals *)

Lemma offset_table_checked (leapyear : bool) (n : Z) :
  0 <= n < 365 -> offset_table_ok leapyear n = true.
Proof.
  intros H.
  assert (C : forallb (fun l => forallb (offset_table_ok l) (zrange 0 365))
                [true; false] = true) by (vm_compute; reflexivity).
  rewrite forallb_forall in C.
  assert (L : In leapyear [true; false]) by (destruct leapyear; simpl; auto).
  apply (zrange_forallb _ 0 365 (C leapyear L)). lia.
Qed.

Lemma month_order_checked (leapyear : bool) (m1 m2 : Z) :
  1 <= m1 <= 12 -> 1 <= m2 <= 12 -> month_order_ok leapyear m1 m2 = true.
Proof.
  intros H1 H2.
  assert (C : forallb (fun l => forallb (fun m1 => forallb (month_order_ok l m1)
                (zrange 1 12)) (zrange 1 12)) [true; false] = true)
    by (vm_compute; reflexivity).
  rewrite forallb_forall in C.
  assert (L : In leapyear [true; false]) by (destruct leapyear; simpl; auto).
  apply (zrange_forallb _ 1 12); [|lia].
  apply (zrange_forallb (fun m1 => forallb (month_order_ok leapyear m1)
                                      (zrange 1 12)) 1 12); [|lia].
  apply (C leapyear L).
Qed.

(** Every day number lies in one year. *)
Lemma year_of_day (n : Z) :
  0 <= n ->
  exists y o, 1 <= y /\ 0 <= o < 365 + Z.b2z (is_leap y)
              /\ n = days_before_year y + o.
Proof.
  intros H. pattern n. apply natlike_ind; [| |exact H]; clear n H.
  - exists 1, 0. repeat split; try lia; reflexivity.
  - intros n Hn (y & o & Y & O & E).
    assert (B : 0 <= Z.b2z (is_leap (y + 1)))
      by (destruct (is_leap (y + 1)); simpl; lia).
    destruct (Z.eq_dec (o + 1) (365 + Z.b2z (is_leap y))) as [F|F].
    + exists (y + 1), 0. rewrite days_before_year_succ. lia.
    + exists y, (o + 1). lia.
Qed.

(** [d.toordinal()] of [date.fromordinal(n)] is [n], and the date is a
    real one. *)
Lemma ymd2ord_ord2ymd (n : Z) :
  1 <= n ->
  let '(y, m, d) := ord2ymd n in
  1 <= y /\ 1 <= m <= 12 /\ 1 <= d <= days_in_month y m
  /\ ymd2ord y m d = n.
Proof.
  intros H. destruct (year_of_day (n - 1) ltac:(lia)) as (y & o & Y & O & E).
  rewrite ord2ymd_month_and_day. cbv zeta. rewrite E.
  pose proof (year_split y o Y O) as S. cbv zeta in S. destruct S as [S1 S2].
  destruct (Z.eq_dec o 365) as [F|F].
  - destruct (S1 F) as [-> Yr]. rewrite Yr.
    assert (L : is_leap y = true).
    { destruct (is_leap y); [reflexivity|]. simpl in O. lia. }
    unfold days_in_month, ymd2ord, days_before_month. rewrite L.
    cbn [andb Z.eqb Z.ltb Z.compare Pos.compare Pos.compare_cont Z.b2z].
    change (item DAYS_IN_MONTH 12) with 31.
    change (item DAYS_BEFORE_MONTH 12) with 334.
    cbn [Pos.eqb andb]. clear S1 S2 Yr. lia.
  - assert (Z.b2z (is_leap y) <= 1) by (destruct (is_leap y); cbn; lia).
    destruct (S2 ltac:(lia)) as (-> & -> & -> & ->). clear S1 S2.
    pose proof (offset_table_checked (is_leap y) o ltac:(lia)) as T.
    unfold offset_table_ok in T.
    destruct (month_and_day (is_leap y) o) as [m d].
    repeat (apply andb_prop in T; destruct T as [T ?]).
    repeat match goal with
           | A : (_ <=? _) = true |- _ => apply Z.leb_le in A
           | A : (_ =? _) = true |- _ => apply Z.eqb_eq in A
           end.
    rewrite days_in_month_length.
    unfold ymd2ord, days_before_month. unfold day_offset in *. lia.
Qed.

(** Earlier dates have smaller ordinals. *)
Lemma ymd2ord_lt (y1 m1 d1 y2 m2 d2 : Z) :
  1 <= m1 <= 12 -> 1 <= d1 <= days_in_month y1 m1 ->
  1 <= m2 <= 12 -> 1 <= d2 <= days_in_month y2 m2 ->
  cmp [y1; m1; d1] [y2; m2; d2] = Lt ->
  ymd2ord y1 m1 d1 < ymd2ord y2 m2 d2.
Proof.
  intros M1 D1 M2 D2. rewrite !days_in_month_length in *.
  destruct (month_split (is_leap y1) m1 d1 M1 D1) as (B1 & _).
  destruct (month_split (is_leap y2) m2 d2 M2 D2) as (B2 & _).
  cbv zeta in B1, B2. unfold day_offset in B1, B2.
  cbn [cmp]. unfold ymd2ord, days_before_month.
  destruct (Z.compare_spec y1 y2) as [->|Y|Y]; [| |discriminate].
  - destruct (Z.compare_spec m1 m2) as [->|M|M]; [| |discriminate].
    + destruct (Z.compare_spec d1 d2) as [->|D|D]; try discriminate.
      intros _. lia.
    + intros _.
      pose proof (month_order_checked (is_leap y2) m1 m2 M1 M2) as T.
      unfold month_order_ok in T.
      replace (m1 <? m2) with true in T by (symmetry; apply Z.ltb_lt; lia).
      cbn [implb] in T. apply Z.ltb_lt in T. unfold day_offset in T. lia.
  - intros _.
    pose proof (days_before_year_succ y1) as S.
    pose proof (days_before_year_mono (y1 + 1) y2 ltac:(lia)). lia.
Qed.

Lemma cmp_date_ordinal (y1 m1 d1 y2 m2 d2 : Z) :
  1 <= m1 <= 12 -> 1 <= d1 <= days_in_month y1 m1 ->
  1 <= m2 <= 12 -> 1 <= d2 <= days_in_month y2 m2 ->
  cmp [y1; m1; d1] [y2; m2; d2] = (ymd2ord y1 m1 d1 ?= ymd2ord y2 m2 d2).
Proof.
  intros M1 D1 M2 D2.
  destruct (cmp [y1; m1; d1] [y2; m2; d2]) eqn:E; symmetry.
  - apply cmp_eq in E. injection E as -> -> ->. apply Z.compare_refl.
  - apply Z.compare_lt_iff. apply ymd2ord_lt; assumption.
  - apply Z.compare_gt_iff. apply ymd2ord_lt; try assumption.
    rewrite cmp_antisym, E. reflexivity.
Qed.

Lemma valid_date_fields (t : datetime) :
  valid t ->
  1 <= month t <= 12 /\ 1 <= day t <= days_in_month (year t) (month t).
Proof.
  intros V. destruct (valid_fields t V) as ((_ & M & D) & _). auto.
Qed.

(** A datetime at 00:00:00 against a clock reading, by day numbers. *)
Lemma compare_midnight_ordinal (c t : datetime) :
  valid c -> midnight c = true -> valid t ->
  Datetime.compare c t
  = match toordinal c ?= toordinal t with
    | Eq => if midnight t then Eq else Lt
    | x => x
    end.
Proof.
  intros Vc M Vt.
  rewrite (compare_midnight c t M (valid_time_fields_nonneg t Vt)).
  destruct (valid_date_fields c Vc) as [Mc Dc].
  destruct (valid_date_fields t Vt) as [Mt Dt].
  unfold date_fields, toordinal.
  rewrite (cmp_date_ordinal _ _ _ _ _ _ Mc Dc Mt Dt). reflexivity.
Qed.

(** The projected birthday is never before the clock reading; it is on
    the day of the reading only when the clock reads midnight. *)
Lemma candidate_not_before (today b c : datetime) :
  valid today -> midnight b = true ->
  Spec.candidate today b = Ok c ->
  Datetime.le today c = true
  /\ toordinal today <= toordinal c
  /\ (toordinal c = toordinal today -> midnight today = true).
Proof.
  intros V M C. destruct (candidate_inv _ _ _ C) as (Vc & Mc & _).
  rewrite M in Mc.
  assert (L : Datetime.lt c today = false).
  { revert C. unfold Spec.candidate.
    destruct (replace_year b (year today)) as [c0|] eqn:R; [|discriminate].
    cbn [bind]. destruct (Datetime.lt c0 today) eqn:L0.
    - intros R'. apply replace_year_inv in R'. destruct R' as [-> _].
      unfold Datetime.lt, Datetime.compare, getstate. cbn [year cmp].
      replace (year today + 1 ?= year today) with Gt; [reflexivity|].
      symmetry. apply Z.compare_gt_iff. lia.
    - intros [= <-]. exact L0. }
  split; [rewrite le_as_not_lt, L; reflexivity|].
  unfold Datetime.lt in L.
  rewrite (compare_midnight_ordinal c today Vc Mc V) in L.
  destruct (Z.compare_spec (toordinal c) (toordinal today)) as [E|E|E];
    try discriminate.
  - destruct (midnight today); [|discriminate]. split; [lia|auto].
  - split; [lia|]. intros; lia.
Qed.

(** The end of the window is [days] days after the day of the reading. *)
Lemma end_of_window_ordinal (today : datetime) (days : Z) :
  valid today -> 0 <= days -> toordinal today + days <= MAXORDINAL ->
  let end_date := at_time_of today (ord2ymd (toordinal today + days)) in
  valid end_date /\ toordinal end_date = toordinal today + days.
Proof.
  intros V D M. pose proof (toordinal_bounds today V) as B.
  pose proof (ymd2ord_ord2ymd (toordinal today + days) ltac:(lia)) as I.
  cbv zeta.
  destruct (ord2ymd (toordinal today + days)) as [[y m] d] eqn:E.
  destruct I as (Y & Mo & Dy & O).
  destruct (valid_fields today V) as (_ & H & MI & S & US).
  assert (Y' : y <= 9999).
  { destruct (Z.le_gt_cases y 9999) as [?|G]; [assumption|exfalso].
    pose proof (days_before_year_mono 10000 y ltac:(lia)) as Mn.
    change (days_before_year 10000) with 3652059 in Mn.
    rewrite days_in_month_length in Dy.
    destruct (month_split (is_leap y) m d Mo Dy) as (Bd & _).
    cbv zeta in Bd. unfold day_offset in Bd.
    unfold ymd2ord, days_before_month, MAXORDINAL in *. lia. }
  split.
  - unfold valid. cbn [at_time_of year month day hour minute second
                       microsecond].
    apply new_ok; lia.
  - unfold toordinal. cbn [at_time_of year month day]. exact O.
Qed.

(** Membership in the window, by day numbers. *)
Lemma included_by_days (today : datetime) (days : Z) (r : Record.t) :
  valid today -> 0 <= days -> toordinal today + days <= MAXORDINAL ->
  birthday_at_midnight r ->
  Spec.included today
    (at_time_of today (ord2ymd (toordinal today + days))) r = true
  <-> exists b c,
        Record.birthday r = Some b
        /\ Spec.candidate today (Birthday.value b) = Ok c
        /\ toordinal today <= toordinal c <= toordinal today + days
        /\ (toordinal c = toordinal today -> midnight today = true).
Proof.
  intros V D M B.
  destruct (end_of_window_ordinal today days V D M) as [Ve Oe].
  cbv zeta in Ve, Oe. unfold Spec.included.
  destruct (Record.birthday r) as [b|] eqn:Eb.
  - destruct (B b Eb) as [_ Mb].
    destruct (Spec.candidate today (Birthday.value b)) as [c|e] eqn:C.
    + destruct (candidate_not_before _ _ _ V Mb C) as (L & O1 & O2).
      destruct (candidate_inv _ _ _ C) as (Vc & Mc & _). rewrite Mb in Mc.
      rewrite L. cbn [andb]. unfold Datetime.le.
      rewrite (compare_midnight_ordinal c _ Vc Mc Ve), Oe.
      split.
      * intros H. exists b, c. repeat split; auto.
        destruct (Z.compare_spec (toordinal c) (toordinal today + days))
          as [E|E|E]; [lia | lia | discriminate].
      * intros (b' & c' & Hb & Hc & O & _).
        injection Hb as <-. rewrite C in Hc. injection Hc as <-.
        destruct (Z.compare_spec (toordinal c) (toordinal today + days))
          as [E|E|E]; [|reflexivity|lia].
        destruct (midnight (at_time_of today
                              (ord2ymd (toordinal today + days))));
          reflexivity.
    + split; [discriminate|]. intros (b' & c' & Hb & F & _).
      injection Hb as <-. rewrite C in F. discriminate.
  - split; [discriminate|]. intros (b' & c' & F & _). discriminate.
Qed.

(** ** The window of upcoming birthdays *)

(** C1: the code runs the algorithm of the claim on the reading of the
    clock, which keeps its time of day.  When [today + days] is a
    representable datetime and the birthday of every record can be
    projected, [get_upcoming_birthdays] returns, in the order of the book,
    the records that have a birthday whose projection to the year of
    [today] (or, if that is before [today], to the next year) lies in the
    closed interval from [today] to [today + days], the same time of day
    [days] days later.  For a birthday stored at 00:00:00 that is: the
    projected date is at most [days] days after the day of [today], so the
    upper bound is inclusive; but it is the day of [today] only when the
    clock reads exactly midnight.  Nothing cuts [datetime.today()] down to
    its date, so at any later time a birthday on the date of [today] is
    before [today], is projected to the next year and is left out: the
    lower bound of the claim is missed. *)
Theorem get_upcoming_birthdays_window
  (today : datetime) (days : Z) (data : AddressBook.t) :
  valid today -> 0 <= days -> toordinal today + days <= MAXORDINAL ->
  forallb (Spec.projectable today) (AddressBook.values data) = true ->
  exists end_date,
    Spec.end_of_window today days = Ok end_date
    /\ end_date = at_time_of today (ord2ymd (toordinal today + days))
    /\ toordinal end_date = toordinal today + days
    /\ AddressBook.get_upcoming_birthdays today days data
       = Ok (Spec.upcoming today end_date data)
    /\ (forall r, birthday_at_midnight r ->
          (Spec.included today end_date r = true
           <-> exists b c,
                 Record.birthday r = Some b
                 /\ Spec.candidate today (Birthday.value b) = Ok c
                 /\ toordinal today <= toordinal c <= toordinal today + days
                 /\ (toordinal c = toordinal today
                     -> midnight today = true))).
Proof.
  intros V D M P. eexists. split; [apply end_of_window_in_range; auto|].
  split; [reflexivity|].
  split; [apply (end_of_window_ordinal today days V D M)|].
  split.
  - rewrite get_upcoming_birthdays_spec, end_of_window_in_range by auto.
    cbn [bind]. rewrite P. reflexivity.
  - intros r B. apply included_by_days; auto.
Qed.

(** The failing input: John, born on 10.02.1990, on 10.02.2024 at 12:00
    with [days = 7].  The algorithm of the claim, run on the date, returns
    John; the code returns no record. *)
Lemma get_upcoming_birthdays_window_witness :
  Spec.end_of_window (date_of Sample.noon_10_feb_2024) 7
  = Ok (mk_datetime 2024 2 17 0 0 0 0)
  /\ Spec.upcoming (date_of Sample.noon_10_feb_2024)
       (mk_datetime 2024 2 17 0 0 0 0) Sample.book_of_john
     = [Sample.john_born_10_feb]
  /\ AddressBook.get_upcoming_birthdays Sample.noon_10_feb_2024 7
       Sample.book_of_john
     = Ok [].
Proof.
  split; [vm_compute; reflexivity|]. split; [vm_compute; reflexivity|].
  destruct (get_upcoming_birthdays_window Sample.noon_10_feb_2024 7
              Sample.book_of_john)
    as (end_date & _ & -> & _ & E & _).
  - vm_compute. reflexivity.
  - lia.
  - vm_compute. discriminate.
  - vm_compute. reflexivity.
  - rewrite E. vm_compute. reflexivity.
Defined.

(** * Further properties *)

(** ** The book as a dictionary *)

Lemma find_setitem (key key' : str) (r : Record.t) (book : AddressBook.t) :
  AddressBook.find key' (AddressBook.setitem key r book)
  = if str_eqb key' key then Some r else AddressBook.find key' book.
Proof.
  unfold AddressBook.find.
  induction book as [|[k v] book IH]; simpl.
  - destruct (str_eqb key key') eqn:E.
    + apply str_eqb_eq in E. subst. rewrite str_eqb_refl. reflexivity.
    + destruct (str_eqb key' key) eqn:E'; [|reflexivity].
      apply str_eqb_eq in E'. subst. rewrite str_eqb_refl in E. discriminate.
  - destruct (str_eqb k key) eqn:K; simpl.
    + apply str_eqb_eq in K. subst k.
      destruct (str_eqb key key') eqn:E.
      * apply str_eqb_eq in E. subst. rewrite str_eqb_refl. reflexivity.
      * destruct (str_eqb key' key) eqn:E'; [|reflexivity].
        apply str_eqb_eq in E'. subst. rewrite str_eqb_refl in E.
        discriminate.
    + destruct (str_eqb k key') eqn:E; simpl.
      * apply str_eqb_eq in E. subst k.
        rewrite K. reflexivity.
      * exact IH.
Qed.

Lemma contains_find (key : str) (book : AddressBook.t) :
  AddressBook.contains key book = true
  <-> AddressBook.find key book <> None.
Proof.
  unfold AddressBook.contains, AddressBook.find.
  induction book as [|[k v] book IH]; simpl.
  - split; [discriminate | congruence].
  - destruct (str_eqb k key); simpl; [split; [discriminate | reflexivity]|].
    exact IH.
Qed.

Lemma find_none_not_key (key : str) (book : AddressBook.t) :
  AddressBook.find key book = None <-> ~ In key (map fst book).
Proof.
  unfold AddressBook.find.
  induction book as [|[k v] book IH]; simpl.
  - tauto.
  - destruct (str_eqb k key) eqn:E; simpl.
    + apply str_eqb_eq in E. split; [discriminate | tauto].
    + apply str_eqb_neq in E. rewrite IH. tauto.
Qed.

Lemma setitem_keys (key : str) (r : Record.t) (book : AddressBook.t) :
  map fst (AddressBook.setitem key r book)
  = if AddressBook.contains key book then map fst book
    else map fst book ++ [key].
Proof.
  unfold AddressBook.contains.
  induction book as [|[k v] book IH]; simpl; [reflexivity|].
  destruct (str_eqb k key) eqn:E; simpl; [reflexivity|].
  rewrite IH. destruct (existsb _ book); reflexivity.
Qed.

Lemma delitem_keys_in (key k : str) (book : AddressBook.t) :
  In k (map fst (AddressBook.delitem key book)) -> In k (map fst book).
Proof.
  induction book as [|[k0 v0] book IH]; simpl; auto.
  destruct (str_eqb k0 key); simpl; intuition.
Qed.

Lemma setitem_unique (key : str) (r : Record.t) (book : AddressBook.t) :
  unique_keys book -> unique_keys (AddressBook.setitem key r book).
Proof.
  unfold unique_keys. intros U. rewrite setitem_keys.
  destruct (AddressBook.contains key book) eqn:C; [exact U|].
  assert (N : ~ In key (map fst book)).
  { apply find_none_not_key.
    destruct (AddressBook.find key book) eqn:F; [|reflexivity].
    assert (AddressBook.contains key book = true)
      by (apply contains_find; congruence).
    congruence. }
  clear C. induction (map fst book) as [|k l IH]; simpl.
  - constructor; [tauto | constructor].
  - inversion U; subst. constructor.
    + rewrite in_app_iff. simpl. intros [H|[H|[]]]; [tauto|].
      apply N. left. symmetry. exact H.
    + apply IH; [assumption|]. intros H. apply N. right. exact H.
Qed.

Lemma delitem_unique (key : str) (book : AddressBook.t) :
  unique_keys book -> unique_keys (AddressBook.delitem key book).
Proof.
  unfold unique_keys.
  induction book as [|[k v] book IH]; simpl; intros U; [constructor|].
  inversion U; subst.
  destruct (str_eqb k key); simpl; [assumption|].
  constructor; [|auto]. intros H. apply delitem_keys_in in H. tauto.
Qed.

Lemma find_delitem (key key' : str) (book : AddressBook.t) :
  unique_keys book ->
  AddressBook.find key' (AddressBook.delitem key book)
  = if str_eqb key' key then None else AddressBook.find key' book.
Proof.
  unfold unique_keys.
  induction book as [|[k v] book IH]; intros U.
  - simpl. destruct (str_eqb key' key); reflexivity.
  - inversion U as [|? ? N U']; subst. specialize (IH U').
    pose proof (proj2 (find_none_not_key k book) N) as F.
    unfold AddressBook.find in *. simpl.
    destruct (str_eqb k key) eqn:K; simpl.
    + apply str_eqb_eq in K. subst k.
      destruct (str_eqb key' key) eqn:E.
      * apply str_eqb_eq in E. subst key'. exact F.
      * replace (str_eqb key key') with false; [reflexivity|].
        symmetry. apply str_eqb_neq. apply str_eqb_neq in E. congruence.
    + destruct (str_eqb k key') eqn:E; simpl.
      * apply str_eqb_eq in E. subst k. rewrite K. reflexivity.
      * exact IH.
Qed.

(** X1: looking a name up after [add_record] gives the record just added
    under its own name, and what was there before under every other
    name. *)
Theorem find_after_add_record
  (record : Record.t) (name : str) (book : AddressBook.t) :
  AddressBook.find name (AddressBook.add_record record book)
  = if str_eqb name (Name.value (Record.name record))
    then Some record
    else AddressBook.find name book.
Proof. apply find_setitem. Qed.

Lemma reachable_no_double_key (book : AddressBook.t) :
  reachable book -> unique_keys book.
Proof.
  induction 1 as [|book r _ IH C|book name _ IH|book name r c _ IH F].
  - constructor.
  - apply setitem_unique, IH.
  - unfold AddressBook.delete.
    destruct (AddressBook.contains name book); [|exact IH].
    apply delitem_unique, IH.
  - apply setitem_unique, IH.
Qed.

(** X2: in every book the program can hold no name is the key of two
    entries. *)
Theorem reachable_unique_keys (book : AddressBook.t) :
  reachable book -> unique_keys book.
Proof. apply reachable_no_double_key. Qed.

Lemma reachable_unique_keys_witness :
  unique_keys
    (AddressBook.add_record Sample.john_born_29_feb Sample.book_of_john).
Proof.
  apply reachable_unique_keys. apply reach_add_record.
  - apply reachable_book_of_john.
  - exists (lit "John"), Sample.john, [AddBirthday (lit "29.02.2000")].
    split; reflexivity.
Defined.

(** X3: after [delete(name)] on a book without double keys the name is
    not found and every other name is found as before; deleting a name
    that is not there changes nothing. *)
Theorem find_after_delete (name name' : str) (book : AddressBook.t) :
  unique_keys book ->
  AddressBook.find name' (AddressBook.delete name book)
  = (if str_eqb name' name then None else AddressBook.find name' book)
  /\ (AddressBook.find name book = None ->
      AddressBook.delete name book = book).
Proof.
  intros U. unfold AddressBook.delete.
  destruct (AddressBook.contains name book) eqn:C.
  - split; [apply find_delitem, U|].
    intros F. apply contains_find in C. congruence.
  - split; [|reflexivity].
    destruct (str_eqb name' name) eqn:E; [|reflexivity].
    apply str_eqb_eq in E. subst name'.
    destruct (AddressBook.find name book) eqn:F; [|reflexivity].
    assert (AddressBook.contains name book = true)
      by (apply contains_find; congruence).
    congruence.
Qed.

Lemma find_after_delete_witness :
  AddressBook.find (lit "John")
    (AddressBook.delete (lit "John") Sample.book_of_john) = None.
Proof.
  apply (proj1 (find_after_delete (lit "John") (lit "John")
                  Sample.book_of_john (reachable_no_double_key _
                                         reachable_book_of_john))).
Defined.

Lemma setitem_absent (key : str) (r : Record.t) (book : AddressBook.t) :
  AddressBook.find key book = None ->
  AddressBook.setitem key r book = book ++ [(key, r)].
Proof.
  unfold AddressBook.find.
  induction book as [|[k v] book IH]; simpl; [reflexivity|].
  destruct (str_eqb k key); simpl; [discriminate|].
  intros F. rewrite (IH F). reflexivity.
Qed.

Lemma setitem_present (key : str) (r old : Record.t) (book : AddressBook.t) :
  AddressBook.find key book = Some old ->
  exists before after,
    book = before ++ (key, old) :: after
    /\ AddressBook.find key before = None
    /\ AddressBook.setitem key r book = before ++ (key, r) :: after.
Proof.
  unfold AddressBook.find.
  induction book as [|[k v] book IH]; simpl; [discriminate|].
  destruct (str_eqb k key) eqn:E; simpl.
  - apply str_eqb_eq in E. subst k. intros [= ->].
    exists [], book. auto.
  - intros F. destruct (IH F) as (before & after & -> & N & S).
    exists ((k, v) :: before), after. simpl. rewrite E, S. auto.
Qed.

(** X4: [add_record] puts a new name after all the entries of the book;
    for a name that is already a key it puts the record in the place of
    the old one, so the order of the entries and their number stay. *)
Theorem add_record_keeps_order (record : Record.t) (book : AddressBook.t) :
  let name := Name.value (Record.name record) in
  (AddressBook.find name book = None ->
   AddressBook.add_record record book = book ++ [(name, record)])
  /\ (forall old, AddressBook.find name book = Some old ->
      exists before after,
        book = before ++ (name, old) :: after
        /\ AddressBook.find name before = None
        /\ AddressBook.add_record record book
           = before ++ (name, record) :: after).
Proof.
  cbv zeta. split.
  - apply setitem_absent.
  - intros old. apply setitem_present.
Qed.

Lemma add_record_keeps_order_witness :
  AddressBook.add_record Sample.john_born_29_feb Sample.book_of_john
  = [(lit "John", Sample.john_born_29_feb)].
Proof.
  destruct (proj2 (add_record_keeps_order Sample.john_born_29_feb
                     Sample.book_of_john) Sample.john_born_10_feb eq_refl)
    as (before & after & B & N & E).
  rewrite E. destruct before as [|x before].
  - injection B as <-. reflexivity.
  - destruct before; discriminate.
Defined.

(** ** Phones of a record *)

Lemma find_first (phone : str) (l1 l2 : list Phone.t) (p : Phone.t) :
  Phone.value p = phone -> occurrences phone l1 = 0%nat ->
  List.find (has_phone_value phone) (l1 ++ p :: l2) = Some p.
Proof.
  intros V. unfold occurrences. fold (has_phone_value phone).
  induction l1 as [|q l1 IH]; simpl.
  - intros _. unfold has_phone_value. rewrite V, str_eqb_refl. reflexivity.
  - destruct (has_phone_value phone q); simpl; [discriminate|]. exact IH.
Qed.

Lemma list_remove_first (l1 l2 : list Phone.t) (p : Phone.t) :
  occurrences (Phone.value p) l1 = 0%nat ->
  Record.list_remove p (l1 ++ p :: l2) = Ok (l1 ++ l2).
Proof.
  unfold occurrences. fold (has_phone_value (Phone.value p)).
  induction l1 as [|q l1 IH]; simpl.
  - intros _. unfold Phone.eqb. rewrite str_eqb_refl. reflexivity.
  - unfold Phone.eqb. fold (has_phone_value (Phone.value p) q).
    destruct (has_phone_value (Phone.value p) q); simpl; [discriminate|].
    intros O. rewrite (IH O). reflexivity.
Qed.

(** X5: [remove_phone] never raises; it takes out the first phone with
    the given number and nothing else, and leaves a record without that
    number as it is. *)
Theorem remove_phone_effect (phone : str) (self : Record.t) :
  fst (Record.remove_phone phone self) = Ok tt
  /\ (Record.find_phone phone self = None ->
      snd (Record.remove_phone phone self) = self)
  /\ (forall l1 p l2,
        Record.phones self = l1 ++ p :: l2 ->
        Phone.value p = phone -> occurrences phone l1 = 0%nat ->
        snd (Record.remove_phone phone self)
        = Record.mk (Record.name self) (l1 ++ l2) (Record.birthday self)).
Proof.
  split; [|split].
  - destruct (remove_phone_cases phone self) as (l' & E & _).
    rewrite E. reflexivity.
  - intros F. unfold Record.remove_phone, Record.mbind, Record.gets.
    rewrite F. reflexivity.
  - intros l1 p l2 P V O.
    unfold Record.remove_phone, Record.mbind, Record.gets, Record.lift,
      Record.find_phone.
    change (fun p0 : Phone.t => str_eqb (Phone.value p0) phone)
      with (has_phone_value phone).
    rewrite P, (find_first phone l1 l2 p V O).
    cbn [fst snd]. rewrite P.
    rewrite list_remove_first by (rewrite V; exact O). reflexivity.
Qed.

Lemma remove_phone_effect_witness :
  snd (Record.remove_phone Sample.phone_a Sample.john_same_phone_twice)
  = Sample.john_one_phone.
Proof.
  apply (proj2 (proj2 (remove_phone_effect Sample.phone_a
                         Sample.john_same_phone_twice))
           [] (Phone.mk Sample.phone_a) [Phone.mk Sample.phone_a]);
    reflexivity.
Defined.

(** X6: [edit_phone(old, new)] with a valid [new] takes the first phone
    with number [old] out of its place and puts the new phone at the end
    of the list: the order of the numbers changes unless the edited one
    was last. *)
Theorem edit_phone_moves_to_end
  (old_phone new_phone : str) (self : Record.t)
  (l1 l2 : list Phone.t) (p : Phone.t) :
  Record.phones self = l1 ++ p :: l2 ->
  Phone.value p = old_phone -> occurrences old_phone l1 = 0%nat ->
  Phone.validate_phone new_phone = true ->
  Record.edit_phone old_phone new_phone self
  = (Ok tt, Record.mk (Record.name self)
                      (l1 ++ l2 ++ [Phone.mk new_phone])
                      (Record.birthday self)).
Proof.
  intros P V O N.
  assert (F : Record.find_phone old_phone self = Some p).
  { unfold Record.find_phone.
    change (fun p0 : Phone.t => str_eqb (Phone.value p0) old_phone)
      with (has_phone_value old_phone).
    rewrite P. apply find_first; assumption. }
  destruct (edit_phone_present _ new_phone _ _ F) as (l' & R & E).
  rewrite P, list_remove_first in R by (rewrite V; exact O).
  injection R as <-. rewrite E, (add_phone_ok _ _ N). simpl.
  rewrite app_assoc. reflexivity.
Qed.

Lemma edit_phone_moves_to_end_witness :
  Record.phones
    (snd (Record.edit_phone Sample.phone_a Sample.phone_b
            (Record.mk (Name.mk (lit "John"))
               [Phone.mk Sample.phone_a; Phone.mk (lit "5555555555")]
               None)))
  = [Phone.mk (lit "5555555555"); Phone.mk Sample.phone_b].
Proof.
  rewrite (edit_phone_moves_to_end Sample.phone_a Sample.phone_b _
             [] [Phone.mk (lit "5555555555")] (Phone.mk Sample.phone_a));
    reflexivity.
Defined.

Lemma find_app_other (phone : str) (l : list Phone.t) (q : Phone.t) :
  has_phone_value phone q = false ->
  List.find (has_phone_value phone) (l ++ [q])
  = List.find (has_phone_value phone) l.
Proof.
  intros H. induction l as [|x l IH]; simpl.
  - rewrite H. reflexivity.
  - destruct (has_phone_value phone x); [reflexivity | exact IH].
Qed.

(** X7: [add_phone] of a valid number puts it at the end of the list and
    keeps what is there, a number that is already in the list included:
    the number then occurs once more, it is found, and the lookup of
    every other number gives what it gave before. *)
Theorem add_phone_effect (phone : str) (self : Record.t) :
  Phone.validate_phone phone = true ->
  exists self',
    Record.add_phone phone self = (Ok tt, self')
    /\ Record.phones self' = Record.phones self ++ [Phone.mk phone]
    /\ occurrences phone (Record.phones self')
       = S (occurrences phone (Record.phones self))
    /\ Record.find_phone phone self' <> None
    /\ (forall other, other <> phone ->
          Record.find_phone other self' = Record.find_phone other self).
Proof.
  intros V. rewrite (add_phone_ok _ _ V). eexists. split; [reflexivity|].
  simpl. split; [reflexivity|]. split.
  - rewrite occurrences_app. unfold occurrences at 2. simpl.
    rewrite str_eqb_refl. simpl. lia.
  - split.
    + unfold Record.find_phone. simpl.
      destruct (find_app_last (fun p => str_eqb (Phone.value p) phone)
                  (Record.phones self) (Phone.mk phone) (str_eqb_refl _))
        as (q & -> & _). discriminate.
    + intros other N. unfold Record.find_phone. simpl.
      change (fun p : Phone.t => str_eqb (Phone.value p) other)
        with (has_phone_value other).
      apply find_app_other. unfold has_phone_value. simpl.
      apply str_eqb_neq. congruence.
Qed.

Lemma add_phone_effect_witness :
  exists self',
    Record.add_phone Sample.phone_a Sample.john_one_phone = (Ok tt, self')
    /\ occurrences Sample.phone_a (Record.phones self') = 2%nat.
Proof.
  destruct (add_phone_effect Sample.phone_a Sample.john_one_phone eq_refl)
    as (self' & E & _ & O & _).
  exists self'. split; [exact E|]. rewrite O. reflexivity.
Defined.

(** ** Birthdays *)

(** X8: whatever texts [add_birthday] was called with, a birthday that a
    record or a book of the program holds is a real calendar date of the
    years 1..9999 at 00:00:00. *)
Theorem stored_birthday_is_a_date :
  (forall r b, constructed r -> Record.birthday r = Some b ->
     1 <= year (Birthday.value b) <= 9999
     /\ 1 <= month (Birthday.value b) <= 12
     /\ 1 <= day (Birthday.value b)
        <= days_in_month (year (Birthday.value b)) (month (Birthday.value b))
     /\ midnight (Birthday.value b) = true)
  /\ (forall book r, reachable book -> In r (AddressBook.values book) ->
        birthday_at_midnight r).
Proof.
  split.
  - intros r b C B. destruct (constructed_birthday r C b B) as [V M].
    destruct (valid_fields _ V) as ((Y & Mo & D) & _). auto.
  - intros book r R I. apply constructed_birthday.
    apply (reachable_values_constructed book r R I).
Qed.

Lemma stored_birthday_is_a_date_witness :
  midnight (mk_datetime 1990 2 10 0 0 0 0) = true.
Proof.
  apply (proj1 stored_birthday_is_a_date Sample.john_born_10_feb
           (Birthday.mk (mk_datetime 1990 2 10 0 0 0 0))
           constructed_john_born_10_feb eq_refl).
Defined.

Lemma ymd2ord_year_bounds (y m d : Z) :
  1 <= m <= 12 -> 1 <= d <= days_in_month y m ->
  days_before_year y + 1 <= ymd2ord y m d
  <= days_before_year y + 365 + Z.b2z (is_leap y).
Proof.
  intros M D. rewrite days_in_month_length in D.
  destruct (month_split (is_leap y) m d M D) as (B & _).
  cbv zeta in B. unfold day_offset in B.
  unfold ymd2ord, days_before_month. lia.
Qed.

Lemma ymd2ord_next_year (y m d : Z) :
  ymd2ord (y + 1) m d - ymd2ord y m d <= 366.
Proof.
  unfold ymd2ord, days_before_month. rewrite days_before_year_succ.
  destruct (2 <? m), (is_leap y), (is_leap (y + 1)); cbn [andb Z.b2z]; lia.
Qed.

Lemma lt_midnight_ordinal (c t : datetime) :
  valid c -> midnight c = true -> valid t ->
  Datetime.lt c t
  = (toordinal c <? toordinal t)
    || ((toordinal c =? toordinal t) && negb (midnight t)).
Proof.
  intros Vc M Vt. unfold Datetime.lt.
  rewrite (compare_midnight_ordinal c t Vc M Vt).
  destruct (Z.compare_spec (toordinal c) (toordinal t)) as [E|E|E].
  - rewrite E, Z.ltb_irrefl, Z.eqb_refl. cbn [orb andb].
    destruct (midnight t); reflexivity.
  - replace (toordinal c <? toordinal t) with true
      by (symmetry; apply Z.ltb_lt; exact E).
    reflexivity.
  - replace (toordinal c <? toordinal t) with false
      by (symmetry; apply Z.ltb_ge; lia).
    replace (toordinal c =? toordinal t) with false
      by (symmetry; apply Z.eqb_neq; lia).
    reflexivity.
Qed.

(** The projected birthday is at most a year ahead. *)
Lemma candidate_within_a_year (today b c : datetime) :
  valid today -> midnight b = true ->
  Spec.candidate today b = Ok c ->
  toordinal c - toordinal today <= if midnight today then 365 else 366.
Proof.
  intros V M. unfold Spec.candidate.
  destruct (replace_year b (year today)) as [c0|] eqn:R; [|discriminate].
  cbn [bind]. destruct (replace_year_inv _ _ _ R) as [E0 V0].
  assert (M0 : midnight c0 = true) by (subst c0; exact M).
  destruct (valid_date_fields today V) as [Mt Dt].
  destruct (valid_date_fields c0 V0) as [Mc Dc].
  pose proof (ymd2ord_year_bounds _ _ _ Mt Dt) as Bt.
  pose proof (ymd2ord_year_bounds _ _ _ Mc Dc) as Bc.
  assert (Y0 : year c0 = year today) by (subst c0; reflexivity).
  fold (toordinal today) in Bt. fold (toordinal c0) in Bc.
  rewrite Y0 in Bc.
  assert (L1 : Z.b2z (is_leap (year today)) <= 1)
    by (destruct (is_leap (year today)); cbn; lia).
  rewrite (lt_midnight_ordinal c0 today V0 M0 V).
  destruct (Z.ltb_spec (toordinal c0) (toordinal today)) as [L|L];
    cbn [orb].
  - intros R1. apply replace_year_inv in R1. destruct R1 as [-> _].
    pose proof (ymd2ord_next_year (year today) (month b) (day b)) as N.
    unfold toordinal at 1. cbn [year month day].
    assert (toordinal c0 = ymd2ord (year today) (month b) (day b))
      by (subst c0; reflexivity).
    destruct (midnight today); lia.
  - destruct (Z.eqb_spec (toordinal c0) (toordinal today)) as [Q|Q];
      cbn [andb].
    + destruct (midnight today); cbn [negb].
      * intros [= <-]. lia.
      * intros R1. apply replace_year_inv in R1. destruct R1 as [-> _].
        pose proof (ymd2ord_next_year (year today) (month b) (day b)) as N.
        unfold toordinal at 1. cbn [year month day].
        assert (toordinal c0 = ymd2ord (year today) (month b) (day b))
          by (subst c0; reflexivity).
        lia.
    + intros [= <-]. destruct (midnight today); lia.
Qed.

(** X9: for a record of the program and a clock reading, the number
    [days_to_birthday] returns lies between 0 and 365; it returns [None]
    exactly for a record without a birthday. *)
Theorem days_to_birthday_range (today : datetime) (r : Record.t) :
  valid today -> constructed r ->
  (forall n, Record.days_to_birthday today r = Ok (Some n) ->
     0 <= n <= 365)
  /\ (Record.days_to_birthday today r = Ok None
      <-> Record.birthday r = None).
Proof.
  intros V C. rewrite days_to_birthday_candidate.
  destruct (Record.birthday r) as [b|] eqn:B.
  - destruct (constructed_birthday r C b B) as [_ Mb].
    destruct (Spec.candidate today (Birthday.value b)) as [c|e] eqn:E;
      cbn [bind].
    + destruct (candidate_inv _ _ _ E) as (Vc & Mc & _). rewrite Mb in Mc.
      rewrite (sub_days_from_midnight c today V Mc). cbv zeta.
      destruct (candidate_not_before _ _ _ V Mb E) as (_ & O1 & O2).
      pose proof (candidate_within_a_year _ _ _ V Mb E) as O3.
      destruct (_ <? _); split; try discriminate;
        try (split; discriminate).
      intros n [= <-]. destruct (midnight today); [lia|].
      assert (toordinal c <> toordinal today)
        by (intros Q; specialize (O2 Q); discriminate).
      lia.
    + split; [discriminate | split; discriminate].
  - split; [discriminate | split; reflexivity].
Qed.

Lemma days_to_birthday_range_witness :
  Record.days_to_birthday Sample.noon_10_feb_2024 Sample.john_born_29_feb
  = Ok (Some 18)
  /\ 0 <= 18 <= 365.
Proof.
  assert (E : Record.days_to_birthday Sample.noon_10_feb_2024
                Sample.john_born_29_feb = Ok (Some 18))
    by (vm_compute; reflexivity).
  split; [exact E|].
  apply (proj1 (days_to_birthday_range Sample.noon_10_feb_2024
                  Sample.john_born_29_feb
                  ltac:(vm_compute; reflexivity)
                  ltac:(exists (lit "John"), Sample.john,
                          [AddBirthday (lit "29.02.2000")];
                        split; reflexivity)) 18 E).
Defined.

Lemma replace_leap_day (b : datetime) (y : Z) :
  month b = 2 -> day b = 29 -> is_leap y = false ->
  replace_year b y = Raise (ValueError None).
Proof.
  intros M D L. unfold replace_year, Datetime.new, check_date_fields,
    days_in_month.
  rewrite M, D, L. cbn [Z.eqb Pos.eqb andb].
  change (item DAYS_IN_MONTH 2) with 28.
  destruct (negb _); [reflexivity|]. reflexivity.
Qed.

(** X10: in a year that is not a leap year a birthday on 29 February
    cannot be projected: [days_to_birthday] raises [ValueError] for the
    record, and [get_upcoming_birthdays] raises it for every book that
    holds such a record, whatever else is in the book. *)
Theorem leap_day_birthday_raises
  (today : datetime) (r : Record.t) (b : Birthday.t) :
  Record.birthday r = Some b ->
  month (Birthday.value b) = 2 -> day (Birthday.value b) = 29 ->
  is_leap (year today) = false ->
  Record.days_to_birthday today r = Raise (ValueError None)
  /\ (forall days book,
        In r (AddressBook.values book) ->
        raises (Spec.end_of_window today days) = false ->
        AddressBook.get_upcoming_birthdays today days book
        = Raise (ValueError None)).
Proof.
  intros B M D L.
  pose proof (replace_leap_day _ _ M D L) as R.
  split.
  - unfold Record.days_to_birthday. rewrite B, R. reflexivity.
  - intros days book I W. rewrite get_upcoming_birthdays_spec.
    destruct (Spec.end_of_window today days) as [e|]; [|discriminate].
    cbn [bind].
    assert (P : forallb (Spec.projectable today) (AddressBook.values book)
                = false).
    { destruct (forallb _ _) eqn:F; [|reflexivity].
      rewrite forallb_forall in F. specialize (F r I).
      unfold Spec.projectable, Spec.candidate in F. rewrite B, R in F.
      discriminate. }
    rewrite P. reflexivity.
Qed.

Lemma leap_day_birthday_raises_witness :
  Record.days_to_birthday (mk_datetime 2023 2 10 12 0 0 0)
    Sample.john_born_29_feb
  = Raise (ValueError None).
Proof.
  apply (proj1 (leap_day_birthday_raises (mk_datetime 2023 2 10 12 0 0 0)
                  Sample.john_born_29_feb
                  (Birthday.mk (mk_datetime 2000 2 29 0 0 0 0))
                  eq_refl eq_refl eq_refl eq_refl)).
Defined.

(** ** The result of the birthday query *)

Lemma get_upcoming_birthdays_returns (today : datetime) (days : Z)
  (book : AddressBook.t) (l : list Record.t) :
  AddressBook.get_upcoming_birthdays today days book = Ok l ->
  exists end_date,
    Spec.end_of_window today days = Ok end_date
    /\ forallb (Spec.projectable today) (AddressBook.values book) = true
    /\ l = Spec.upcoming today end_date book.
Proof.
  rewrite get_upcoming_birthdays_spec.
  destruct (Spec.end_of_window today days) as [end_date|]; [|discriminate].
  cbn [bind]. destruct (forallb _ _); [|discriminate].
  intros [= <-]. exists end_date. auto.
Qed.

(** X11: what [get_upcoming_birthdays] returns is a selection of the
    records of the book in the order of the book, and every record it
    returns has a birthday. *)
Theorem upcoming_are_records_with_birthdays
  (today : datetime) (days : Z) (book : AddressBook.t)
  (l : list Record.t) :
  AddressBook.get_upcoming_birthdays today days book = Ok l ->
  exists keep,
    l = filter keep (AddressBook.values book)
    /\ (forall r, keep r = true -> has_birthday r = true).
Proof.
  intros H. apply get_upcoming_birthdays_returns in H.
  destruct H as (end_date & _ & _ & ->).
  exists (Spec.included today end_date). split; [reflexivity|].
  intros r. unfold Spec.included, has_birthday.
  destruct (Record.birthday r); [reflexivity | discriminate].
Qed.

Lemma upcoming_are_records_with_birthdays_witness :
  exists keep,
    [Sample.john_born_10_feb]
    = filter keep (AddressBook.values Sample.book_of_john)
    /\ (forall r, keep r = true -> has_birthday r = true).
Proof.
  apply (upcoming_are_records_with_birthdays Sample.noon_10_feb_2024 366
           Sample.book_of_john).
  vm_compute. reflexivity.
Defined.

(** The end of a window that is representable, by its day number. *)
Lemma end_of_window_found (today end_date : datetime) (days : Z) :
  valid today -> Spec.end_of_window today days = Ok end_date ->
  valid end_date /\ toordinal end_date = toordinal today + days.
Proof.
  intros V. pose proof (toordinal_bounds today V) as B.
  unfold Spec.end_of_window. rewrite timedelta_new_normal by lia.
  destruct (Z.ltb_spec 999999999 (Z.abs days)) as [O|O]; [discriminate|].
  cbn [bind]. rewrite add_days by (auto; lia).
  destruct (Z.ltb_spec 0 (toordinal today + days)) as [P|P];
    [|discriminate].
  destruct (Z.leb_spec (toordinal today + days) MAXORDINAL) as [Q|Q];
    [|discriminate].
  cbn [andb]. intros [= <-].
  pose proof (ymd2ord_ord2ymd (toordinal today + days) ltac:(lia)) as I.
  destruct (ord2ymd (toordinal today + days)) as [[y m] d] eqn:E.
  destruct I as (Y & Mo & Dy & Or).
  destruct (valid_fields today V) as (_ & H & MI & S & US).
  assert (Y' : y <= 9999).
  { destruct (Z.le_gt_cases y 9999) as [?|G]; [assumption|exfalso].
    pose proof (days_before_year_mono 10000 y ltac:(lia)) as Mn.
    change (days_before_year 10000) with 3652059 in Mn.
    pose proof (ymd2ord_year_bounds y m d Mo Dy).
    unfold MAXORDINAL in *. lia. }
  split.
  - unfold valid. cbn [at_time_of year month day hour minute second
                       microsecond].
    apply new_ok; lia.
  - unfold toordinal. cbn [at_time_of year month day]. exact Or.
Qed.

(** Membership in a window that is representable, by day numbers. *)
Lemma included_iff_within (today end_date : datetime) (days : Z)
  (r : Record.t) :
  valid today -> Spec.end_of_window today days = Ok end_date ->
  birthday_at_midnight r ->
  Spec.included today end_date r = true
  <-> exists b c,
        Record.birthday r = Some b
        /\ Spec.candidate today (Birthday.value b) = Ok c
        /\ toordinal c <= toordinal today + days.
Proof.
  intros V W B. destruct (end_of_window_found _ _ _ V W) as [Ve Oe].
  unfold Spec.included.
  destruct (Record.birthday r) as [b|] eqn:Eb.
  - destruct (B b Eb) as [_ Mb].
    destruct (Spec.candidate today (Birthday.value b)) as [c|e] eqn:C.
    + destruct (candidate_not_before _ _ _ V Mb C) as (L & _).
      destruct (candidate_inv _ _ _ C) as (Vc & Mc & _). rewrite Mb in Mc.
      rewrite L. cbn [andb]. unfold Datetime.le.
      rewrite (compare_midnight_ordinal c _ Vc Mc Ve), Oe.
      split.
      * intros H. exists b, c. repeat split; auto.
        destruct (Z.compare_spec (toordinal c) (toordinal today + days))
          as [E|E|E]; [lia | lia | discriminate].
      * intros (b' & c' & Hb & Hc & O).
        injection Hb as <-. rewrite C in Hc. injection Hc as <-.
        destruct (Z.compare_spec (toordinal c) (toordinal today + days))
          as [E|E|E]; [|reflexivity|lia].
        destruct (midnight end_date); reflexivity.
    + split; [discriminate|]. intros (b' & c' & Hb & F & _).
      injection Hb as <-. rewrite C in F. discriminate.
  - split; [discriminate|]. intros (b' & c' & F & _). discriminate.
Qed.

(** X12: with a negative number of days [get_upcoming_birthdays], when
    it returns, returns no record. *)
Theorem no_upcoming_for_negative_days
  (today : datetime) (days : Z) (book : AddressBook.t)
  (l : list Record.t) :
  valid today -> reachable book -> days < 0 ->
  AddressBook.get_upcoming_birthdays today days book = Ok l ->
  l = [].
Proof.
  intros V R D H. apply get_upcoming_birthdays_returns in H.
  destruct H as (end_date & W & _ & ->).
  apply filter_none. intros r I.
  destruct (Spec.included today end_date r) eqn:E; [|reflexivity].
  exfalso.
  assert (B : birthday_at_midnight r)
    by (apply constructed_birthday,
          (reachable_values_constructed book r R I)).
  apply (included_iff_within _ _ _ _ V W B) in E.
  destruct E as (b & c & Eb & C & O).
  destruct (B b Eb) as [_ Mb].
  destruct (candidate_not_before _ _ _ V Mb C) as (_ & O1 & _). lia.
Qed.

Lemma no_upcoming_for_negative_days_witness :
  AddressBook.get_upcoming_birthdays Sample.midnight_10_feb_2024 (-1)
    Sample.book_of_john
  = Ok [].
Proof.
  destruct (AddressBook.get_upcoming_birthdays Sample.midnight_10_feb_2024
              (-1) Sample.book_of_john) as [l|e] eqn:E.
  - rewrite (no_upcoming_for_negative_days Sample.midnight_10_feb_2024 (-1)
               Sample.book_of_john l
               ltac:(vm_compute; reflexivity) reachable_book_of_john
               ltac:(lia) E).
    reflexivity.
  - vm_compute in E. discriminate.
Defined.

(** X13: a longer window returns every record a shorter one returns. *)
Theorem longer_window_returns_more
  (today : datetime) (days1 days2 : Z) (book : AddressBook.t)
  (l1 l2 : list Record.t) :
  valid today -> reachable book -> days1 <= days2 ->
  AddressBook.get_upcoming_birthdays today days1 book = Ok l1 ->
  AddressBook.get_upcoming_birthdays today days2 book = Ok l2 ->
  incl l1 l2.
Proof.
  intros V R D H1 H2.
  apply get_upcoming_birthdays_returns in H1, H2.
  destruct H1 as (e1 & W1 & _ & ->). destruct H2 as (e2 & W2 & _ & ->).
  intros r I. unfold Spec.upcoming in *.
  apply filter_In in I. destruct I as [I E]. apply filter_In.
  split; [exact I|].
  assert (B : birthday_at_midnight r)
    by (apply constructed_birthday,
          (reachable_values_constructed book r R I)).
  apply (included_iff_within _ _ _ _ V W2 B).
  apply (included_iff_within _ _ _ _ V W1 B) in E.
  destruct E as (b & c & Eb & C & O). exists b, c. repeat split; auto. lia.
Qed.

Lemma longer_window_returns_more_witness :
  let jane := Record.mk (Name.mk (lit "Jane")) []
                (Some (Birthday.mk (mk_datetime 1995 2 15 0 0 0 0))) in
  let book := AddressBook.add_record jane Sample.book_of_john in
  AddressBook.get_upcoming_birthdays Sample.midnight_10_feb_2024 0 book
  = Ok [Sample.john_born_10_feb]
  /\ AddressBook.get_upcoming_birthdays Sample.midnight_10_feb_2024 7 book
     = Ok [Sample.john_born_10_feb; jane]
  /\ incl [Sample.john_born_10_feb] [Sample.john_born_10_feb; jane].
Proof.
  cbv zeta.
  split; [vm_compute; reflexivity|]. split; [vm_compute; reflexivity|].
  apply (longer_window_returns_more Sample.midnight_10_feb_2024 0 7
           (AddressBook.add_record
              (Record.mk (Name.mk (lit "Jane")) []
                 (Some (Birthday.mk (mk_datetime 1995 2 15 0 0 0 0))))
              Sample.book_of_john)).
  - vm_compute. reflexivity.
  - apply reach_add_record; [apply reachable_book_of_john|].
    exists (lit "Jane"), (Record.mk (Name.mk (lit "Jane")) [] None),
      [AddBirthday (lit "15.02.1995")].
    split; reflexivity.
  - lia.
  - vm_compute. reflexivity.
  - vm_compute. reflexivity.
Defined.

(** X14: a window of 366 days or more returns every record of the book
    that has a birthday. *)
Theorem window_of_a_year_returns_all
  (today : datetime) (days : Z) (book : AddressBook.t)
  (l : list Record.t) :
  valid today -> reachable book -> 366 <= days ->
  AddressBook.get_upcoming_birthdays today days book = Ok l ->
  l = filter has_birthday (AddressBook.values book).
Proof.
  intros V R D H. apply get_upcoming_birthdays_returns in H.
  destruct H as (end_date & W & P & ->). unfold Spec.upcoming.
  assert (A : forall r, In r (AddressBook.values book) ->
              Spec.included today end_date r = has_birthday r).
  { intros r I.
    assert (B : birthday_at_midnight r)
      by (apply constructed_birthday,
            (reachable_values_constructed book r R I)).
    rewrite forallb_forall in P. specialize (P r I).
    unfold has_birthday. unfold Spec.projectable in P.
    destruct (Record.birthday r) as [b|] eqn:Eb.
    - apply (included_iff_within _ _ _ _ V W B).
      destruct (Spec.candidate today (Birthday.value b)) as [c|] eqn:C;
        [|discriminate].
      exists b, c. repeat split; auto.
      destruct (B b Eb) as [_ Mb].
      pose proof (candidate_within_a_year _ _ _ V Mb C) as O.
      destruct (midnight today); lia.
    - unfold Spec.included. rewrite Eb. reflexivity. }
  revert A. generalize (AddressBook.values book).
  induction l as [|r l IH]; intros A; [reflexivity|]. cbn [filter].
  rewrite (A r (or_introl eq_refl)), IH; [reflexivity|].
  intros x Hx. apply A. right. exact Hx.
Qed.

Lemma window_of_a_year_returns_all_witness :
  [Sample.john_born_10_feb]
  = filter has_birthday (AddressBook.values Sample.book_of_john).
Proof.
  apply (window_of_a_year_returns_all Sample.noon_10_feb_2024 366
           Sample.book_of_john [Sample.john_born_10_feb]
           ltac:(vm_compute; reflexivity) reachable_book_of_john
           ltac:(lia)).
  vm_compute. reflexivity.
Defined.

(** ** The command handlers *)

Lemma setitem_same (key : str) (r : Record.t) (book : AddressBook.t) :
  AddressBook.find key book = Some r ->
  AddressBook.setitem key r book = book.
Proof.
  unfold AddressBook.find.
  induction book as [|[k v] book IH]; simpl; [discriminate|].
  destruct (str_eqb k key) eqn:E; simpl.
  - intros [= ->]. reflexivity.
  - intros F. rewrite (IH F). reflexivity.
Qed.

Lemma setitem_setitem (key : str) (r1 r2 : Record.t) (book : AddressBook.t) :
  AddressBook.setitem key r2 (AddressBook.setitem key r1 book)
  = AddressBook.setitem key r2 book.
Proof.
  induction book as [|[k v] book IH]; simpl.
  - rewrite str_eqb_refl. reflexivity.
  - destruct (str_eqb k key) eqn:E; simpl; rewrite E; [reflexivity|].
    rewrite IH. reflexivity.
Qed.

Lemma Record_init_ok (name : str) :
  name <> [] -> Record.init name = Ok (Record.mk (Name.mk name) [] None).
Proof. destruct name; [congruence | reflexivity]. Qed.

(** X15: in the second variant, [add_contact] for a name that is not in
    the book and a phone that is not valid.  For a name that is not empty
    the contact has been put into the book, without a phone, before the
    phone is looked at: the answer is the phone error, or, for the empty
    phone, which [if phone:] skips, "Contact added.".  For the empty name
    the answer is "Name cannot be empty." and nothing is added. *)
Theorem add_contact_leaves_contact_without_phone
  (name phone : str) (rest : list str) (book : AddressBook.t) :
  AddressBook.find name book = None ->
  Phone.validate_phone phone = false ->
  Task2.add_contact (name :: phone :: rest) book
  = match name with
    | [] => (Returned (Text (lit "Name cannot be empty.")), book)
    | _ :: _ =>
        (Returned
           (Text (match phone with
                  | [] => lit "Contact added."
                  | _ :: _ =>
                      lit "Phone number must contain exactly 10 digits."
                  end)),
         book ++ [(name, Record.mk (Name.mk name) [] None)])
    end.
Proof.
  intros F V.
  unfold Task2.add_contact, Task2.decorate, input_error,
    Task2.add_contact_body, unpack2, hbind, ret, gets, lift, modify,
    call_stored.
  rewrite F. destruct name as [|n name]; [reflexivity|].
  rewrite (Record_init_ok (n :: name)) by discriminate.
  unfold AddressBook.add_record. cbn [Record.name Name.value].
  destruct phone as [|c phone].
  - rewrite (setitem_absent _ _ _ F). reflexivity.
  - rewrite (add_phone_raise _ _ V). unfold phone_error.
    rewrite setitem_setitem, (setitem_absent _ _ _ F). reflexivity.
Qed.

Lemma add_contact_leaves_contact_without_phone_witness :
  Task2.add_contact [lit "Jane"; lit "12345"] Sample.book_of_john
  = (Returned
       (Text (lit "Phone number must contain exactly 10 digits.")),
     Sample.book_of_john
     ++ [(lit "Jane", Record.mk (Name.mk (lit "Jane")) [] None)]).
Proof.
  apply (add_contact_leaves_contact_without_phone (lit "Jane") (lit "12345")
           [] Sample.book_of_john);
    reflexivity.
Defined.

(** X16: in the first variant, [Bot.add] with a phone that is not valid
    leaves the book as it was, for a new name and for a name that is in
    the book; for a non-empty name it answers with the phone error. *)
Theorem bot_add_invalid_phone_changes_nothing
  (name phone : str) (book : AddressBook.t) :
  Phone.validate_phone phone = false ->
  snd (Bot.add [name; phone] book) = book
  /\ (name <> [] ->
      fst (Bot.add [name; phone] book)
      = Returned
          (Text (lit "Phone number must contain exactly 10 digits."))).
Proof.
  intros V.
  unfold Bot.add, Bot.decorate, input_error, Bot.add_body, unpack_pair,
    hbind, ret, gets, lift, modify, call_stored.
  destruct (AddressBook.contains name book) eqn:C.
  - destruct (AddressBook.find name book) as [r|] eqn:F.
    + rewrite (add_phone_raise _ _ V). unfold phone_error. cbn [fst snd].
      rewrite (setitem_same _ _ _ F). auto.
    + apply contains_find in C. congruence.
  - destruct name as [|c name].
    + cbn. split; [reflexivity | congruence].
    + rewrite Record_init_ok by discriminate.
      rewrite (add_phone_raise _ _ V). unfold phone_error. cbn. auto.
Qed.

Lemma bot_add_invalid_phone_changes_nothing_witness :
  snd (Bot.add [lit "Jane"; lit "12345"] Sample.book_of_john)
  = Sample.book_of_john.
Proof.
  apply (proj1 (bot_add_invalid_phone_changes_nothing
                  (lit "Jane") (lit "12345") Sample.book_of_john
                  eq_refl)).
Defined.

(** X17: with a non-empty name and a valid phone both variants of adding
    a contact leave the same book: a new contact with that one phone at
    the end of the book, or the contact that was there with the phone
    appended.  The first variant answers "Contact added." in both cases,
    the second "Contact updated." for a contact that was there. *)
Theorem add_valid_phone (name phone : str) (book : AddressBook.t) :
  name <> [] -> Phone.validate_phone phone = true ->
  let record :=
    match AddressBook.find name book with
    | Some r => Record.mk (Record.name r)
                          (Record.phones r ++ [Phone.mk phone])
                          (Record.birthday r)
    | None => Record.mk (Name.mk name) [Phone.mk phone] None
    end in
  Task2.add_contact [name; phone] book
  = (Returned (Text (match AddressBook.find name book with
                     | Some _ => lit "Contact updated."
                     | None => lit "Contact added."
                     end)),
     AddressBook.setitem name record book)
  /\ Bot.add [name; phone] book
     = (Returned (Text (lit "Contact added.")),
        AddressBook.setitem name record book).
Proof.
  intros N V. cbv zeta.
  assert (P : phone <> []) by (intros ->; discriminate).
  unfold Task2.add_contact, Task2.decorate, Bot.add, Bot.decorate,
    input_error, Task2.add_contact_body, Bot.add_body, unpack2,
    unpack_pair, hbind, ret, gets, lift, modify, call_stored.
  destruct (AddressBook.find name book) as [r|] eqn:F.
  - assert (C : AddressBook.contains name book = true)
      by (apply contains_find; congruence).
    rewrite C, F. destruct phone as [|c phone]; [congruence|].
    rewrite (add_phone_ok _ _ V). auto.
  - assert (C : AddressBook.contains name book = false).
    { destruct (AddressBook.contains name book) eqn:C; [|reflexivity].
      apply contains_find in C. congruence. }
    rewrite C, (Record_init_ok name N).
    destruct phone as [|c phone]; [congruence|].
    rewrite !(add_phone_ok _ _ V). cbn [Record.name Record.phones
                                        Record.birthday app].
    unfold AddressBook.add_record. cbn [Record.name Name.value].
    rewrite setitem_setitem. auto.
Qed.

Lemma add_valid_phone_witness :
  Bot.add [lit "John"; Sample.phone_a] Sample.book_of_john
  = (Returned (Text (lit "Contact added.")),
     [(lit "John",
       Record.mk (Name.mk (lit "John")) [Phone.mk Sample.phone_a]
                 (Some (Birthday.mk (mk_datetime 1990 2 10 0 0 0 0))))]).
Proof.
  apply (proj2 (add_valid_phone (lit "John") Sample.phone_a
                  Sample.book_of_john ltac:(discriminate) eq_refl)).
Defined.

(** X18: [change_contact] for a contact that has no phone with the old
    number answers "Phone number updated." and changes nothing, whether
    the new number is valid or not. *)
Theorem change_contact_without_old_phone
  (name old_phone new_phone : str) (rest : list str)
  (book : AddressBook.t) (r : Record.t) :
  AddressBook.find name book = Some r ->
  Record.find_phone old_phone r = None ->
  Task2.change_contact (name :: old_phone :: new_phone :: rest) book
  = (Returned (Text (lit "Phone number updated.")), book).
Proof.
  intros F O.
  unfold Task2.change_contact, Task2.decorate, input_error,
    Task2.change_contact_body, unpack3, hbind, ret, gets, call_stored.
  rewrite F, (edit_phone_absent _ _ _ O), (setitem_same _ _ _ F).
  reflexivity.
Qed.

Lemma change_contact_without_old_phone_witness :
  Task2.change_contact [lit "John"; Sample.phone_a; lit "x"]
    Sample.book_of_john
  = (Returned (Text (lit "Phone number updated.")), Sample.book_of_john).
Proof.
  apply (change_contact_without_old_phone (lit "John") Sample.phone_a
           (lit "x") [] Sample.book_of_john Sample.john_born_10_feb);
    reflexivity.
Defined.

Lemma snd_input_error (key_text index_text : string) (func : handler str)
  (book : AddressBook.t) :
  snd (input_error key_text index_text func book) = snd (func book).
Proof.
  unfold input_error. destruct (func book) as [[s|[[[m|]|]| |]] book'];
    reflexivity.
Qed.

Lemma snd_call_stored {A : Type} (key : str) (record : Record.t)
  (m : Record.method A) (book : AddressBook.t) :
  snd (call_stored key record m book)
  = AddressBook.setitem key (snd (m record)) book.
Proof.
  unfold call_stored. destruct (m record) as [[a|e] record']; reflexivity.
Qed.

Lemma call_stored_reachable (key : str) (record : Record.t) (c : call)
  (book : AddressBook.t) :
  reachable book -> AddressBook.find key book = Some record ->
  reachable (snd (call_stored key record (run_call c) book)).
Proof.
  intros R F. rewrite snd_call_stored. apply (reach_call book key record c R F).
Qed.

Lemma constructed_init (name : str) (r : Record.t) :
  Record.init name = Ok r -> constructed r.
Proof. intros I. exists name, r, []. auto. Qed.

Lemma add_contact_reachable (args : list str) (book : AddressBook.t) :
  reachable book -> reachable (snd (Task2.add_contact args book)).
Proof.
  intros R. unfold Task2.add_contact, Task2.decorate.
  rewrite snd_input_error. unfold Task2.add_contact_body, unpack2.
  destruct args as [|name [|phone rest]]; try exact R.
  unfold hbind, ret, gets, lift, modify. cbn [fst snd].
  destruct (AddressBook.find name book) as [r|] eqn:F.
  - destruct phone as [|c phone]; [exact R|].
    pose proof (call_stored_reachable name r (AddPhone (c :: phone)) book
                  R F) as H.
    cbn [run_call] in H.
    destruct (call_stored name r (Record.add_phone (c :: phone)) book)
      as [[u|e] book']; exact H.
  - destruct (Record.init name) as [r|e] eqn:I; [|exact R].
    assert (R1 : reachable (AddressBook.add_record r book))
      by (apply reach_add_record; [exact R | apply (constructed_init _ _ I)]).
    destruct phone as [|c phone]; [exact R1|].
    assert (F1 : AddressBook.find name (AddressBook.add_record r book)
                 = Some r).
    { unfold AddressBook.add_record. rewrite find_setitem.
      apply Record_init_inv in I. destruct I as [_ ->].
      cbn [Record.name Name.value]. rewrite str_eqb_refl. reflexivity. }
    pose proof (call_stored_reachable name r (AddPhone (c :: phone)) _
                  R1 F1) as H.
    cbn [run_call] in H.
    destruct (call_stored name r (Record.add_phone (c :: phone))
                (AddressBook.add_record r book)) as [[u|e] book']; exact H.
Qed.

Lemma stored_call_reachable (key : str) (c : call) (reply : str)
  (book : AddressBook.t) :
  reachable book ->
  reachable
    (snd (hbind (gets (AddressBook.find key))
            (fun found =>
               match found with
               | None => ret (lit "Contact not found.")
               | Some record =>
                   hbind (call_stored key record (run_call c))
                         (fun _ => ret reply)
               end) book)).
Proof.
  intros R. unfold hbind, gets, ret. cbn [fst snd].
  destruct (AddressBook.find key book) as [r|] eqn:F; [|exact R].
  pose proof (call_stored_reachable key r c book R F) as H.
  destruct (call_stored key r (run_call c) book) as [[u|e] book']; exact H.
Qed.

Lemma change_contact_reachable (args : list str) (book : AddressBook.t) :
  reachable book -> reachable (snd (Task2.change_contact args book)).
Proof.
  intros R. unfold Task2.change_contact, Task2.decorate.
  rewrite snd_input_error. unfold Task2.change_contact_body, unpack3.
  destruct args as [|name [|old_phone [|new_phone rest]]]; try exact R.
  apply (stored_call_reachable name (EditPhone old_phone new_phone) _ book R).
Qed.

Lemma add_birthday_reachable (args : list str) (book : AddressBook.t) :
  reachable book -> reachable (snd (Task2.add_birthday args book)).
Proof.
  intros R. unfold Task2.add_birthday, Task2.decorate.
  rewrite snd_input_error. unfold Task2.add_birthday_body, unpack2.
  destruct args as [|name [|birthday rest]]; try exact R.
  apply (stored_call_reachable name (AddBirthday birthday) _ book R).
Qed.

Lemma bot_add_birthday_reachable (args : list str) (book : AddressBook.t) :
  reachable book -> reachable (snd (Bot.add_birthday args book)).
Proof.
  intros R. unfold Bot.add_birthday, Bot.decorate.
  rewrite snd_input_error. unfold Bot.add_birthday_body, unpack_pair.
  destruct args as [|name [|birthday [|x rest]]]; try exact R.
  apply (stored_call_reachable name (AddBirthday birthday) _ book R).
Qed.

Lemma bot_add_reachable (args : list str) (book : AddressBook.t) :
  reachable book -> reachable (snd (Bot.add args book)).
Proof.
  intros R. unfold Bot.add, Bot.decorate.
  rewrite snd_input_error. unfold Bot.add_body, unpack_pair.
  destruct args as [|name [|phone [|x rest]]]; try exact R.
  unfold hbind, ret, gets, lift, modify. cbn [fst snd].
  destruct (AddressBook.contains name book).
  - destruct (AddressBook.find name book) as [r|] eqn:F; [|exact R].
    pose proof (call_stored_reachable name r (AddPhone phone) book R F) as H.
    cbn [run_call] in H.
    destruct (call_stored name r (Record.add_phone phone) book)
      as [[u|e] book']; exact H.
  - destruct (Record.init name) as [r|e] eqn:I; [|exact R].
    pose proof (constructed_call (AddPhone phone) r
                  (constructed_init _ _ I)) as C.
    cbn [run_call] in C.
    destruct (Record.add_phone phone r) as [[u|e] r']; [|exact R].
    cbn [snd] in *. apply reach_add_record; assumption.
Qed.

Lemma reading_handlers_frame
  (today : datetime) (libc_pads_year : bool) (args : list str)
  (book : AddressBook.t) :
  snd (Task2.show_phone args book) = book
  /\ snd (Task2.show_all_contacts libc_pads_year args book) = book
  /\ snd (Task2.show_birthday libc_pads_year args book) = book
  /\ snd (Task2.birthdays today libc_pads_year args book) = book
  /\ snd (Bot.phone args book) = book
  /\ snd (Bot.show_all libc_pads_year args book) = book
  /\ snd (Bot.birthday libc_pads_year args book) = book
  /\ snd (Bot.upcoming_birthdays today libc_pads_year args book) = book.
Proof.
  unfold Task2.show_phone, Task2.show_all_contacts, Task2.show_birthday,
    Task2.birthdays, Task2.decorate, Bot.phone, Bot.show_all, Bot.birthday,
    Bot.upcoming_birthdays, Bot.decorate.
  rewrite !snd_input_error.
  unfold Task2.show_phone_body, Task2.show_all_contacts_body,
    Task2.show_birthday_body, Task2.birthdays_body, Bot.phone_body,
    Bot.show_all_body, Bot.birthday_body, Bot.upcoming_birthdays_body,
    unpack1, first_arg, hbind, ret, raise, gets, lift.
  destruct args as [|a rest]; cbn [fst snd]; repeat split;
    try reflexivity;
    try (destruct (AddressBook.find a book) as [r|]; [|reflexivity];
         destruct (Record.birthday r); reflexivity);
    destruct (Text.int a) as [days|e]; try reflexivity;
    destruct (AddressBook.get_upcoming_birthdays today days book);
    reflexivity.
Qed.

(** X19: the handlers that show something leave the book exactly as it
    was, whatever the arguments and also when they raise or answer with an
    error. *)
Theorem reading_handlers_keep_the_book
  (today : datetime) (libc_pads_year : bool) (args : list str)
  (book : AddressBook.t) :
  snd (Task2.show_phone args book) = book
  /\ snd (Task2.show_all_contacts libc_pads_year args book) = book
  /\ snd (Task2.show_birthday libc_pads_year args book) = book
  /\ snd (Task2.birthdays today libc_pads_year args book) = book
  /\ snd (Bot.phone args book) = book
  /\ snd (Bot.show_all libc_pads_year args book) = book
  /\ snd (Bot.birthday libc_pads_year args book) = book
  /\ snd (Bot.upcoming_birthdays today libc_pads_year args book) = book.
Proof. apply reading_handlers_frame. Qed.

Lemma snd_then_ret {A B : Type} (h : handler A) (f : A -> B)
  (book : AddressBook.t) :
  snd (hbind h (fun r => ret (f r)) book) = snd (h book).
Proof.
  unfold hbind, ret. destruct (h book) as [[a|e] book']; reflexivity.
Qed.

(** X20: one turn of the loop of the second variant takes a book the
    program can hold to a book the program can hold, whatever the line
    typed and whether the turn raises: the invariants of such books (keys
    are the names, no double keys, validated phones, birthdays that are
    dates) survive every command. *)
Theorem main_turn_keeps_reachable
  (today : datetime) (libc_pads_year : bool) (user_input : str)
  (book : AddressBook.t) :
  reachable book ->
  reachable (snd (Task2.main_turn today libc_pads_year user_input book)).
Proof.
  intros R. unfold Task2.main_turn, unpack_pair.
  destruct (Task2.parse_input user_input) as [|command [|args_str [|x l]]];
    try exact R.
  unfold hbind at 1. unfold ret at 1. cbn [fst snd].
  set (args := match args_str with [] => [] | _ => Text.split args_str end).
  pose proof (reading_handlers_frame today libc_pads_year args book)
    as (P1 & P2 & P3 & P4 & _).
  repeat match goal with
         | |- context [if ?c then _ else _] => destruct c
         end;
    try exact R;
    rewrite (snd_then_ret _ (fun r => (r, true)));
    first [ apply add_contact_reachable, R
          | apply change_contact_reachable, R
          | apply add_birthday_reachable, R
          | rewrite P1; exact R
          | rewrite P2; exact R
          | rewrite P3; exact R
          | rewrite P4; exact R ].
Qed.

Lemma main_turn_keeps_reachable_witness :
  reachable
    (snd (Task2.main_turn Sample.noon_10_feb_2024 false
            (lit "add Jane 12345") Sample.book_of_john)).
Proof.
  apply main_turn_keeps_reachable, reachable_book_of_john.
Defined.

(** X21: every handler of the bot of the first variant takes a book the
    program can hold to a book the program can hold, whatever the
    arguments and whether it answers with an error. *)
Theorem bot_handlers_keep_reachable
  (today : datetime) (libc_pads_year : bool) (args : list str)
  (book : AddressBook.t) :
  reachable book ->
  reachable (snd (Bot.add args book))
  /\ reachable (snd (Bot.add_birthday args book))
  /\ reachable (snd (Bot.phone args book))
  /\ reachable (snd (Bot.show_all libc_pads_year args book))
  /\ reachable (snd (Bot.birthday libc_pads_year args book))
  /\ reachable (snd (Bot.upcoming_birthdays today libc_pads_year args book)).
Proof.
  intros R.
  pose proof (reading_handlers_frame today libc_pads_year args book)
    as (_ & _ & _ & _ & P1 & P2 & P3 & P4).
  rewrite P1, P2, P3, P4.
  repeat split; try exact R.
  - apply bot_add_reachable, R.
  - apply bot_add_birthday_reachable, R.
Qed.

Lemma bot_handlers_keep_reachable_witness :
  reachable (snd (Bot.add [lit "Jane"; Sample.phone_b] Sample.book_of_john)).
Proof.
  apply (proj1 (bot_handlers_keep_reachable Sample.noon_10_feb_2024 false
                  [lit "Jane"; Sample.phone_b] Sample.book_of_john
                  reachable_book_of_john)).
Defined.

(** ** Reading a line *)

Lemma split_once_without (sep : N) (s before : str) :
  ~ In sep s -> Text.split_once_from sep s before = [before ++ s].
Proof.
  revert before. induction s as [|c s IH]; intros before H; simpl.
  - rewrite app_nil_r. reflexivity.
  - destruct (N.eqb_spec c sep) as [->|N]; [exfalso; apply H; left; auto|].
    rewrite IH by (intros I; apply H; right; exact I).
    rewrite <- app_assoc. reflexivity.
Qed.

Lemma split_once_at (sep : N) (a rest before : str) :
  ~ In sep a ->
  Text.split_once_from sep (a ++ sep :: rest) before = [before ++ a; rest].
Proof.
  revert before. induction a as [|c a IH]; intros before H; simpl.
  - rewrite N.eqb_refl, app_nil_r. reflexivity.
  - destruct (N.eqb_spec c sep) as [->|N]; [exfalso; apply H; left; auto|].
    rewrite IH by (intros I; apply H; right; exact I).
    rewrite <- app_assoc. reflexivity.
Qed.

(** X22: in the loop of the second variant a line has to hold a space
    after its first word once the whitespace around it is stripped:
    without one the turn raises the [ValueError] of unpacking one value
    into two names and no command is run; "exit" and "close" end the loop
    only when a space and more text follow them. *)
Theorem main_turn_needs_a_space
  (today : datetime) (libc_pads_year : bool) (user_input : str)
  (book : AddressBook.t) :
  (~ In 32%N (Text.strip user_input) ->
   Task2.main_turn today libc_pads_year user_input book
   = (Uncaught (Core (not_enough_for_two 1)), book))
  /\ (forall command rest,
        Text.strip user_input = command ++ 32%N :: rest ->
        command = lit "exit" \/ command = lit "close" ->
        Task2.main_turn today libc_pads_year user_input book
        = (Returned (Text (lit "Good bye!"), false), book)).
Proof.
  unfold Task2.main_turn, Task2.parse_input, Text.split_once. split.
  - intros H. rewrite (split_once_without _ _ _ H). reflexivity.
  - intros command rest E C. rewrite E.
    rewrite split_once_at by (destruct C as [->| ->]; simpl; intuition
                                discriminate).
    destruct C as [->| ->]; reflexivity.
Qed.

Lemma main_turn_needs_a_space_witness :
  Task2.main_turn Sample.noon_10_feb_2024 false (lit "exit")
    Sample.book_of_john
  = (Uncaught (Core (not_enough_for_two 1)), Sample.book_of_john)
  /\ Task2.main_turn Sample.noon_10_feb_2024 false (lit "  exit now ")
       Sample.book_of_john
     = (Returned (Text (lit "Good bye!"), false), Sample.book_of_john).
Proof.
  destruct (main_turn_needs_a_space Sample.noon_10_feb_2024 false
              (lit "exit") Sample.book_of_john) as [A _].
  destruct (main_turn_needs_a_space Sample.noon_10_feb_2024 false
              (lit "  exit now ") Sample.book_of_john) as [_ B].
  split.
  - apply A. vm_compute. intuition discriminate.
  - apply (B (lit "exit") (lit "now")); [reflexivity | left; reflexivity].
Defined.

Lemma end_of_window_overflow (today : datetime) (days : Z) :
  valid today ->
  toordinal today + days < 1 \/ MAXORDINAL < toordinal today + days ->
  Spec.end_of_window today days = Raise OverflowError.
Proof.
  intros V O. unfold Spec.end_of_window.
  rewrite timedelta_new_normal by lia.
  destruct (Z.ltb_spec 999999999 (Z.abs days)) as [A|A]; [reflexivity|].
  cbn [bind]. rewrite add_days by (auto; lia).
  replace ((0 <? toordinal today + days)
           && (toordinal today + days <=? MAXORDINAL)) with false;
    [reflexivity|].
  symmetry. apply andb_false_iff. destruct O as [O|O].
  - left. apply Z.ltb_ge. lia.
  - right. apply Z.leb_gt. lia.
Qed.

(** X23: a number of days that leads past the last day of the year 9999
    or before the first day of the year 1 is not answered: the query
    raises [OverflowError], which [input_error] does not catch, so the
    handler of either variant raises it too. *)
Theorem birthdays_overflow_is_not_caught
  (today : datetime) (libc_pads_year : bool) (text : str) (days : Z)
  (rest : list str) (book : AddressBook.t) :
  valid today -> Text.int text = Ok days ->
  toordinal today + days < 1 \/ MAXORDINAL < toordinal today + days ->
  AddressBook.get_upcoming_birthdays today days book = Raise OverflowError
  /\ Task2.birthdays today libc_pads_year (text :: rest) book
     = (Uncaught (Core OverflowError), book)
  /\ Bot.upcoming_birthdays today libc_pads_year (text :: rest) book
     = (Uncaught (Core OverflowError), book).
Proof.
  intros V I O.
  assert (G : AddressBook.get_upcoming_birthdays today days book
              = Raise OverflowError).
  { rewrite get_upcoming_birthdays_spec, (end_of_window_overflow _ _ V O).
    reflexivity. }
  split; [exact G|].
  unfold Task2.birthdays, Task2.decorate, Task2.birthdays_body,
    Bot.upcoming_birthdays, Bot.decorate, Bot.upcoming_birthdays_body,
    input_error, first_arg, hbind, ret, gets, lift.
  rewrite I, G. auto.
Qed.

Lemma birthdays_overflow_is_not_caught_witness :
  Task2.birthdays Sample.noon_10_feb_2024 false [lit "3000000"]
    Sample.book_of_john
  = (Uncaught (Core OverflowError), Sample.book_of_john).
Proof.
  apply (proj1 (proj2 (birthdays_overflow_is_not_caught
                         Sample.noon_10_feb_2024 false (lit "3000000")
                         3000000 [] Sample.book_of_john
                         ltac:(vm_compute; reflexivity)
                         ltac:(vm_compute; reflexivity)
                         ltac:(right; vm_compute; reflexivity)))).
Defined.

Lemma split_runs_words (s word : str) :
  forallb (fun c => negb (Text.char_isspace c)) word = true ->
  Forall is_word (Text.split_runs s word)
  /\ List.concat (Text.split_runs s word)
     = word ++ filter (fun c => negb (Text.char_isspace c)) s.
Proof.
  revert word. induction s as [|c s IH]; intros word W; simpl.
  - rewrite app_nil_r. destruct word as [|x word]; simpl.
    + auto.
    + rewrite app_nil_r. split; [|reflexivity].
      constructor; [|constructor]. split; [discriminate | exact W].
  - destruct (Text.char_isspace c) eqn:S; simpl.
    + destruct (IH [] eq_refl) as [F C].
      destruct word as [|x word]; simpl.
      * auto.
      * rewrite C. split; [|reflexivity].
        constructor; [|exact F]. split; [discriminate | exact W].
    + assert (W' : forallb (fun c => negb (Text.char_isspace c))
                     (word ++ [c]) = true).
      { rewrite forallb_app, W. simpl. rewrite S. reflexivity. }
      destruct (IH _ W') as [F C]. split; [exact F|].
      rewrite C, <- app_assoc. reflexivity.
Qed.

(** X24: the words [str.split()] cuts a text into are never empty and
    hold no whitespace, and put together they are the text without its
    whitespace: the arguments the loop hands to a handler are such
    words. *)
Theorem split_gives_words (s : str) :
  Forall is_word (Text.split s)
  /\ List.concat (Text.split s)
     = filter (fun c => negb (Text.char_isspace c)) s.
Proof. apply (split_runs_words s [] eq_refl). Qed.

(** ** Birthdays through the handlers *)

Lemma Birthday_init_raises (text : str) :
  (forall b, Birthday.init text <> Ok b) ->
  Birthday.init text
  = Raise (ValueError (Some "Invalid date format. Use DD.MM.YYYY"%string)).
Proof.
  unfold Birthday.init, Strptime.strptime, Datetime.new.
  destruct (Strptime.format_regex text) as [|[[[d m] y] rest] l];
    [reflexivity|].
  destruct rest; [|reflexivity].
  unfold check_date_fields, check_time_fields.
  repeat match goal with
         | |- context [if ?c then _ else _] => destruct c; cbn [bind]
         end;
    intros H; try reflexivity.
  exfalso. eapply H. reflexivity.
Qed.

(** X25: [add_birthday] through either variant's handler, for a contact
    of the book: a text that [Birthday] reads puts the date on the stored
    contact, in its place in the book, and asking for the birthday then
    shows it rendered with [%d.%m.%Y]; a text that [Birthday] rejects is
    answered with "Invalid date format. Use DD.MM.YYYY" and the book stays
    as it was, the birthday set before included. *)
Theorem show_birthday_after_add_birthday
  (libc_pads_year : bool) (name text : str) (book : AddressBook.t)
  (r : Record.t) :
  AddressBook.find name book = Some r ->
  (forall b, Birthday.init text = Ok b ->
     let book' :=
       AddressBook.setitem name
         (Record.mk (Record.name r) (Record.phones r) (Some b)) book in
     let shown :=
       Text (lit "Birthday for " ++ name ++ lit ": "
             ++ Strptime.strftime libc_pads_year (Birthday.value b)) in
     Task2.add_birthday [name; text] book
     = (Returned (Text (lit "Birthday added.")), book')
     /\ Bot.add_birthday [name; text] book
        = (Returned (Text (lit "Birthday added.")), book')
     /\ Task2.show_birthday libc_pads_year [name] book'
        = (Returned shown, book')
     /\ Bot.birthday libc_pads_year [name] book' = (Returned shown, book'))
  /\ ((forall b, Birthday.init text <> Ok b) ->
      Task2.add_birthday [name; text] book
      = (Returned (Text (lit "Invalid date format. Use DD.MM.YYYY")), book)
      /\ Bot.add_birthday [name; text] book
         = (Returned (Text (lit "Invalid date format. Use DD.MM.YYYY")),
            book)).
Proof.
  intros F. split.
  - intros b I book' shown.
    assert (F' : AddressBook.find name book'
                 = Some (Record.mk (Record.name r) (Record.phones r)
                           (Some b))).
    { unfold book'. rewrite find_setitem, str_eqb_refl. reflexivity. }
    unfold Task2.add_birthday, Bot.add_birthday, Task2.show_birthday,
      Bot.birthday, Task2.add_birthday_body, Bot.add_birthday_body,
      Task2.show_birthday_body, Bot.birthday_body,
      Task2.decorate, Bot.decorate,
      input_error, unpack2, unpack_pair, unpack1, first_arg,
      hbind, ret, gets, call_stored, Record.add_birthday, Record.mbind,
      Record.lift, Record.set_birthday.
    repeat split; cbv beta; rewrite ?F, ?F', ?I;
      cbn -[lit Strptime.strftime app]; reflexivity.
  - intros N. pose proof (Birthday_init_raises text N) as I.
    unfold Task2.add_birthday, Task2.decorate, Task2.add_birthday_body,
      Bot.add_birthday, Bot.decorate, Bot.add_birthday_body,
      input_error, unpack2, unpack_pair, hbind, ret, gets, call_stored,
      Record.add_birthday, Record.mbind, Record.lift.
    cbv beta. rewrite F, I. cbn -[lit]. rewrite (setitem_same _ _ _ F). auto.
Qed.

Lemma show_birthday_after_add_birthday_witness :
  Task2.show_birthday false [lit "John"]
    (AddressBook.setitem (lit "John")
       (Record.mk (Name.mk (lit "John")) [] 
          (Some (Birthday.mk (mk_datetime 2000 2 29 0 0 0 0))))
       Sample.book_of_john)
  = (Returned (Text (lit "Birthday for John: 29.02.2000")),
     AddressBook.setitem (lit "John")
       (Record.mk (Name.mk (lit "John")) []
          (Some (Birthday.mk (mk_datetime 2000 2 29 0 0 0 0))))
       Sample.book_of_john).
Proof.
  exact (proj1 (proj2 (proj2
    (proj1 (show_birthday_after_add_birthday false (lit "John")
              (lit "29.02.2000") Sample.book_of_john
              Sample.john_born_10_feb
              ltac:(vm_compute; reflexivity))
       (Birthday.mk (mk_datetime 2000 2 29 0 0 0 0))
       ltac:(vm_compute; reflexivity))))).
Defined.

(** X26: arguments that are missing.  The handlers that unpack their
    arguments answer with the interpreter's unpacking message; the text of
    [input_error] for [IndexError] is the answer only of the handlers that
    take [args[0]].  [Bot.add] and [Bot.add_birthday] also refuse a third
    argument, which the functions of the second variant ignore.  The book
    is never touched. *)
Theorem answers_to_missing_arguments
  (today : datetime) (libc_pads_year : bool) (a b c : str)
  (rest : list str) (book : AddressBook.t) :
  let expected_at_least (k n : string) :=
    (Returned (Text (lit ("not enough values to unpack (expected at least "
                          ++ k ++ ", got " ++ n ++ ")")%string)), book) in
  let expected_two (n : string) :=
    (Returned (Text (lit ("not enough values to unpack (expected 2, got "
                          ++ n ++ ")")%string)), book) in
  let too_many :=
    (Returned (Text (lit "too many values to unpack (expected 2)")), book) in
  Task2.add_contact [] book = expected_at_least "2"%string "0"%string
  /\ Task2.add_contact [a] book = expected_at_least "2"%string "1"%string
  /\ Task2.change_contact [] book = expected_at_least "3"%string "0"%string
  /\ Task2.change_contact [a] book = expected_at_least "3"%string "1"%string
  /\ Task2.change_contact [a; b] book = expected_at_least "3"%string "2"%string
  /\ Task2.show_phone [] book = expected_at_least "1"%string "0"%string
  /\ Task2.add_birthday [] book = expected_at_least "2"%string "0"%string
  /\ Task2.add_birthday [a] book = expected_at_least "2"%string "1"%string
  /\ Task2.show_birthday libc_pads_year [] book
     = expected_at_least "1"%string "0"%string
  /\ Task2.birthdays today libc_pads_year [] book
     = (Returned (Text (lit "Insufficient arguments provided.")), book)
  /\ Bot.add [] book = expected_two "0"%string
  /\ Bot.add [a] book = expected_two "1"%string
  /\ Bot.add (a :: b :: c :: rest) book = too_many
  /\ Bot.add_birthday [] book = expected_two "0"%string
  /\ Bot.add_birthday [a] book = expected_two "1"%string
  /\ Bot.add_birthday (a :: b :: c :: rest) book = too_many
  /\ Bot.phone [] book
     = (Returned (Text (lit "Give me name and phone please.")), book)
  /\ Bot.birthday libc_pads_year [] book
     = (Returned (Text (lit "Give me name and phone please.")), book)
  /\ Bot.upcoming_birthdays today libc_pads_year [] book
     = (Returned (Text (lit "Give me name and phone please.")), book).
Proof. cbv zeta. repeat split. Qed.
